(** * A shallow embedding of the WAL writer (src/box/wal.c) and of the
    relay row filter, the initial join stream and the status message of
    the relay (src/box/relay.cc).

    The WAL thread functions are pure functions on an explicit writer
    record; the TX-thread side (the rollback queue, the replicaset vclock
    and the sequence of entry completions) is a second record.  Disk and
    allocator results that the C code obtains from the OS are read from an
    oracle list kept in the writer record.  The WAL thread can stop on a
    failed assertion or on a NULL dereference: such runs return [None]. *)

From Stdlib Require Import List ZArith Lia Bool Arith.
Import ListNotations.
Open Scope Z_scope.

Notation "'let*' x := c 'in' k" :=
  (match c with Some x => k | None => None end)
  (at level 200, x pattern, c at level 100, k at level 200).

(* ------------------------------------------------------------------ *)
(** ** Vector clocks (box/vclock.h, not among the sources) *)

Definition VCLOCK_MAX : nat := 32.

(** Modelled from the spec: the vector clock of box/vclock.h, "a sparse
    mapping from instance id to monotone non-negative counter", [get]
    returning 0 for an unset component; ids range over [0, VCLOCK_MAX). *)
Definition vclock := nat -> Z.

Definition vclock_create : vclock := fun _ => 0.

Definition vclock_get (v : vclock) (id : nat) : Z := v id.

Definition vclock_set (v : vclock) (id : nat) (x : Z) : vclock :=
  fun j => if Nat.eqb j id then x else v j.

Definition vclock_ids : list nat := seq 0 VCLOCK_MAX.

(** Modelled from the spec: [inc(id)] bumps one component and returns the
    new value. *)
Definition vclock_inc (v : vclock) (id : nat) : Z * vclock :=
  let x := vclock_get v id + 1 in (x, vclock_set v id x).

(** Modelled from the spec: [follow(id, lsn)] "fails if new lsn <= current"
    (an assertion in vclock.h: [None] is the aborted process). *)
Definition vclock_follow (v : vclock) (id : nat) (lsn : Z) : option vclock :=
  if vclock_get v id <? lsn then Some (vclock_set v id lsn) else None.

(** Modelled from the spec: [sum()], the signature. *)
Definition vclock_sum (v : vclock) : Z :=
  fold_left (fun acc id => acc + v id) vclock_ids 0.

(** Modelled from the spec: [merge(into, diff)], a componentwise add; the
    diff is consumed by the merge (it is reset), so the next batch portion
    accumulates a fresh diff against the merged clock. *)
Definition vclock_merge (dst diff : vclock) : vclock * vclock :=
  (fun id => dst id + diff id, vclock_create).

Definition VCLOCK_ORDER_UNDEFINED : Z := 2147483647.

(** Modelled from the spec: [compare(a,b)] in {less, equal, greater,
    incomparable}, as the integers -1, 0, 1 and [VCLOCK_ORDER_UNDEFINED]
    that the C callers test. *)
Definition vclock_compare (a b : vclock) : Z :=
  let le := forallb (fun id => a id <=? b id) vclock_ids in
  let ge := forallb (fun id => b id <=? a id) vclock_ids in
  if le && ge then 0
  else if le then -1
  else if ge then 1
  else VCLOCK_ORDER_UNDEFINED.

(* ------------------------------------------------------------------ *)
(** ** Rows and journal entries *)

Definition GROUP_DEFAULT : nat := 0.
Definition GROUP_LOCAL : nat := 1.
Definition REPLICA_ID_NIL : nat := 0.
Definition IPROTO_NOP : nat := 12.

Record xrow_header := mk_row {
  replica_id : nat;
  lsn : Z;
  tsn : Z;
  is_commit : bool;
  tm : Z;
  group_id : nat;
  type : nat;
  bodycnt : nat;
  sync : Z
}.

Record journal_entry := mk_entry {
  entry_id : nat;
  rows : list xrow_header;
  res : Z;
  entry_approx_len : Z
}.

Definition entry_set_rows (e : journal_entry) (rs : list xrow_header) :=
  mk_entry (entry_id e) rs (res e) (entry_approx_len e).

Definition entry_set_res (e : journal_entry) (r : Z) :=
  mk_entry (entry_id e) (rows e) r (entry_approx_len e).

(* ------------------------------------------------------------------ *)
(** ** wal_assign_lsn *)

Section AssignLsn.

(** The global [instance_id] and the event-loop clock [ev_now(loop())]. *)
Variable instance_id : nat.
Variable ev_now : Z.

(** The [for ( ; row < end; row++)] loop of [wal_assign_lsn]: [tsn] is the
    local variable of the function, [rest = []] is [row == end - 1]. *)
Fixpoint wal_assign_lsn_rows (vclock_diff base : vclock) (tsn0 : Z)
    (rs : list xrow_header) : option (list xrow_header * vclock) :=
  match rs with
  | [] => Some ([], vclock_diff)
  | r :: rest =>
      if Nat.eqb (replica_id r) 0 then
        let (x, diff1) := vclock_inc vclock_diff instance_id in
        let l := x + vclock_get base instance_id in
        let t := if tsn0 =? 0 then l else tsn0 in
        let r' := mk_row instance_id l t
                    (match rest with [] => true | _ => false end)
                    ev_now (group_id r) (type r) (bodycnt r) (sync r) in
        let* (rest', d) := wal_assign_lsn_rows diff1 base t rest in
        Some (r' :: rest', d)
      else
        let* diff1 := vclock_follow vclock_diff (replica_id r)
                        (lsn r - vclock_get base (replica_id r)) in
        let r' := mk_row (replica_id r) (lsn r) (tsn r) (is_commit r)
                    ev_now (group_id r) (type r) (bodycnt r) (sync r) in
        let* (rest', d) := wal_assign_lsn_rows diff1 base tsn0 rest in
        Some (r' :: rest', d)
  end.

Definition wal_assign_lsn (vclock_diff base : vclock) (rs : list xrow_header)
  : option (list xrow_header * vclock) :=
  wal_assign_lsn_rows vclock_diff base 0 rs.

End AssignLsn.

(* ------------------------------------------------------------------ *)
(** ** The writer state *)

Inductive wal_mode_t := WAL_NONE | WAL_WRITE | WAL_FSYNC.

Definition WAL_FALLOCATE_LEN : Z := 1024 * 1024.
Definition ENOSPC : Z := 28.

(** The part of [struct xlog] the writer reads: [xlog_is_open],
    [meta.vclock], [offset] and [allocated]. *)
Record xlog := mk_xlog {
  xlog_open : bool;
  meta_vclock : vclock;
  offset : Z;
  allocated : Z
}.

Definition xlog_closed : xlog := mk_xlog false vclock_create 0 0.

(** [writer->gc_wal_vclock] is a pointer: NULL, a vclock of the directory
    index, or [&writer->vclock] (see [second_vclock]). *)
Inductive gc_ptr := GcNull | GcDir (v : vclock) | GcWriter.

(** Messages the WAL thread pushes to the [tx_prio] pipe. *)
Inductive tx_msg :=
  | TxNotifyGc (v : vclock)
  | TxNotifyCheckpoint
  | TxRollbackRoute.

Record wal_writer := mk_writer {
  w_vclock : vclock;
  checkpoint_vclock : vclock;
  checkpoint_wal_size : Z;
  checkpoint_threshold : Z;
  checkpoint_triggered : bool;
  (** [writer->in_rollback.route != NULL] *)
  in_rollback : bool;
  wal_mode : wal_mode_t;
  wal_max_size : Z;
  current_wal : xlog;
  (** [wal_dir.index]: starting vclocks, oldest first. *)
  wal_dir : list vclock;
  gc_first_vclock : vclock;
  gc_wal_vclock : gc_ptr;
  (** [mclock_get(&writer->mclock, -1, &min)]: [None] when it fails. *)
  mclock_min : option vclock;
  (** messages pushed to [tx_prio_pipe], in push order *)
  tx_prio : list tx_msg;
  (** return codes the disk gives to successive I/O calls *)
  disk : list Z;
  (** results of successive [malloc] calls of the WAL thread: [false] is
      a NULL return *)
  alloc : list bool
}.

Definition set_vclock (w : wal_writer) (v : vclock) : wal_writer :=
  mk_writer v (checkpoint_vclock w) (checkpoint_wal_size w)
    (checkpoint_threshold w) (checkpoint_triggered w) (in_rollback w)
    (wal_mode w) (wal_max_size w) (current_wal w) (wal_dir w)
    (gc_first_vclock w) (gc_wal_vclock w) (mclock_min w) (tx_prio w) (disk w)
    (alloc w).

Definition set_checkpoint_wal_size (w : wal_writer) (z : Z) : wal_writer :=
  mk_writer (w_vclock w) (checkpoint_vclock w) z
    (checkpoint_threshold w) (checkpoint_triggered w) (in_rollback w)
    (wal_mode w) (wal_max_size w) (current_wal w) (wal_dir w)
    (gc_first_vclock w) (gc_wal_vclock w) (mclock_min w) (tx_prio w) (disk w)
    (alloc w).

Definition set_checkpoint_triggered (w : wal_writer) (b : bool) : wal_writer :=
  mk_writer (w_vclock w) (checkpoint_vclock w) (checkpoint_wal_size w)
    (checkpoint_threshold w) b (in_rollback w)
    (wal_mode w) (wal_max_size w) (current_wal w) (wal_dir w)
    (gc_first_vclock w) (gc_wal_vclock w) (mclock_min w) (tx_prio w) (disk w)
    (alloc w).

Definition set_in_rollback (w : wal_writer) (b : bool) : wal_writer :=
  mk_writer (w_vclock w) (checkpoint_vclock w) (checkpoint_wal_size w)
    (checkpoint_threshold w) (checkpoint_triggered w) b
    (wal_mode w) (wal_max_size w) (current_wal w) (wal_dir w)
    (gc_first_vclock w) (gc_wal_vclock w) (mclock_min w) (tx_prio w) (disk w)
    (alloc w).

Definition set_current_wal (w : wal_writer) (l : xlog) : wal_writer :=
  mk_writer (w_vclock w) (checkpoint_vclock w) (checkpoint_wal_size w)
    (checkpoint_threshold w) (checkpoint_triggered w) (in_rollback w)
    (wal_mode w) (wal_max_size w) l (wal_dir w)
    (gc_first_vclock w) (gc_wal_vclock w) (mclock_min w) (tx_prio w) (disk w)
    (alloc w).

Definition set_wal_dir (w : wal_writer) (d : list vclock) : wal_writer :=
  mk_writer (w_vclock w) (checkpoint_vclock w) (checkpoint_wal_size w)
    (checkpoint_threshold w) (checkpoint_triggered w) (in_rollback w)
    (wal_mode w) (wal_max_size w) (current_wal w) d
    (gc_first_vclock w) (gc_wal_vclock w) (mclock_min w) (tx_prio w) (disk w)
    (alloc w).

Definition set_gc_first_vclock (w : wal_writer) (v : vclock) : wal_writer :=
  mk_writer (w_vclock w) (checkpoint_vclock w) (checkpoint_wal_size w)
    (checkpoint_threshold w) (checkpoint_triggered w) (in_rollback w)
    (wal_mode w) (wal_max_size w) (current_wal w) (wal_dir w)
    v (gc_wal_vclock w) (mclock_min w) (tx_prio w) (disk w)
    (alloc w).

Definition set_gc_wal_vclock (w : wal_writer) (p : gc_ptr) : wal_writer :=
  mk_writer (w_vclock w) (checkpoint_vclock w) (checkpoint_wal_size w)
    (checkpoint_threshold w) (checkpoint_triggered w) (in_rollback w)
    (wal_mode w) (wal_max_size w) (current_wal w) (wal_dir w)
    (gc_first_vclock w) p (mclock_min w) (tx_prio w) (disk w)
    (alloc w).

Definition set_disk (w : wal_writer) (d : list Z) : wal_writer :=
  mk_writer (w_vclock w) (checkpoint_vclock w) (checkpoint_wal_size w)
    (checkpoint_threshold w) (checkpoint_triggered w) (in_rollback w)
    (wal_mode w) (wal_max_size w) (current_wal w) (wal_dir w)
    (gc_first_vclock w) (gc_wal_vclock w) (mclock_min w) (tx_prio w) d
    (alloc w).

(** [cpipe_push(&writer->tx_prio_pipe, msg)] *)
Definition push_tx_prio (w : wal_writer) (m : tx_msg) : wal_writer :=
  mk_writer (w_vclock w) (checkpoint_vclock w) (checkpoint_wal_size w)
    (checkpoint_threshold w) (checkpoint_triggered w) (in_rollback w)
    (wal_mode w) (wal_max_size w) (current_wal w) (wal_dir w)
    (gc_first_vclock w) (gc_wal_vclock w) (mclock_min w) (tx_prio w ++ [m])
    (disk w) (alloc w).

(** The next return code of the disk; an exhausted oracle succeeds. *)
Definition disk_call (w : wal_writer) : Z * wal_writer :=
  match disk w with
  | [] => (0, w)
  | rc :: rest => (rc, set_disk w rest)
  end.

Definition set_alloc (w : wal_writer) (a : list bool) : wal_writer :=
  mk_writer (w_vclock w) (checkpoint_vclock w) (checkpoint_wal_size w)
    (checkpoint_threshold w) (checkpoint_triggered w) (in_rollback w)
    (wal_mode w) (wal_max_size w) (current_wal w) (wal_dir w)
    (gc_first_vclock w) (gc_wal_vclock w) (mclock_min w) (tx_prio w) (disk w)
    a.

(** [malloc()] in the WAL thread: [false] is a NULL return; an exhausted
    oracle succeeds. *)
Definition malloc_call (w : wal_writer) : bool * wal_writer :=
  match alloc w with
  | [] => (true, w)
  | ok :: rest => (ok, set_alloc w rest)
  end.

(** A write of [rc] bytes moves the xlog offset and uses up preallocated
    space. *)
Definition xlog_account (w : wal_writer) (rc : Z) : wal_writer :=
  if 0 <? rc then
    let l := current_wal w in
    set_current_wal w (mk_xlog (xlog_open l) (meta_vclock l) (offset l + rc)
                         (Z.max 0 (allocated l - rc)))
  else w.

(** [gc_wal_vclock] read through the pointer. *)
Definition gc_ptr_get (w : wal_writer) (p : gc_ptr) : option vclock :=
  match p with
  | GcNull => None
  | GcDir v => Some v
  | GcWriter => Some (w_vclock w)
  end.

(* ------------------------------------------------------------------ *)
(** ** The segment directory (box/xlog.c, not among the sources) *)

(** [xdir_first_vclock]: the oldest starting vclock of the index. *)
Definition xdir_first_vclock (dir : list vclock) : option vclock :=
  match dir with [] => None | v :: _ => Some v end.

(** Modelled from the spec: [xdir_add_vclock] registers the starting
    vclock of a new segment; it is the newest one of the index. *)
Definition xdir_add_vclock (dir : list vclock) (v : vclock) : list vclock :=
  dir ++ [v].

(** Modelled from the spec (section 4.4): "the directory has any segment
    with starting VClock <= checkpoint_vclock that is not the current one";
    the caller passes the checkpoint signature, and the current segment is
    the newest one of the index.  The index is ordered by signature, so
    such a segment exists iff the oldest one is such a segment. *)
Definition xdir_has_garbage (dir : list vclock) (signature : Z) : bool :=
  match dir with
  | v :: _ :: _ => vclock_sum v <=? signature
  | _ => false
  end.

(** Modelled from the spec (section 4.4): with [XDIR_GC_REMOVE_ONE],
    "delete exactly one oldest such segment". *)
Definition xdir_collect_garbage_one (dir : list vclock) (signature : Z)
  : list vclock :=
  if xdir_has_garbage dir signature then tl dir else dir.

(** Modelled from the spec (section 4.7): with [XDIR_GC_ASYNC], delete all
    segments older than the one starting at [signature], i.e. every
    segment whose starting signature is below it. *)
Fixpoint xdir_collect_garbage (dir : list vclock) (signature : Z)
  : list vclock :=
  match dir with
  | [] => []
  | v :: rest =>
      if vclock_sum v <? signature then xdir_collect_garbage rest signature
      else dir
  end.

(** Modelled from the spec (section 4.7): [vclockset_match] "locates the
    newest segment whose starting VClock <= collect"; when there is none it
    returns the oldest segment ([vclockset_first]), so that, as section 4.7
    requires, [gc_wal_vclock] is still refreshed and TX notified.  [None]
    (NULL) only for an empty directory. *)
Definition vclockset_match (dir : list vclock) (key : vclock)
  : option vclock :=
  match fold_left (fun acc v => if vclock_compare v key <=? 0 then Some v else acc)
          dir None with
  | Some v => Some v
  | None => xdir_first_vclock dir
  end.

(* ------------------------------------------------------------------ *)
(** ** Garbage collection, rotation and preallocation *)

(** [second_vclock]: the second vclock of the directory, or the writer
    vclock when the only segment does not start at it, or NULL. *)
Definition second_vclock (w : wal_writer) : gc_ptr :=
  match wal_dir w with
  | [] => GcNull
  | [first] =>
      if negb (vclock_sum first =? vclock_sum (w_vclock w)) then GcWriter
      else GcNull
  | _ :: second :: _ => GcDir second
  end.

(** [wal_gc_advance]: notify TX of the oldest vclock still on disk; when
    the message cannot be allocated only a warning is logged. *)
Definition wal_gc_advance (w : wal_writer) : wal_writer :=
  let (ok, w1) := malloc_call w in
  if ok then
    let v := match xdir_first_vclock (wal_dir w1) with
             | Some v => v
             | None => w_vclock w1
             end in
    push_tx_prio w1 (TxNotifyGc v)
  else w1.

(** [wal_collect_garbage], the body run on every wake of the gc fiber. *)
Definition wal_collect_garbage (w : wal_writer) : wal_writer :=
  let collect0 :=
    match mclock_min w with
    | Some relay_min_vclock =>
        let rc := vclock_compare (gc_first_vclock w) relay_min_vclock in
        if (0 <? rc) || (rc =? VCLOCK_ORDER_UNDEFINED)
        then relay_min_vclock else gc_first_vclock w
    | None => gc_first_vclock w
    end in
  let collect :=
    if negb (xlog_open (current_wal w)) &&
       (vclock_sum (w_vclock w) <=? vclock_sum collect0)
    then Some collect0
    else vclockset_match (wal_dir w) collect0 in
  match collect with
  | Some c =>
      let w1 := set_wal_dir w (xdir_collect_garbage (wal_dir w) (vclock_sum c)) in
      let w2 := set_gc_wal_vclock w1 (second_vclock w1) in
      wal_gc_advance w2
  | None => w
  end.

(** [wal_opt_rotate] (error injection left out); [false] is the [-1]
    return.  The [WAL_EVENT_ROTATE] watcher notification is modelled with
    the watchers below. *)
Definition wal_opt_rotate (w : wal_writer) : wal_writer * bool :=
  let l := current_wal w in
  let w1 := if xlog_open l && (wal_max_size w <=? offset l)
            then set_current_wal w (mk_xlog false (meta_vclock l) (offset l)
                                     (allocated l))
            else w in
  if xlog_open (current_wal w1) then (w1, true)
  else
    let (rc, w2) := disk_call w1 in
    if negb (rc =? 0) then (w2, false)
    else
      let w3 := set_current_wal w2 (mk_xlog true (w_vclock w2) 0 0) in
      let w4 := set_wal_dir w3 (xdir_add_vclock (wal_dir w3) (w_vclock w3)) in
      let w5 := match gc_wal_vclock w4 with
                | GcNull => set_gc_wal_vclock w4 (second_vclock w4)
                | _ => w4
                end in
      (w5, true).

(** The [retry:] loop of [wal_fallocate] (error injection left out);
    [len] is already doubled.  Every retry deletes a segment, so
    [S (length (wal_dir w))] rounds suffice.  [None]: the NULL
    [gc_wal_vclock] is dereferenced by [vclock_compare]. *)
Fixpoint wal_fallocate_retry (fuel : nat) (w : wal_writer) (len gc_lsn : Z)
    (notify_gc : bool) : option (wal_writer * Z * bool) :=
  match fuel with
  | O => Some (w, -1, notify_gc)
  | S fuel' =>
      let l := current_wal w in
      if len <=? allocated l then Some (w, 0, notify_gc)
      else
        let (err, w1) := disk_call w in
        if err =? 0 then
          Some (set_current_wal w1
                  (mk_xlog (xlog_open l) (meta_vclock l) (offset l)
                     (allocated l + Z.max len WAL_FALLOCATE_LEN)),
                0, notify_gc)
        else if negb (err =? ENOSPC) then Some (w1, -1, notify_gc)
        else if negb (xdir_has_garbage (wal_dir w1) gc_lsn)
        then Some (w1, -1, notify_gc)
        else
          let w2 := set_wal_dir w1 (xdir_collect_garbage_one (wal_dir w1) gc_lsn) in
          let w3 := set_gc_wal_vclock w2 (second_vclock w2) in
          let* g := gc_ptr_get w3 (gc_wal_vclock w3) in
          let w4 := if vclock_compare (gc_first_vclock w3) g <? 0
                    then set_gc_first_vclock w3 g else w3 in
          wal_fallocate_retry fuel' w4 len gc_lsn true
  end.

(** [wal_fallocate]: [0] on success, [-1] on error. *)
Definition wal_fallocate (w : wal_writer) (len : Z) : option (wal_writer * Z) :=
  let gc_lsn := vclock_sum (checkpoint_vclock w) in
  let* (p, notify_gc) :=
    wal_fallocate_retry (S (length (wal_dir w))) w (2 * len) gc_lsn false in
  let (w1, rc) := p in
  Some (if notify_gc then wal_gc_advance w1 else w1, rc).



(* ------------------------------------------------------------------ *)
(** ** Batches: the WAL thread side *)

Record wal_msg := mk_msg {
  commit : list journal_entry;
  rollback : list journal_entry;
  approx_len : Z;
  msg_vclock : vclock
}.

(** [wal_writer_begin_rollback]: set the [in_rollback] route and push the
    four-hop rollback message to TX. *)
Definition wal_writer_begin_rollback (w : wal_writer) : wal_writer :=
  push_tx_prio (set_in_rollback w true) TxRollbackRoute.

(** [wal_writer_end_rollback], the last hop of the rollback route. *)
Definition wal_writer_end_rollback (w : wal_writer) : wal_writer :=
  set_in_rollback w false.

(** [wal_encode_write_entry] (error injection left out): the return code
    of [xrow_buf_write] / [xlog_write_iov] / [xlog_tx_commit], that is
    negative on error, 0 when the rows stay buffered and the number of
    flushed bytes when the xlog buffer was flushed. *)
Definition wal_encode_write_entry (w : wal_writer) (e : journal_entry)
  : wal_writer * Z :=
  let (rc, w1) := disk_call w in (xlog_account w1 rc, rc).

(** [xlog_flush] *)
Definition xlog_flush (w : wal_writer) : wal_writer * Z :=
  let (rc, w1) := disk_call w in (xlog_account w1 rc, rc).

Section Batch.

Variable instance_id : nat.
Variable ev_now : Z.

(** The [do { ... } while (rc == 0 && !stailq_empty(input))] loop of
    [wal_write_xlog_batch]; returns the writer, the rest of [input], the
    [output] list, the diff and [rc]. *)
Fixpoint wal_write_xlog_batch_loop (w : wal_writer)
    (input output : list journal_entry) (vclock_diff : vclock)
  : option (wal_writer * list journal_entry * list journal_entry * vclock * Z) :=
  match input with
  | [] => Some (w, [], output, vclock_diff, 0)
  | entry :: rest =>
      let* (rs, diff1) :=
        wal_assign_lsn instance_id ev_now vclock_diff (w_vclock w) (rows entry) in
      let entry1 := mk_entry (entry_id entry) rs
                      (vclock_sum diff1 + vclock_sum (w_vclock w))
                      (entry_approx_len entry) in
      let output1 := output ++ [entry1] in
      let (w1, rc) := wal_encode_write_entry w entry1 in
      match rest with
      | _ :: _ =>
          if rc =? 0 then wal_write_xlog_batch_loop w1 rest output1 diff1
          else Some (w1, rest, output1, diff1, rc)
      | [] => Some (w1, rest, output1, diff1, rc)
      end
  end.

(** [wal_write_xlog_batch]: the loop, then an explicit flush. *)
Definition wal_write_xlog_batch (w : wal_writer)
    (input output : list journal_entry) (vclock_diff : vclock)
  : option (wal_writer * list journal_entry * list journal_entry * vclock * Z) :=
  let* (w1, rest, output1, diff1, rc) :=
    wal_write_xlog_batch_loop w input output vclock_diff in
  if rc =? 0 then
    let (w2, rc2) := xlog_flush w1 in Some (w2, rest, output1, diff1, rc2)
  else Some (w1, rest, output1, diff1, rc).

(** The [while (!stailq_empty(&input))] loop of [wal_write_to_disk]; the
    xrow buffer transaction around each portion is not modelled.  Every
    round consumes at least one entry, so [S (length input)] rounds
    suffice.  Returns the writer, the commit list and the rollback list. *)
Fixpoint wal_write_to_disk_loop (fuel : nat) (w : wal_writer)
    (input commit_l rollback_l : list journal_entry) (vclock_diff : vclock)
  : option (wal_writer * list journal_entry * list journal_entry) :=
  match fuel with
  | O => Some (w, commit_l, rollback_l ++ input)
  | S fuel' =>
      match input with
      | [] => Some (w, commit_l, rollback_l)
      | _ :: _ =>
          let* (w1, rest, output, diff1, rc) :=
            wal_write_xlog_batch w input [] vclock_diff in
          if rc <? 0 then
            wal_write_to_disk_loop fuel' w1 [] commit_l
              (rollback_l ++ output ++ rest) diff1
          else
            let (v, diff2) := vclock_merge (w_vclock w1) diff1 in
            let w2 := set_vclock
                        (set_checkpoint_wal_size w1 (checkpoint_wal_size w1 + rc))
                        v in
            wal_write_to_disk_loop fuel' w2 rest (commit_l ++ output)
              rollback_l diff2
      end
  end.

(** [wal_write_to_disk] (error injection left out).  The final
    [WAL_EVENT_WRITE] watcher notification is modelled with the
    watchers below. *)
Definition wal_write_to_disk (w : wal_writer) (m : wal_msg)
  : option (wal_writer * wal_msg) :=
  if in_rollback w then
    Some (w, mk_msg [] (rollback m ++ commit m) (approx_len m) (w_vclock w))
  else
    let (w1, ok) := wal_opt_rotate w in
    if negb ok then
      Some (wal_writer_begin_rollback w1,
            mk_msg [] (rollback m ++ commit m) (approx_len m) (w_vclock w1))
    else
      let* (w2, frc) := wal_fallocate w1 (approx_len m) in
      if negb (frc =? 0) then
        Some (wal_writer_begin_rollback w2,
              mk_msg [] (rollback m ++ commit m) (approx_len m) (w_vclock w2))
      else
        let* (w3, commit_l, rollback_l) :=
          wal_write_to_disk_loop (S (length (commit m))) w2 (commit m) []
            (rollback m) vclock_create in
        let w4 := if negb (checkpoint_triggered w3) &&
                     (checkpoint_threshold w3 <? checkpoint_wal_size w3)
                  then
                    let (ok, w3a) := malloc_call w3 in
                    if ok then set_checkpoint_triggered
                                 (push_tx_prio w3a TxNotifyCheckpoint) true
                    else w3a
                  else w3 in
        match rollback_l with
        | [] => Some (w4, mk_msg commit_l [] (approx_len m) (w_vclock w4))
        | _ :: _ =>
            Some (wal_writer_begin_rollback w4,
                  mk_msg commit_l (map (fun e => entry_set_res e (-1)) rollback_l)
                    (approx_len m) (w_vclock w4))
        end.

End Batch.

(* ------------------------------------------------------------------ *)
(** ** The TX thread side *)

(** A message in the [wal_pipe] input: a batch ([wal_msg()] is not NULL)
    or any other message (a [cbus_call] request, the rollback route). *)
Inductive pipe_msg := PipeBatch (b : wal_msg) | PipeOther.

Record tx_state := mk_tx {
  (** [writer->rollback], the TX-side rollback queue *)
  tx_rollback : list journal_entry;
  (** [replicaset.vclock] *)
  replicaset_vclock : vclock;
  (** [writer->wal_pipe.input], oldest first *)
  wal_pipe_input : list pipe_msg;
  (** every [journal_entry_complete] call in order: the entry, its [res]
      and the [replicaset.vclock] its completion observes *)
  completions : list (nat * Z * vclock);
  (** [writer->wal_pipe.n_input] *)
  wal_pipe_n_input : Z;
  (** the messages the pipe has handed to the WAL endpoint, oldest first *)
  wal_pipe_output : list pipe_msg;
  (** results of successive [mempool_alloc(&writer->msg_pool)] calls:
      [false] is a NULL return; an exhausted oracle succeeds *)
  msg_pool : list bool
}.

Definition set_wal_pipe (tx : tx_state) (input : list pipe_msg) (n_input : Z)
    (output : list pipe_msg) : tx_state :=
  mk_tx (tx_rollback tx) (replicaset_vclock tx) input (completions tx) n_input
    output (msg_pool tx).

Definition journal_entry_complete (tx : tx_state) (e : journal_entry)
  : tx_state :=
  mk_tx (tx_rollback tx) (replicaset_vclock tx) (wal_pipe_input tx)
    (completions tx ++ [(entry_id e, res e, replicaset_vclock tx)])
    (wal_pipe_n_input tx) (wal_pipe_output tx) (msg_pool tx).

(** [tx_schedule_queue]: complete the queue in its order. *)
Definition tx_schedule_queue (tx : tx_state) (q : list journal_entry)
  : tx_state :=
  fold_left journal_entry_complete q tx.

(** [tx_schedule_commit]: append the batch rollback list to the writer
    rollback queue, copy the batch vclock, complete the commit list. *)
Definition tx_schedule_commit (tx : tx_state) (m : wal_msg) : tx_state :=
  let q := match rollback m with
           | [] => tx_rollback tx
           | _ :: _ => tx_rollback tx ++ rollback m
           end in
  tx_schedule_queue
    (mk_tx q (msg_vclock m) (wal_pipe_input tx) (completions tx)
       (wal_pipe_n_input tx) (wal_pipe_output tx) (msg_pool tx)) (commit m).

(** [tx_schedule_rollback]: reverse the queue, complete it, re-create it. *)
Definition tx_schedule_rollback (tx : tx_state) : tx_state :=
  let tx1 := tx_schedule_queue tx (rev (tx_rollback tx)) in
  mk_tx [] (replicaset_vclock tx1) (wal_pipe_input tx1) (completions tx1)
    (wal_pipe_n_input tx1) (wal_pipe_output tx1) (msg_pool tx1).

(** Add [e] to batch [b]: [stailq_add_tail_entry] and [approx_len +=]. *)
Definition batch_add (b : wal_msg) (e : journal_entry) : wal_msg :=
  mk_msg (commit b ++ [e]) (rollback b) (approx_len b + entry_approx_len e)
    (msg_vclock b).

(** [IOV_MAX] of the platform (Linux), the [max_input] of the WAL pipe
    set by [wal_writer_create]. *)
Definition IOV_MAX : Z := 1024.

(** [XROW_IOVMAX] of box/xrow.h: one header and two body iovecs. *)
Definition XROW_IOVMAX : Z := 3.

(** Modelled from lib/core/cbus (not among the sources): the pipe's
    [flush_input] callback hands the whole input to the WAL endpoint and
    resets [n_input]; it does nothing when [n_input] is 0.  The TX event
    loop runs it at the end of the iteration in which input was fed, and
    [cpipe_push] / [cpipe_flush_input] run it at once when [n_input]
    reaches [max_input]. *)
Definition cpipe_flush_cb (tx : tx_state) : tx_state :=
  if wal_pipe_n_input tx =? 0 then tx
  else set_wal_pipe tx [] 0 (wal_pipe_output tx ++ wal_pipe_input tx).

(** Modelled from lib/core/cbus: [cpipe_push] adds the message to the
    input and counts it; the flush it feeds to the event loop is the
    deferred [cpipe_flush_cb]. *)
Definition cpipe_push (tx : tx_state) (m : pipe_msg) : tx_state :=
  let tx1 := set_wal_pipe tx (wal_pipe_input tx ++ [m]) (wal_pipe_n_input tx + 1)
               (wal_pipe_output tx) in
  if IOV_MAX <=? wal_pipe_n_input tx1 then cpipe_flush_cb tx1 else tx1.

(** Modelled from lib/core/cbus: [cpipe_flush_input] flushes at once when
    [n_input] has reached [max_input]; below it the flush is left to the
    end of the event loop iteration. *)
Definition cpipe_flush_input (tx : tx_state) : tx_state :=
  if (0 <? wal_pipe_n_input tx) && (IOV_MAX <=? wal_pipe_n_input tx)
  then cpipe_flush_cb tx else tx.

(** [mempool_alloc(&writer->msg_pool)] *)
Definition mempool_alloc (tx : tx_state) : bool * tx_state :=
  match msg_pool tx with
  | [] => (true, tx)
  | ok :: rest =>
      (ok, mk_tx (tx_rollback tx) (replicaset_vclock tx) (wal_pipe_input tx)
             (completions tx) (wal_pipe_n_input tx) (wal_pipe_output tx) rest)
  end.

(** The end of a queued [wal_write]:
    [writer->wal_pipe.n_input += entry->n_rows * XROW_IOVMAX] and
    [cpipe_flush_input], then [return 0]. *)
Definition wal_write_queued (tx : tx_state) (entry : journal_entry)
  : tx_state * Z :=
  (cpipe_flush_input
     (set_wal_pipe tx (wal_pipe_input tx)
        (wal_pipe_n_input tx + Z.of_nat (length (rows entry)) * XROW_IOVMAX)
        (wal_pipe_output tx)), 0).

(** [wal_write] (error injection left out): [-1] after completing [entry]
    with [res = -1] (a cascading rollback, or no memory for a new batch),
    else [0] with the entry queued in the open batch at the head of the
    pipe input or in a new batch pushed to it.  The batch's [approx_len]
    is updated together with its commit list (the source adds it right
    after [cpipe_push]). *)
Definition wal_write (tx : tx_state) (entry : journal_entry) : tx_state * Z :=
  match tx_rollback tx with
  | _ :: _ => (journal_entry_complete tx (entry_set_res entry (-1)), -1)
  | [] =>
      match wal_pipe_input tx with
      | PipeBatch b :: rest =>
          wal_write_queued
            (set_wal_pipe tx (PipeBatch (batch_add b entry) :: rest)
               (wal_pipe_n_input tx) (wal_pipe_output tx)) entry
      | _ =>
          let (ok, tx1) := mempool_alloc tx in
          if ok then
            wal_write_queued
              (cpipe_push tx1 (PipeBatch (batch_add (mk_msg [] [] 0 vclock_create) entry)))
              entry
          else (journal_entry_complete tx1 (entry_set_res entry (-1)), -1)
      end
  end.

(** Whether [wal_write] has a batch for the entry: an open batch at the
    head of the pipe input, or a successful [mempool_alloc] for a new one. *)
Definition wal_write_has_batch (tx : tx_state) : bool :=
  match wal_pipe_input tx with
  | PipeBatch _ :: _ => true
  | _ => match msg_pool tx with [] => true | ok :: _ => ok end
  end.

(** What a queued entry adds to [n_input]: [n_rows * XROW_IOVMAX]. *)
Definition entry_iov (e : journal_entry) : Z :=
  Z.of_nat (length (rows e)) * XROW_IOVMAX.

(** Every message pushed to the WAL pipe, handed over or still in the
    input, oldest first. *)
Definition wal_pipe_all (tx : tx_state) : list pipe_msg :=
  wal_pipe_output tx ++ wal_pipe_input tx.

Inductive error_code := ER_WAL_IO | ER_CHECKPOINT_ROLLBACK.

Inductive result (A : Type) := RcOk (a : A) | RcErr (code : error_code).
Arguments RcOk {A} a.
Arguments RcErr {A} code.

(** [wal_sync_f], run in the WAL thread. *)
Definition wal_sync_f (w : wal_writer) : result vclock :=
  if in_rollback w then RcErr ER_WAL_IO else RcOk (w_vclock w).

(** [wal_sync] (error injection left out): [cbus_call] runs [wal_sync_f]
    on the writer. *)
Definition wal_sync (w : wal_writer) (tx : tx_state) : result vclock :=
  match wal_mode w with
  | WAL_NONE => RcOk (w_vclock w)
  | _ =>
      match tx_rollback tx with
      | _ :: _ => RcErr ER_WAL_IO
      | [] => wal_sync_f w
      end
  end.

(** [wal_begin_checkpoint_f]: the writer afterwards and the checkpoint
    vclock and WAL size. *)
Definition wal_begin_checkpoint_f (w : wal_writer)
  : wal_writer * result (vclock * Z) :=
  if in_rollback w then (w, RcErr ER_CHECKPOINT_ROLLBACK)
  else
    let l := current_wal w in
    let w1 :=
      if xlog_open l && negb (vclock_sum (meta_vclock l) =? vclock_sum (w_vclock w))
      then
        let w0 := set_current_wal w (mk_xlog false (meta_vclock l) (offset l)
                                       (allocated l)) in
        match gc_wal_vclock w0 with
        | GcNull => set_gc_wal_vclock w0 (second_vclock w0)
        | _ => w0
        end
      else w in
    (w1, RcOk (w_vclock w1, checkpoint_wal_size w1)).

(** [wal_begin_checkpoint] *)
Definition wal_begin_checkpoint (w : wal_writer) (tx : tx_state)
  : wal_writer * result (vclock * Z) :=
  match wal_mode w with
  | WAL_NONE => (w, RcOk (w_vclock w, 0))
  | _ =>
      match tx_rollback tx with
      | _ :: _ => (w, RcErr ER_CHECKPOINT_ROLLBACK)
      | [] => wal_begin_checkpoint_f w
      end
  end.

(** [wal_write_in_wal_mode_none]: runs in TX on the writer directly. *)
Definition wal_write_in_wal_mode_none (instance_id : nat) (ev_now : Z)
    (w : wal_writer) (tx : tx_state) (entry : journal_entry)
  : option (wal_writer * tx_state * Z) :=
  let* (rs, diff) :=
    wal_assign_lsn instance_id ev_now vclock_create (w_vclock w) (rows entry) in
  let (v, _) := vclock_merge (w_vclock w) diff in
  let w1 := set_vclock w v in
  let tx1 := mk_tx (tx_rollback tx) (w_vclock w1) (wal_pipe_input tx)
               (completions tx) (wal_pipe_n_input tx) (wal_pipe_output tx)
               (msg_pool tx) in
  let entry1 := mk_entry (entry_id entry) rs (vclock_sum (w_vclock w1))
                  (entry_approx_len entry) in
  Some (w1, journal_entry_complete tx1 entry1, 0).

(* ------------------------------------------------------------------ *)
(** ** WAL watchers *)

Definition WAL_EVENT_WRITE : Z := 1.
Definition WAL_EVENT_ROTATE : Z := 2.

(** Where the watcher's single notification message is: [Idle] is
    [msg->cmsg.route == NULL]; [ToWatcher] is the first hop
    ([wal_watcher_notify_perform] in the watcher thread); [ToWal] is the
    second hop ([wal_watcher_notify_complete] back in the WAL thread). *)
Inductive msg_stage_t := Idle | ToWatcher | ToWal.

Record wal_watcher := mk_watcher {
  (** [!rlist_empty(&watcher->next)] *)
  attached : bool;
  msg_stage : msg_stage_t;
  (** [watcher->msg.events] *)
  msg_events : Z;
  pending_events : Z;
  (** the events of every message pushed to [watcher_pipe], in order *)
  pushed : list Z;
  (** the events every [watcher->cb] call received, in order *)
  delivered : list Z
}.

(** [wal_set_watcher]: detached, no message en route. *)
Definition watcher_init : wal_watcher := mk_watcher false Idle 0 0 [] [].

(** [wal_watcher_notify] *)
Definition wal_watcher_notify (w : wal_watcher) (events : Z) : wal_watcher :=
  match msg_stage w with
  | Idle =>
      mk_watcher (attached w) ToWatcher events (pending_events w)
        (pushed w ++ [events]) (delivered w)
  | _ =>
      mk_watcher (attached w) (msg_stage w) (msg_events w)
        (Z.lor (pending_events w) events) (pushed w) (delivered w)
  end.

(** [wal_watcher_notify_perform], in the watcher thread. *)
Definition wal_watcher_notify_perform (w : wal_watcher) : wal_watcher :=
  mk_watcher (attached w) ToWal (msg_events w) (pending_events w) (pushed w)
    (delivered w ++ [msg_events w]).

(** [wal_watcher_notify_complete], back in the WAL thread. *)
Definition wal_watcher_notify_complete (w : wal_watcher) : wal_watcher :=
  let w1 := mk_watcher (attached w) Idle (msg_events w) (pending_events w)
              (pushed w) (delivered w) in
  if negb (attached w1) then w1
  else if negb (pending_events w1 =? 0) then
    let w2 := wal_watcher_notify w1 (pending_events w1) in
    mk_watcher (attached w2) (msg_stage w2) (msg_events w2) 0 (pushed w2)
      (delivered w2)
  else w1.

(** [wal_watcher_attach] *)
Definition wal_watcher_attach (w : wal_watcher) : wal_watcher :=
  wal_watcher_notify
    (mk_watcher true (msg_stage w) (msg_events w) (pending_events w)
       (pushed w) (delivered w))
    WAL_EVENT_ROTATE.

(** [wal_watcher_detach] *)
Definition wal_watcher_detach (w : wal_watcher) : wal_watcher :=
  mk_watcher false (msg_stage w) (msg_events w) (pending_events w) (pushed w)
    (delivered w).

(** The runs of one watcher, with the OR of all events the writer raised
    for it and the number of completions so far.  The writer notifies only
    attached watchers ([wal_notify_watchers] walks the list). *)
Inductive watcher_run : wal_watcher -> Z -> nat -> Prop :=
  | run_attach :
      watcher_run (wal_watcher_attach watcher_init) WAL_EVENT_ROTATE 0
  | run_notify w r c ev :
      watcher_run w r c -> attached w = true ->
      watcher_run (wal_watcher_notify w ev) (Z.lor r ev) c
  | run_perform w r c :
      watcher_run w r c -> msg_stage w = ToWatcher ->
      watcher_run (wal_watcher_notify_perform w) r c
  | run_complete w r c :
      watcher_run w r c -> msg_stage w = ToWal ->
      watcher_run (wal_watcher_notify_complete w) r (S c)
  | run_detach w r c :
      watcher_run w r c -> attached w = true ->
      watcher_run (wal_watcher_detach w) r c.

(** The OR of a list of event sets. *)
Definition lor_all (l : list Z) : Z := fold_left Z.lor l 0.

(* ------------------------------------------------------------------ *)
(** ** The relay row filter (relay.cc) *)

Record relay := mk_relay {
  (** [relay->replica->id]; [None] when [relay->replica == NULL] *)
  relay_replica : option nat;
  local_vclock_at_subscribe : vclock;
  relay_sync : Z;
  (** rows written in full to the replica socket, in order *)
  relay_out : list xrow_header;
  (** results of successive [coio_write_xrow(&relay->io, ...)] calls: a
      negative value is a failed write; an exhausted oracle succeeds *)
  relay_io : list Z
}.

(** Whether the next [coio_write_xrow] of the relay succeeds. *)
Definition relay_io_ok (r : relay) : bool :=
  match relay_io r with [] => true | c :: _ => 0 <=? c end.

(** [relay_send] (error injection left out): the packet takes the relay's
    [sync]; a failed [coio_write_xrow] returns [-1]. *)
Definition relay_send (r : relay) (packet : xrow_header) : relay * Z :=
  let p := mk_row (replica_id packet) (lsn packet) (tsn packet)
             (is_commit packet) (tm packet) (group_id packet) (type packet)
             (bodycnt packet) (relay_sync r) in
  let (c, rest) := match relay_io r with
                   | [] => (0, [])
                   | c :: rest => (c, rest)
                   end in
  if c <? 0 then
    (mk_relay (relay_replica r) (local_vclock_at_subscribe r) (relay_sync r)
       (relay_out r) rest, -1)
  else
    (mk_relay (relay_replica r) (local_vclock_at_subscribe r) (relay_sync r)
       (relay_out r ++ [p]) rest, 0).

(** [relay_send_row] (error injection left out). *)
Definition relay_send_row (r : relay) (packet : xrow_header) : relay * Z :=
  let packet1 :=
    if Nat.eqb (group_id packet) GROUP_LOCAL then
      if Nat.eqb (replica_id packet) REPLICA_ID_NIL then None
      else Some (mk_row (replica_id packet) (lsn packet) (tsn packet)
                   (is_commit packet) (tm packet) GROUP_DEFAULT IPROTO_NOP 0
                   (sync packet))
    else Some packet in
  match packet1 with
  | None => (r, 0)
  | Some p =>
      let own := match relay_replica r with
                 | None => false
                 | Some id => Nat.eqb (replica_id p) id
                 end in
      if negb own ||
         (lsn p <=? vclock_get (local_vclock_at_subscribe r) (replica_id p))
      then relay_send r p
      else (r, 0)
  end.

(** [relay_send_initial_join_row] *)
Definition relay_send_initial_join_row (r : relay) (row : xrow_header)
  : relay * Z :=
  if negb (Nat.eqb (group_id row) GROUP_LOCAL) then relay_send r row else (r, 0).

(** The relay's [xstream] fed a stream of rows by a reader (the snapshot
    and WAL readers live outside the sources): each row goes through the
    stream's write callback, and the first non-zero return ends the
    stream with that code. *)
Fixpoint relay_stream (write : relay -> xrow_header -> relay * Z) (r : relay)
    (rows : list xrow_header) : relay * Z :=
  match rows with
  | [] => (r, 0)
  | p :: rest =>
      let (r1, rc) := write r p in
      if rc =? 0 then relay_stream write r1 rest else (r1, rc)
  end.

(* ------------------------------------------------------------------ *)
(** ** Section 4.3 of the spec, as written there *)

(** What a claim about LSN assignment observes of a row. *)
Definition row_view (r : xrow_header) : nat * Z * Z * bool :=
  (replica_id r, lsn r, tsn r, is_commit r).

(** The LSN assignment of section 4.3 read from the spec's words, for
    the rows of one entry written against the prior writer vclock [V],
    with the diff [d] accumulated over the batch so far.  A local row
    ([replica_id == 0]) gets [lsn := V[instance_id] + d.inc(instance_id)],
    the instance id, the lsn of the first local row of its entry as tsn
    ([first]) and the commit flag when it is the last row of its entry; a
    foreign row calls [d.follow(replica_id, lsn - V[replica_id])], which
    fails on a non-positive step ([None]: the batch is aborted), and is
    left as it is. *)
Fixpoint spec_assign_rows (instance_id : nat) (V d : vclock) (first : option Z)
    (rs : list xrow_header) : option (list (nat * Z * Z * bool) * vclock) :=
  match rs with
  | [] => Some ([], d)
  | r :: rest =>
      if Nat.eqb (replica_id r) 0 then
        let (x, d1) := vclock_inc d instance_id in
        let l := vclock_get V instance_id + x in
        let t := match first with Some t => t | None => l end in
        let* (vs, d2) := spec_assign_rows instance_id V d1 (Some t) rest in
        Some ((instance_id, l, t, match rest with [] => true | _ => false end) :: vs,
              d2)
      else
        let* d1 := vclock_follow d (replica_id r)
                     (lsn r - vclock_get V (replica_id r)) in
        let* (vs, d2) := spec_assign_rows instance_id V d1 first rest in
        Some (row_view r :: vs, d2)
  end.

(** Section 4.3 over the entries of a batch in FIFO order, one diff for
    the whole batch; each entry is paired with the signature of [V]
    merged with the diff after its rows, its result on success
    ([res = new_signature]). *)
Fixpoint spec_assign_batch (instance_id : nat) (V d : vclock)
    (es : list journal_entry)
  : option (list (list (nat * Z * Z * bool) * Z) * vclock) :=
  match es with
  | [] => Some ([], d)
  | e :: rest =>
      let* (vs, d1) := spec_assign_rows instance_id V d None (rows e) in
      let* (vss, d2) := spec_assign_batch instance_id V d1 rest in
      Some ((vs, vclock_sum (fst (vclock_merge V d1))) :: vss, d2)
  end.

(** What a claim about LSN assignment observes of a written entry: the
    views of its rows and its result. *)
Definition entry_view (e : journal_entry) : list (nat * Z * Z * bool) * Z :=
  (map row_view (rows e), res e).

(** Every component of [a] is at most that of [b]. *)
Definition vclock_le (a b : vclock) : Prop := forall id, a id <= b id.

(* ------------------------------------------------------------------ *)
(** ** Concrete runs *)

(** A vclock with component 1 set to [n] and all others 0. *)
Definition vc1 (n : Z) : vclock := vclock_set vclock_create 1%nat n.

(** An empty local row: [replica_id = 0], an [INSERT] with one body. *)
Definition local_row : xrow_header := mk_row 0 0 0 false 0 GROUP_DEFAULT 2 1 0.

(** A writer on instance 1 at [{1:5}], with an open segment that has room
    and a disk whose calls all succeed. *)
Definition S2_writer : wal_writer :=
  mk_writer (vc1 5) vclock_create 0 1000 false false WAL_WRITE 1000000
    (mk_xlog true (vc1 0) 0 (10 * WAL_FALLOCATE_LEN)) [vc1 0] vclock_create
    GcNull None [] [] [].

(** Scenario S2 of the spec: entry A with one row, then entry B with two. *)
Definition S2_A : journal_entry := mk_entry 1 [local_row] (-1) 10.
Definition S2_B : journal_entry := mk_entry 2 [local_row; local_row] (-1) 20.
Definition S2_msg : wal_msg := mk_msg [S2_A; S2_B] [] 30 vclock_create.

Definition S2_out : wal_writer * wal_msg :=
  match wal_write_to_disk 1%nat 7 S2_writer S2_msg with
  | Some p => p
  | None => (S2_writer, S2_msg)
  end.



(** A TX side with an empty rollback queue and nothing completed yet. *)
Definition tx0 : tx_state := mk_tx [] vclock_create [] [] 0 [] [].

(** Scenario S3 of the spec: three one-row entries; A stays in the xlog
    buffer (return code 0), the write of B fails. *)
Definition S3_C : journal_entry := mk_entry 3 [local_row] (-1) 10.
Definition S3_msg : wal_msg := mk_msg [S2_A; S2_B; S3_C] [] 40 vclock_create.
Definition S3_writer : wal_writer := set_disk S2_writer [0; -1].

Definition S3_out : wal_writer * wal_msg :=
  match wal_write_to_disk 1%nat 7 S3_writer S3_msg with
  | Some p => p
  | None => (S3_writer, S3_msg)
  end.

(** A writer whose rollback route is set (the WAL thread has seen a failed
    write) while the TX rollback queue is still empty. *)
Definition C4_writer : wal_writer := set_in_rollback S2_writer true.

(** The entries of the batches waiting in the WAL pipe, in order. *)
Definition pipe_entries (input : list pipe_msg) : list journal_entry :=
  flat_map (fun p => match p with PipeBatch b => commit b | PipeOther => [] end)
    input.

Definition C9_out : wal_writer * tx_state * Z :=
  match wal_write_in_wal_mode_none 1%nat 7 S2_writer tx0 S2_B with
  | Some p => p
  | None => (S2_writer, tx0, -1)
  end.

(** Scenario S4 of the spec: segments starting at [V0..V3] = [{1:0}],
    [{1:3}], [{1:6}], [{1:9}], checkpoint at [V2], the current segment
    (the one at [V3]) has nothing allocated and the first fallocate fails
    with ENOSPC. *)
Definition S4_writer : wal_writer :=
  mk_writer (vc1 10) (vc1 6) 0 1000 false false WAL_WRITE 1000000
    (mk_xlog true (vc1 9) 0 0) [vc1 0; vc1 3; vc1 6; vc1 9] (vc1 0)
    (GcDir (vc1 3)) None [] [ENOSPC; 0] [].


Definition S4_out : wal_writer * Z :=
  match wal_fallocate S4_writer 30 with
  | Some p => p
  | None => (S4_writer, -1)
  end.



(** A gc wake with [gc_first_vclock = {1:5}], a relay at [{1:3}],
    segments at [{1:0}], [{1:3}], [{1:5}] and the last one still open. *)
Definition C6_writer : wal_writer :=
  mk_writer (vc1 7) (vc1 5) 0 1000 false false WAL_WRITE 1000000
    (mk_xlog true (vc1 5) 0 0) [vc1 0; vc1 3; vc1 5] (vc1 5)
    (GcDir (vc1 3)) (Some (vc1 3)) [] [] [].

(** A watcher attached (ROTATE sent), then notified of a WRITE while the
    ROTATE message is en route, which then makes its round trip. *)
Definition W8_watcher : wal_watcher :=
  wal_watcher_notify_complete
    (wal_watcher_notify_perform
       (wal_watcher_notify (wal_watcher_attach watcher_init) WAL_EVENT_WRITE)).

(** The same, with the watcher detached before the ROTATE message
    returns. *)
Definition W8_detached : wal_watcher :=
  wal_watcher_notify_complete
    (wal_watcher_detach
       (wal_watcher_notify_perform
          (wal_watcher_notify (wal_watcher_attach watcher_init) WAL_EVENT_WRITE))).

(* ------------------------------------------------------------------ *)
(** ** Checkpoint commit, threshold and [gc_first_vclock] *)

Definition set_checkpoint_vclock (w : wal_writer) (v : vclock) : wal_writer :=
  mk_writer (w_vclock w) v (checkpoint_wal_size w)
    (checkpoint_threshold w) (checkpoint_triggered w) (in_rollback w)
    (wal_mode w) (wal_max_size w) (current_wal w) (wal_dir w)
    (gc_first_vclock w) (gc_wal_vclock w) (mclock_min w) (tx_prio w) (disk w)
    (alloc w).

Definition set_checkpoint_threshold (w : wal_writer) (z : Z) : wal_writer :=
  mk_writer (w_vclock w) (checkpoint_vclock w) (checkpoint_wal_size w)
    z (checkpoint_triggered w) (in_rollback w)
    (wal_mode w) (wal_max_size w) (current_wal w) (wal_dir w)
    (gc_first_vclock w) (gc_wal_vclock w) (mclock_min w) (tx_prio w) (disk w)
    (alloc w).

(** [wal_commit_checkpoint_f] for the message [(vclock, wal_size)];
    [None] is the failed
    [assert(writer->checkpoint_wal_size >= msg->wal_size)]. *)
Definition wal_commit_checkpoint_f (w : wal_writer) (v : vclock) (wal_size : Z)
  : option wal_writer :=
  if wal_size <=? checkpoint_wal_size w then
    Some (set_checkpoint_triggered
            (set_checkpoint_wal_size (set_checkpoint_vclock w v)
               (checkpoint_wal_size w - wal_size))
            false)
  else None.

(** [wal_commit_checkpoint] *)
Definition wal_commit_checkpoint (w : wal_writer) (v : vclock) (wal_size : Z)
  : option wal_writer :=
  match wal_mode w with
  | WAL_NONE => Some (set_checkpoint_vclock w v)
  | _ => wal_commit_checkpoint_f w v wal_size
  end.

(** [wal_set_checkpoint_threshold], with [wal_set_checkpoint_threshold_f]
    run by [cbus_call]. *)
Definition wal_set_checkpoint_threshold (w : wal_writer) (threshold : Z)
  : wal_writer :=
  match wal_mode w with
  | WAL_NONE => w
  | _ => set_checkpoint_threshold w threshold
  end.

(** [a <= b] on every component. *)
Definition vclock_leb (a b : vclock) : bool :=
  forallb (fun id => a id <=? b id) vclock_ids.

(** [vclock_order_changed] *)
Definition vclock_order_changed (old target new : vclock) : bool :=
  let rc := vclock_compare old target in
  if (0 <? rc) && negb (rc =? VCLOCK_ORDER_UNDEFINED) then false
  else
    let rc2 := vclock_compare new target in
    (0 <=? rc2) && negb (rc2 =? VCLOCK_ORDER_UNDEFINED).

(** [wal_set_gc_first_vclock_f]: the writer afterwards and whether
    [wal_gc_cond] is signalled. *)
Definition wal_set_gc_first_vclock_f (w : wal_writer) (v : vclock)
  : wal_writer * bool :=
  let signal :=
    match gc_ptr_get w (gc_wal_vclock w) with
    | Some g => vclock_order_changed (gc_first_vclock w) g v
    | None => false
    end in
  (set_gc_first_vclock w v, signal).

(** [wal_set_gc_first_vclock] *)
Definition wal_set_gc_first_vclock (w : wal_writer) (v : vclock)
  : wal_writer * bool :=
  match wal_mode w with
  | WAL_NONE => (set_gc_first_vclock w v, false)
  | _ => wal_set_gc_first_vclock_f w v
  end.

(** The [tx_notify_checkpoint] messages among messages pushed to TX. *)
Definition count_checkpoint_notify (l : list tx_msg) : nat :=
  length (filter (fun m => match m with TxNotifyCheckpoint => true | _ => false end) l).

(** Successive batches processed by [wal_write_to_disk]. *)
Inductive wal_writes (instance_id : nat) : wal_writer -> wal_writer -> Prop :=
  | wal_writes_refl w : wal_writes instance_id w w
  | wal_writes_step ev_now w m w1 m1 w2 :
      wal_write_to_disk instance_id ev_now w m = Some (w1, m1) ->
      wal_writes instance_id w1 w2 -> wal_writes instance_id w w2.

(** Successive [wal_write] calls in TX, with their return codes. *)
Fixpoint wal_write_seq (tx : tx_state) (es : list journal_entry)
  : tx_state * list Z :=
  match es with
  | [] => (tx, [])
  | e :: rest =>
      let (tx1, rc) := wal_write tx e in
      let (tx2, rcs) := wal_write_seq tx1 rest in
      (tx2, rc :: rcs)
  end.

(** What [relay_send_row] writes for a stream of WAL rows: rows appended
    to what was written before, none of them [GROUP_LOCAL], all with the
    relay's [sync], at most one per row read, and, on a subscribe session
    bound to replica [id], none of replica [id] beyond
    [local_vclock_at_subscribe[id]]. *)
Definition relay_sent_ok (r : relay) (sent : list xrow_header) : Prop :=
  Forall (fun p =>
    group_id p <> GROUP_LOCAL /\ sync p = relay_sync r /\
    forall id, relay_replica r = Some id -> replica_id p = id ->
      lsn p <= vclock_get (local_vclock_at_subscribe r) id) sent.

(** Every [malloc] the WAL thread is still to make succeeds. *)
Definition alloc_ok (w : wal_writer) : Prop :=
  forallb (fun ok : bool => ok) (alloc w) = true.

(** The checkpoint bookkeeping of the writer is left alone, the [malloc]
    results still to come stay successful, and what is pushed to TX holds
    no [tx_notify_checkpoint]. *)
Definition ckpt_frame (w w' : wal_writer) : Prop :=
  checkpoint_wal_size w' = checkpoint_wal_size w /\
  checkpoint_threshold w' = checkpoint_threshold w /\
  checkpoint_triggered w' = checkpoint_triggered w /\
  checkpoint_vclock w' = checkpoint_vclock w /\
  (alloc_ok w -> alloc_ok w') /\
  exists l, tx_prio w' = tx_prio w ++ l /\ count_checkpoint_notify l = 0%nat.

(** The same, except that [checkpoint_wal_size] may grow. *)
Definition ckpt_grow (w w' : wal_writer) : Prop :=
  checkpoint_wal_size w <= checkpoint_wal_size w' /\
  checkpoint_threshold w' = checkpoint_threshold w /\
  checkpoint_triggered w' = checkpoint_triggered w /\
  checkpoint_vclock w' = checkpoint_vclock w /\
  (alloc_ok w -> alloc_ok w') /\
  exists l, tx_prio w' = tx_prio w ++ l /\ count_checkpoint_notify l = 0%nat.

(** What a batch does to the checkpoint bookkeeping: the WAL size only
    grows, the threshold and checkpoint vclock stay, the trigger is only
    set, successful [malloc] results stay successful, an exceeded
    threshold stays triggered as long as every [malloc] succeeds, and a
    [tx_notify_checkpoint] is pushed exactly when the trigger gets set. *)
Definition ckpt_step (w w' : wal_writer) : Prop :=
  checkpoint_wal_size w <= checkpoint_wal_size w' /\
  checkpoint_threshold w' = checkpoint_threshold w /\
  checkpoint_vclock w' = checkpoint_vclock w /\
  (checkpoint_triggered w = true -> checkpoint_triggered w' = true) /\
  (alloc_ok w -> alloc_ok w') /\
  (alloc_ok w ->
   (checkpoint_threshold w < checkpoint_wal_size w ->
    checkpoint_triggered w = true) ->
   checkpoint_threshold w' < checkpoint_wal_size w' ->
   checkpoint_triggered w' = true) /\
  exists l, tx_prio w' = tx_prio w ++ l /\
    count_checkpoint_notify l =
      (if checkpoint_triggered w then 0
       else if checkpoint_triggered w' then 1 else 0)%nat.

(** The S2 batch on a disk that flushes 2000 bytes with the first entry:
    the threshold of 1000 bytes is exceeded; the next batch flushes 500
    bytes with its first entry. *)
Definition X1_writer : wal_writer := set_disk S2_writer [2000; 0; 0; 500].

Definition X1_out : wal_writer * wal_msg :=
  match wal_write_to_disk 1%nat 7 X1_writer S2_msg with
  | Some p => p
  | None => (X1_writer, S2_msg)
  end.

(** A second batch after that one. *)
Definition X1_out2 : wal_writer * wal_msg :=
  match wal_write_to_disk 1%nat 8 (fst X1_out) S3_msg with
  | Some p => p
  | None => X1_out
  end.

(** A checkpoint begun on the S2 writer (its open segment has rows, so
    it is closed), then the S2 batch: the next segment is opened, 30 bytes
    are preallocated for it, and 2000 bytes are flushed. *)
Definition X2_writer : wal_writer := set_disk S2_writer [0; 0; 2000; 0; 0].

Definition X2_begin : wal_writer * result (vclock * Z) :=
  wal_begin_checkpoint_f X2_writer.

Definition X2_out : wal_writer * wal_msg :=
  match wal_write_to_disk 1%nat 7 (fst X2_begin) S2_msg with
  | Some p => p
  | None => (fst X2_begin, S2_msg)
  end.

(* ------------------------------------------------------------------ *)
(** ** The relay status message (relay.cc) *)

(** [relay->status_msg.msg.route]: NULL, the route [{tx_status_update}]
    set by the relay loop, or the route [{relay_status_update}] set by
    [tx_status_update].  [cmsg_init] points the message's hop at the
    first hop of its route; each route here has one hop. *)
Inductive status_route := RouteNull | RouteTxStatusUpdate | RouteRelayStatusUpdate.

(** The one [relay->status_msg] and where it is. *)
Record relay_status := mk_status {
  (** [relay->status_msg.msg.route] *)
  msg_route : status_route;
  (** [relay->status_msg.vclock] *)
  status_vclock : vclock;
  (** references to [status_msg] queued in [relay->tx_pipe] *)
  tx_pipe_queued : nat;
  (** references to [status_msg] queued in [relay->relay_pipe] *)
  relay_pipe_queued : nat;
  (** [status_msg.vclock] at every [cpipe_push] to [relay->tx_pipe], in
      order *)
  tx_pushes : list vclock;
  (** [relay->tx.vclock] *)
  tx_vclock : vclock;
  (** every [wal_relay_status_update(id, vclock)] call by
      [tx_status_update], in order *)
  wal_relay_status : list (nat * vclock)
}.

(** The tail of the [relay_subscribe_f] loop, after [cbus_process] and
    the heartbeat check; [send_vclock] is [r->vclock] or
    [relay->recv_vclock] by the replica version. *)
Definition relay_status_loop_tail (s : relay_status) (send_vclock : vclock)
  : relay_status :=
  match msg_route s with
  | RouteNull =>
      if vclock_sum (status_vclock s) =? vclock_sum send_vclock then s
      else mk_status RouteTxStatusUpdate send_vclock (S (tx_pipe_queued s))
             (relay_pipe_queued s) (tx_pushes s ++ [send_vclock]) (tx_vclock s)
             (wal_relay_status s)
  | _ => s
  end.

(** [tx_status_update] for the replica [id] ([anon] is
    [relay->replica->anon]); the message is pushed back to
    [relay->relay_pipe]. *)
Definition tx_status_update (anon : bool) (id : nat) (s : relay_status)
  : relay_status :=
  mk_status RouteRelayStatusUpdate (status_vclock s) (tx_pipe_queued s)
    (S (relay_pipe_queued s)) (tx_pushes s) (status_vclock s)
    (if anon then wal_relay_status s
     else wal_relay_status s ++ [(id, status_vclock s)]).

(** [relay_status_update] *)
Definition relay_status_update (s : relay_status) : relay_status :=
  mk_status RouteNull (status_vclock s) (tx_pipe_queued s) (relay_pipe_queued s)
    (tx_pushes s) (tx_vclock s) (wal_relay_status s).

(** Delivery of [status_msg] by [cbus_process]: the handler of its hop;
    [None] when it has no route. *)
Definition status_msg_deliver (anon : bool) (id : nat) (s : relay_status)
  : option relay_status :=
  match msg_route s with
  | RouteNull => None
  | RouteTxStatusUpdate => Some (tx_status_update anon id s)
  | RouteRelayStatusUpdate => Some (relay_status_update s)
  end.

(** What happens to the status message: a pass of the relay loop tail
    (with the replica-version choice of the vclock to report), TX
    processing [tx_pipe], the relay processing [relay_pipe]. *)
Inductive status_event :=
  | EvRelayLoop (old_version : bool) (r_vclock recv_vclock : vclock)
  | EvTxProcess
  | EvRelayProcess.

Definition relay_status_event (anon : bool) (id : nat) (s : relay_status)
    (ev : status_event) : option relay_status :=
  match ev with
  | EvRelayLoop old_version r_vclock recv_vclock =>
      Some (relay_status_loop_tail s
              (if old_version then r_vclock else recv_vclock))
  | EvTxProcess =>
      match tx_pipe_queued s with
      | O => Some s
      | S n =>
          status_msg_deliver anon id
            (mk_status (msg_route s) (status_vclock s) n (relay_pipe_queued s)
               (tx_pushes s) (tx_vclock s) (wal_relay_status s))
      end
  | EvRelayProcess =>
      match relay_pipe_queued s with
      | O => Some s
      | S n =>
          status_msg_deliver anon id
            (mk_status (msg_route s) (status_vclock s) (tx_pipe_queued s) n
               (tx_pushes s) (tx_vclock s) (wal_relay_status s))
      end
  end.

Fixpoint relay_status_run (anon : bool) (id : nat) (s : relay_status)
    (evs : list status_event) : option relay_status :=
  match evs with
  | [] => Some s
  | ev :: rest =>
      let* s1 := relay_status_event anon id s ev in
      relay_status_run anon id s1 rest
  end.

(** The pushed vclocks TX has processed: all of them but the one in
    [tx_pipe]. *)
Definition status_delivered (s : relay_status) : list vclock :=
  match msg_route s with
  | RouteTxStatusUpdate => removelast (tx_pushes s)
  | _ => tx_pushes s
  end.

(** Each vclock of [l] has another signature than the one before it,
    the first one than [prev]. *)
Fixpoint sums_change (prev : vclock) (l : list vclock) : Prop :=
  match l with
  | [] => True
  | v :: rest => vclock_sum prev <> vclock_sum v /\ sums_change v rest
  end.

(** What stays true of the status message, for a replica [id] ([anon]
    for an anonymous one), from a state whose status vclock was [v0] and
    whose [relay->tx.vclock] was [tv0], with nothing pushed. *)
Definition status_inv (anon : bool) (id : nat) (v0 tv0 : vclock)
    (s : relay_status) : Prop :=
  match msg_route s with
  | RouteNull => tx_pipe_queued s = 0%nat /\ relay_pipe_queued s = 0%nat
  | RouteTxStatusUpdate =>
      tx_pipe_queued s = 1%nat /\ relay_pipe_queued s = 0%nat /\
      tx_pushes s = status_delivered s ++ [status_vclock s]
  | RouteRelayStatusUpdate => tx_pipe_queued s = 0%nat /\ relay_pipe_queued s = 1%nat
  end /\
  wal_relay_status s =
    (if anon then [] else map (fun v => (id, v)) (status_delivered s)) /\
  sums_change v0 (tx_pushes s) /\
  status_vclock s = last (tx_pushes s) v0 /\
  tx_vclock s = last (status_delivered s) tv0.

(** The status message of a relay just created ([calloc]). *)
Definition RS_status : relay_status :=
  mk_status RouteNull vclock_create 0 0 [] vclock_create [].

Definition RS_events : list status_event :=
  [EvRelayLoop false vclock_create (vc1 3); EvRelayLoop false vclock_create (vc1 4);
   EvTxProcess; EvRelayLoop false vclock_create (vc1 5); EvRelayProcess;
   EvRelayLoop false vclock_create (vc1 5); EvRelayLoop false vclock_create (vc1 6)].

(* ================================================================== *)
(** * Properties *)

Lemma vclock_set_same (v : vclock) id x : vclock_set v id x id = x.
Proof. unfold vclock_set. rewrite Nat.eqb_refl. reflexivity. Qed.

Lemma vclock_set_other (v : vclock) id j x :
  j <> id -> vclock_set v id x j = v j.
Proof. intros H. unfold vclock_set. apply Nat.eqb_neq in H. now rewrite H. Qed.

(** ** The relay row filter *)

(** C7: at the relay edge a local row without replica id is dropped, a
    local row with one is sent as a NOP of the default group with no body
    and its lsn and replica id kept; a subscribe session (bound replica
    [id]) drops a row of replica [id] unless its lsn is at most
    [local_vclock_at_subscribe[id]], and a final-join session (no bound
    replica) sends every row that the local rule keeps.  A dropped row
    returns 0 and touches nothing; a sent row carries the relay's [sync],
    and is written with return code 0 unless [coio_write_xrow] fails, in
    which case nothing is written and the return code is -1. *)
Theorem relay_send_row_filter (r : relay) (p : xrow_header) :
  let forwarded := match relay_replica r with
                   | None => True
                   | Some id => replica_id p <> id \/
                       lsn p <= vclock_get (local_vclock_at_subscribe r) id
                   end in
  let written q := if relay_io_ok r then relay_out r ++ [q] else relay_out r in
  let rc := if relay_io_ok r then 0 else -1 in
  (group_id p = GROUP_LOCAL -> replica_id p = REPLICA_ID_NIL ->
     relay_send_row r p = (r, 0)) /\
  (group_id p = GROUP_LOCAL -> replica_id p <> REPLICA_ID_NIL -> forwarded ->
     relay_out (fst (relay_send_row r p)) =
       written (mk_row (replica_id p) (lsn p) (tsn p) (is_commit p) (tm p)
                  GROUP_DEFAULT IPROTO_NOP 0 (relay_sync r)) /\
     snd (relay_send_row r p) = rc) /\
  (group_id p <> GROUP_LOCAL -> forwarded ->
     relay_out (fst (relay_send_row r p)) =
       written (mk_row (replica_id p) (lsn p) (tsn p) (is_commit p) (tm p)
                  (group_id p) (type p) (bodycnt p) (relay_sync r)) /\
     snd (relay_send_row r p) = rc) /\
  (~ forwarded -> relay_send_row r p = (r, 0)).
Proof.
  intros forwarded written rc. subst forwarded written rc.
  unfold relay_send_row, relay_send, relay_io_ok.
  destruct (relay_io r) as [| c rest];
  [| destruct (Z.ltb_spec c 0) as [Hc | Hc];
     [rewrite (proj2 (Z.leb_gt 0 c) Hc) | rewrite (proj2 (Z.leb_le 0 c) Hc)]];
  destruct (Nat.eqb_spec (group_id p) GROUP_LOCAL) as [Hl | Hl];
  destruct (Nat.eqb_spec (replica_id p) REPLICA_ID_NIL) as [Hn | Hn];
  cbn [replica_id lsn];
  destruct (relay_replica r) as [id |];
  try destruct (Nat.eqb_spec (replica_id p) id) as [Hid | Hid];
  try destruct (Z.leb_spec (lsn p) (vclock_get (local_vclock_at_subscribe r) (replica_id p)))
    as [Hle | Hle];
  cbn [negb orb fst snd relay_out]; repeat split; intros; subst;
  solve [ reflexivity | congruence | lia | tauto
        | match goal with H : _ \/ _ |- _ => destruct H; [congruence | lia] end ].
Qed.

(** ** What the writer helpers leave alone *)

Lemma wal_opt_rotate_vclock (w : wal_writer) :
  w_vclock (fst (wal_opt_rotate w)) = w_vclock w.
Proof.
  unfold wal_opt_rotate, disk_call.
  destruct (xlog_open (current_wal w) && (wal_max_size w <=? offset (current_wal w)));
  cbn; [destruct (disk w) as [| rc rest] | destruct (xlog_open (current_wal w)) ];
  cbn; try reflexivity;
  try (destruct (negb (rc =? 0)); cbn; try reflexivity;
       destruct (gc_wal_vclock _); reflexivity);
  try (destruct (disk w) as [| rc rest]; cbn;
       [destruct (gc_wal_vclock _); reflexivity
       | destruct (negb (rc =? 0)); cbn; try reflexivity;
         destruct (gc_wal_vclock _); reflexivity]).
Qed.

Lemma wal_fallocate_retry_vclock fuel (w : wal_writer) len gc_lsn nt w' rc nt' :
  wal_fallocate_retry fuel w len gc_lsn nt = Some (w', rc, nt') ->
  w_vclock w' = w_vclock w.
Proof.
  revert w nt. induction fuel as [| fuel IH]; intros w nt H; cbn in H.
  - congruence.
  - destruct (len <=? allocated (current_wal w)); [congruence |].
    unfold disk_call in H.
    destruct (disk w) as [| e rest] eqn:Hd; cbn in H.
    + inversion H; reflexivity.
    + destruct (e =? 0); [inversion H; reflexivity |].
      destruct (negb (e =? ENOSPC)); [inversion H; reflexivity |].
      destruct (negb (xdir_has_garbage (wal_dir w) gc_lsn)); [inversion H; reflexivity |].
      destruct (second_vclock _) eqn:Hs; cbn in H; [discriminate | |];
      [ destruct (vclock_compare _ v <? 0) | destruct (vclock_compare _ _ <? 0)];
      apply IH in H; rewrite H; reflexivity.
Qed.

Lemma wal_gc_advance_vclock (w : wal_writer) :
  w_vclock (wal_gc_advance w) = w_vclock w.
Proof.
  unfold wal_gc_advance, malloc_call. destruct (alloc w) as [| [|] rest]; reflexivity.
Qed.

Lemma wal_fallocate_vclock (w : wal_writer) len w' rc :
  wal_fallocate w len = Some (w', rc) -> w_vclock w' = w_vclock w.
Proof.
  unfold wal_fallocate.
  destruct (wal_fallocate_retry _ _ _ _ _) as [[[w1 rc1] nt] |] eqn:H;
    [| discriminate].
  intros E; inversion E; subst.
  apply wal_fallocate_retry_vclock in H.
  destruct nt; cbn; [rewrite wal_gc_advance_vclock |]; exact H.
Qed.

Lemma tx_schedule_queue_effect (tx : tx_state) (q : list journal_entry) :
  tx_schedule_queue tx q =
  mk_tx (tx_rollback tx) (replicaset_vclock tx) (wal_pipe_input tx)
    (completions tx ++
     map (fun e => (entry_id e, res e, replicaset_vclock tx)) q)
    (wal_pipe_n_input tx) (wal_pipe_output tx) (msg_pool tx).
Proof.
  unfold tx_schedule_queue. revert tx.
  induction q as [| e q IH]; intros tx; cbn.
  - rewrite app_nil_r. destruct tx; reflexivity.
  - rewrite IH. cbn. rewrite <- app_assoc. reflexivity.
Qed.

(** C10: the batch message going back to TX carries the writer vclock as
    it is when the batch is done, and [tx_schedule_commit] installs it as
    the replicaset vclock before the first completion, also for a batch
    whose entries all went to the rollback list. *)
Theorem wal_batch_returns_writer_vclock (instance_id : nat) (ev_now : Z)
    (w : wal_writer) (m : wal_msg) (w' : wal_writer) (m' : wal_msg)
    (tx : tx_state) :
  wal_write_to_disk instance_id ev_now w m = Some (w', m') ->
  msg_vclock m' = w_vclock w' /\
  replicaset_vclock (tx_schedule_commit tx m') = w_vclock w' /\
  completions (tx_schedule_commit tx m') =
    completions tx ++
    map (fun e => (entry_id e, res e, w_vclock w')) (commit m') /\
  tx_rollback (tx_schedule_commit tx m') = tx_rollback tx ++ rollback m'.
Proof.
  intros H.
  assert (Hv : msg_vclock m' = w_vclock w').
  { unfold wal_write_to_disk in H.
    destruct (in_rollback w); [inversion H; reflexivity |].
    destruct (wal_opt_rotate w) as [w1 ok].
    destruct (negb ok); [inversion H; reflexivity |].
    destruct (wal_fallocate w1 (approx_len m)) as [[w2 frc] |]; [| discriminate].
    destruct (negb (frc =? 0)); [inversion H; reflexivity |].
    destruct (wal_write_to_disk_loop _ _ _ _ _ _ _ _) as [[[w3 cl] rl] |];
      [| discriminate].
    destruct rl; inversion H; reflexivity. }
  unfold tx_schedule_commit. rewrite tx_schedule_queue_effect. cbn.
  rewrite Hv. repeat split.
  destruct (rollback m'); cbn; [rewrite app_nil_r |]; reflexivity.
Qed.

(** ** LSN assignment *)

Lemma vclock_le_refl (v : vclock) : vclock_le v v.
Proof. intros id; lia. Qed.

Lemma vclock_le_trans (a b c : vclock) :
  vclock_le a b -> vclock_le b c -> vclock_le a c.
Proof. intros H1 H2 id. specialize (H1 id). specialize (H2 id). lia. Qed.

Lemma fold_sum_add (a b c : vclock) (l : list nat) (x y z : Z) :
  (forall id, a id + b id = c id) -> x + y = z ->
  fold_left (fun acc id => acc + a id) l x +
  fold_left (fun acc id => acc + b id) l y =
  fold_left (fun acc id => acc + c id) l z.
Proof.
  revert x y z. induction l as [| i l IH]; intros x y z H Hxyz; cbn; [exact Hxyz |].
  apply IH; [exact H |]. rewrite <- (H i). lia.
Qed.

(** The signature is additive. *)
Lemma vclock_sum_add (a b c : vclock) :
  (forall id, a id + b id = c id) -> vclock_sum a + vclock_sum b = vclock_sum c.
Proof. intros H. unfold vclock_sum. apply fold_sum_add; [exact H | reflexivity]. Qed.

Lemma map_pair_eq {A B C} (f : A -> B) (g : A -> C) (l : list A)
    (vs : list (B * C)) :
  map f l = map fst vs -> map g l = map snd vs ->
  map (fun x => (f x, g x)) l = vs.
Proof.
  revert vs. induction l as [| x l IH]; intros [| [b c] vs] H1 H2; cbn in *;
    try discriminate; [reflexivity |].
  injection H1 as -> H1. injection H2 as -> H2. f_equal. apply IH; assumption.
Qed.

(** The diff of section 4.3 only grows. *)
Lemma spec_assign_rows_le iid V d first rs vs d' :
  spec_assign_rows iid V d first rs = Some (vs, d') -> vclock_le d d'.
Proof.
  revert d first vs d'.
  induction rs as [| r rs IH]; intros d first vs d' H; cbn [spec_assign_rows] in H.
  - inversion H; subst. apply vclock_le_refl.
  - destruct (Nat.eqb (replica_id r) 0).
    + unfold vclock_inc in H.
      destruct (spec_assign_rows _ _ _ _ rs) as [[vs1 d1] |] eqn:E; [| discriminate].
      inversion H; subst. apply IH in E. refine (vclock_le_trans _ _ _ _ E).
      intros id. unfold vclock_set, vclock_get. cbv beta. destruct (Nat.eqb_spec id iid); [subst; lia | lia].
    + unfold vclock_follow in H.
      destruct (vclock_get d (replica_id r) <? lsn r - vclock_get V (replica_id r))
        eqn:Hlt; [| discriminate].
      destruct (spec_assign_rows _ _ _ _ rs) as [[vs1 d1] |] eqn:E; [| discriminate].
      inversion H; subst. apply IH in E. refine (vclock_le_trans _ _ _ _ E).
      intros id. apply Z.ltb_lt in Hlt. unfold vclock_set, vclock_get in *. cbv beta in *.
      destruct (Nat.eqb_spec id (replica_id r)); [subst; lia | lia].
Qed.

Lemma spec_assign_batch_le iid V d es vs d' :
  spec_assign_batch iid V d es = Some (vs, d') -> vclock_le d d'.
Proof.
  revert d vs d'.
  induction es as [| e es IH]; intros d vs d' H; cbn [spec_assign_batch] in H.
  - inversion H; subst. apply vclock_le_refl.
  - destruct (spec_assign_rows _ _ _ _ _) as [[vs1 d1] |] eqn:E1; [| discriminate].
    destruct (spec_assign_batch _ _ d1 es) as [[vs2 d2] |] eqn:E2; [| discriminate].
    inversion H; subst. apply spec_assign_rows_le in E1. apply IH in E2.
    exact (vclock_le_trans _ _ _ E1 E2).
Qed.

Lemma spec_assign_batch_app iid V d a b vs1 d1 vs2 d2 :
  spec_assign_batch iid V d a = Some (vs1, d1) ->
  spec_assign_batch iid V d1 b = Some (vs2, d2) ->
  spec_assign_batch iid V d (a ++ b) = Some (vs1 ++ vs2, d2).
Proof.
  revert d vs1 d1.
  induction a as [| e a IH]; intros d vs1 d1 H1 H2; cbn [spec_assign_batch app] in *.
  - inversion H1; subst. exact H2.
  - destruct (spec_assign_rows _ _ _ _ _) as [[vs d3] |]; [| discriminate].
    destruct (spec_assign_batch _ _ d3 a) as [[vs3 d4] |] eqn:E; [| discriminate].
    inversion H1; subst. rewrite (IH _ _ _ E H2). reflexivity.
Qed.

(** One entry: as long as the code's base plus diff is the prior vclock
    plus the diff of section 4.3 on every component, [wal_assign_lsn]
    succeeds exactly where section 4.3 does and keeps that relation; the
    rows match when the first local row gets a non-zero lsn ([tsn0 = 0]
    stands for "no local row yet"). *)
Lemma wal_assign_lsn_rows_spec iid now V ds dc base tsn0 first rs rs' dc' :
  wal_assign_lsn_rows iid now dc base tsn0 rs = Some (rs', dc') ->
  (forall id, base id + dc id = V id + ds id) ->
  exists vs ds', spec_assign_rows iid V ds first rs = Some (vs, ds') /\
    (forall id, base id + dc' id = V id + ds' id) /\
    (0 <= base iid + dc iid ->
     (first = None /\ tsn0 = 0 \/ first = Some tsn0 /\ tsn0 <> 0) ->
     map row_view rs' = vs).
Proof.
  revert dc ds tsn0 first rs' dc'.
  induction rs as [| r rs IH]; intros dc ds tsn0 first rs' dc' H Hinv;
    cbn [wal_assign_lsn_rows spec_assign_rows] in H |- *.
  - inversion H; subst. exists [], ds. split; [reflexivity |].
    split; [exact Hinv | reflexivity].
  - destruct (Nat.eqb_spec (replica_id r) 0) as [Hl | Hl].
    + unfold vclock_inc, vclock_get in H |- *.
      set (t := if tsn0 =? 0 then dc iid + 1 + base iid else tsn0) in H.
      destruct (wal_assign_lsn_rows _ _ _ _ _ rs) as [[rs1 d1] |] eqn:E;
        [| discriminate].
      inversion H; subst rs' dc'. clear H.
      set (ts := match first with Some t => t | None => V iid + (ds iid + 1) end).
      destruct (IH _ (vclock_set ds iid (ds iid + 1)) t (Some ts) _ _ E)
        as (vs & ds' & S1 & S2 & S3).
      { intros id. unfold vclock_set. cbv beta.
        destruct (Nat.eqb_spec id iid); [subst; specialize (Hinv iid); lia | apply Hinv]. }
      rewrite S1. eexists; exists ds'. split; [reflexivity |]. split; [exact S2 |].
      intros Hpos Ht. specialize (Hinv iid).
      assert (Htt : ts = t).
      { unfold ts, t. destruct Ht as [[-> ->] | [-> Hne]]; cbn; [lia |].
        rewrite (proj2 (Z.eqb_neq _ _) Hne). reflexivity. }
      cbn [map]. rewrite S3.
      * unfold row_view. cbn [replica_id lsn tsn is_commit]. rewrite Htt.
        replace (dc iid + 1 + base iid) with (V iid + (ds iid + 1)) by lia.
        reflexivity.
      * rewrite vclock_set_same. lia.
      * right. split; [rewrite Htt; reflexivity |].
        unfold t. destruct Ht as [[-> ->] | [-> Hne]]; cbn; [lia |].
        rewrite (proj2 (Z.eqb_neq _ _) Hne). exact Hne.
    + unfold vclock_follow in H |- *.
      assert (Heq : (vclock_get dc (replica_id r) <? lsn r - vclock_get base (replica_id r)) =
                    (vclock_get ds (replica_id r) <? lsn r - vclock_get V (replica_id r))).
      { unfold vclock_get. specialize (Hinv (replica_id r)).
        destruct (Z.ltb_spec (dc (replica_id r)) (lsn r - base (replica_id r)));
        destruct (Z.ltb_spec (ds (replica_id r)) (lsn r - V (replica_id r))); lia. }
      rewrite <- Heq.
      destruct (vclock_get dc (replica_id r) <? lsn r - vclock_get base (replica_id r))
        eqn:Hlt; [| discriminate].
      destruct (wal_assign_lsn_rows _ _ _ _ _ rs) as [[rs1 d1] |] eqn:E;
        [| discriminate].
      inversion H; subst rs' dc'. clear H.
      destruct (IH _ (vclock_set ds (replica_id r) (lsn r - vclock_get V (replica_id r)))
                  tsn0 first _ _ E) as (vs & ds' & S1 & S2 & S3).
      { intros id. unfold vclock_set, vclock_get. cbv beta.
        destruct (Nat.eqb_spec id (replica_id r)); [subst; lia | apply Hinv]. }
      rewrite S1. eexists; exists ds'. split; [reflexivity |]. split; [exact S2 |].
      intros Hpos Ht. cbn [map]. rewrite S3; [reflexivity | | exact Ht].
      apply Z.ltb_lt in Hlt. unfold vclock_set, vclock_get in *. cbv beta in *.
      destruct (Nat.eqb_spec iid (replica_id r)); [subst; lia | exact Hpos].
Qed.

Lemma xlog_account_vclock (w : wal_writer) rc :
  w_vclock (xlog_account w rc) = w_vclock w.
Proof. unfold xlog_account. destruct (0 <? rc); reflexivity. Qed.

Lemma wal_encode_write_entry_vclock (w : wal_writer) e :
  w_vclock (fst (wal_encode_write_entry w e)) = w_vclock w.
Proof.
  unfold wal_encode_write_entry. destruct (disk_call w) as [rc w1] eqn:E. cbn [fst].
  rewrite xlog_account_vclock.
  unfold disk_call in E. destruct (disk w); inversion E; reflexivity.
Qed.

Lemma xlog_flush_vclock (w : wal_writer) :
  w_vclock (fst (xlog_flush w)) = w_vclock w.
Proof.
  unfold xlog_flush. destruct (disk_call w) as [rc w1] eqn:E. cbn [fst].
  rewrite xlog_account_vclock.
  unfold disk_call in E. destruct (disk w); inversion E; reflexivity.
Qed.

(** One portion of [wal_write_xlog_batch]: a prefix [done] of the input
    is numbered as section 4.3 numbers it, continuing the batch diff
    [ds], each entry getting the signature of section 4.3 as its
    result; the writer vclock is left alone. *)
Lemma wal_write_xlog_batch_loop_spec iid now V ds (w : wal_writer) input output d
    w1 rest output1 d1 rc :
  wal_write_xlog_batch_loop iid now w input output d =
    Some (w1, rest, output1, d1, rc) ->
  (forall id, w_vclock w id + d id = V id + ds id) ->
  exists done outs vs ds1,
    input = done ++ rest /\ output1 = output ++ outs /\
    map entry_id outs = map entry_id done /\
    spec_assign_batch iid V ds done = Some (vs, ds1) /\
    map res outs = map snd vs /\
    (0 <= V iid + ds iid ->
     map (fun e => map row_view (rows e)) outs = map fst vs) /\
    w_vclock w1 = w_vclock w /\
    (forall id, w_vclock w id + d1 id = V id + ds1 id) /\
    (input <> [] -> done <> []).
Proof.
  revert w output d ds.
  induction input as [| e input IH]; intros w output d ds H Hinv;
    cbn [wal_write_xlog_batch_loop] in H.
  - inversion H; subst. exists [], [], [], ds. rewrite !app_nil_r.
    repeat split; auto.
  - unfold wal_assign_lsn in H.
    destruct (wal_assign_lsn_rows _ _ _ _ _ (rows e)) as [[rs diff1] |] eqn:Ha;
      [| discriminate].
    destruct (wal_assign_lsn_rows_spec _ _ V ds _ _ _ None _ _ _ Ha Hinv)
      as (vs1 & ds1 & A1 & A2 & A3).
    pose proof (spec_assign_rows_le _ _ _ _ _ _ _ A1) as Hle.
    set (entry1 := mk_entry (entry_id e) rs
                     (vclock_sum diff1 + vclock_sum (w_vclock w))
                     (entry_approx_len e)) in H.
    set (sig := vclock_sum (fst (vclock_merge V ds1))).
    assert (Hres : res entry1 = sig).
    { unfold entry1, sig, vclock_merge. cbn [res fst]. apply vclock_sum_add.
      intros id. specialize (A2 id). lia. }
    assert (Hview : 0 <= V iid + ds iid -> map row_view (rows entry1) = vs1).
    { intros Hp. apply A3; [rewrite Hinv; exact Hp | left; auto]. }
    pose proof (wal_encode_write_entry_vclock w entry1) as Hv.
    destruct (wal_encode_write_entry w entry1) as [w' rc'] eqn:Henc.
    cbn [fst] in Hv.
    assert (Hone : Some (w', input, output ++ [entry1], diff1, rc') =
                   Some (w1, rest, output1, d1, rc) ->
       exists done outs vs ds2,
         e :: input = done ++ rest /\ output1 = output ++ outs /\
         map entry_id outs = map entry_id done /\
         spec_assign_batch iid V ds done = Some (vs, ds2) /\
         map res outs = map snd vs /\
         (0 <= V iid + ds iid ->
          map (fun e0 => map row_view (rows e0)) outs = map fst vs) /\
         w_vclock w1 = w_vclock w /\
         (forall id, w_vclock w id + d1 id = V id + ds2 id) /\
         (e :: input <> [] -> done <> [])).
    { intros E. inversion E; subst. exists [e], [entry1], [(vs1, sig)], ds1.
      split; [reflexivity |]. split; [reflexivity |]. split; [reflexivity |].
      split; [cbn [spec_assign_batch]; rewrite A1; reflexivity |].
      split; [cbn [map snd]; rewrite Hres; reflexivity |].
      split; [intros Hp; cbn [map fst]; rewrite (Hview Hp); reflexivity |].
      split; [exact Hv |]. split; [exact A2 | discriminate]. }
    destruct input as [| e2 input2]; [exact (Hone H) |].
    destruct (rc' =? 0); [| exact (Hone H)].
    apply IH with (ds := ds1) in H.
    2: { intros id. rewrite Hv. apply A2. }
    destruct H as (done & outs & vss & ds2 & D1 & D2 & D3 & D4 & D5 & D6 & D7 & D8 & D9).
    rewrite Hv in D7, D8.
    exists (e :: done), (entry1 :: outs), ((vs1, sig) :: vss), ds2.
    split; [rewrite D1; reflexivity |].
    split; [rewrite D2, <- app_assoc; reflexivity |].
    split; [cbn [map]; rewrite D3; reflexivity |].
    split; [cbn [spec_assign_batch]; rewrite A1, D4; reflexivity |].
    split; [cbn [map snd]; rewrite Hres, D5; reflexivity |].
    split.
    { intros Hp. cbn [map fst]. rewrite (Hview Hp), D6; [reflexivity |].
      specialize (Hle iid). lia. }
    split; [exact D7 |]. split; [exact D8 | discriminate].
Qed.

Lemma wal_write_xlog_batch_spec iid now V ds (w : wal_writer) input output d
    w1 rest output1 d1 rc :
  wal_write_xlog_batch iid now w input output d =
    Some (w1, rest, output1, d1, rc) ->
  (forall id, w_vclock w id + d id = V id + ds id) ->
  exists done outs vs ds1,
    input = done ++ rest /\ output1 = output ++ outs /\
    map entry_id outs = map entry_id done /\
    spec_assign_batch iid V ds done = Some (vs, ds1) /\
    map res outs = map snd vs /\
    (0 <= V iid + ds iid ->
     map (fun e => map row_view (rows e)) outs = map fst vs) /\
    w_vclock w1 = w_vclock w /\
    (forall id, w_vclock w id + d1 id = V id + ds1 id) /\
    (input <> [] -> done <> []).
Proof.
  unfold wal_write_xlog_batch. intros H Hinv.
  destruct (wal_write_xlog_batch_loop _ _ _ _ _ _) as [[[[[wa ra] oa] da] rca] |] eqn:E;
    [| discriminate].
  destruct (wal_write_xlog_batch_loop_spec _ _ V ds _ _ _ _ _ _ _ _ _ E Hinv)
    as (done & outs & vs & ds1 & B).
  pose proof (xlog_flush_vclock wa) as Hfl.
  destruct (rca =? 0).
  - destruct (xlog_flush wa) as [wb rcb]. cbn [fst] in Hfl.
    inversion H; subst. exists done, outs, vs, ds1. rewrite Hfl. exact B.
  - inversion H; subst. exists done, outs, vs, ds1. exact B.
Qed.

Lemma wal_write_to_disk_loop_nil iid now fuel (w : wal_writer) cl rl d w' cl' rl' :
  wal_write_to_disk_loop iid now fuel w [] cl rl d = Some (w', cl', rl') ->
  w' = w /\ cl' = cl /\ rl' = rl.
Proof.
  destruct fuel; cbn; intros H; inversion H; subst;
    rewrite ?app_nil_r; auto.
Qed.

(** The portion loop of [wal_write_to_disk]: the input is split into a
    committed prefix [done], numbered by section 4.3 with one diff from
    [ds] on, and a rest; the writer vclock ends as [V] plus the diff of
    [done] only.  Either nothing is left, or the first portion written
    from the rest failed: its entries got their tentative numbers
    (continuing the diff) and go to the rollback list with the rest. *)
Lemma wal_write_to_disk_loop_committed iid now V fuel (w : wal_writer) input
    cl rl ds w' cl' rl' :
  wal_write_to_disk_loop iid now fuel w input cl rl vclock_create =
    Some (w', cl', rl') ->
  (forall id, w_vclock w id = V id + ds id) ->
  (length input < fuel)%nat ->
  exists done rest outs vs ds',
    input = done ++ rest /\ cl' = cl ++ outs /\
    map entry_id outs = map entry_id done /\
    spec_assign_batch iid V ds done = Some (vs, ds') /\
    map res outs = map snd vs /\
    (0 <= V iid + ds iid ->
     map (fun e => map row_view (rows e)) outs = map fst vs) /\
    (forall id, w_vclock w' id = V id + ds' id) /\
    (done = [] -> w_vclock w' = w_vclock w) /\
    ((rest = [] /\ rl' = rl) \/
     exists wf fdone fouts frest df rc fvs dsf,
       w_vclock wf = w_vclock w' /\
       wal_write_xlog_batch iid now wf rest [] vclock_create =
         Some (w', frest, fouts, df, rc) /\
       rc < 0 /\ rest = fdone ++ frest /\ fdone <> [] /\
       map entry_id fouts = map entry_id fdone /\
       spec_assign_batch iid V ds' fdone = Some (fvs, dsf) /\
       (0 <= V iid + ds iid ->
        map (fun e => map row_view (rows e)) fouts = map fst fvs) /\
       rl' = rl ++ fouts ++ frest).
Proof.
  revert w input cl rl ds.
  induction fuel as [| fuel IH]; intros w input cl rl ds H Hinv Hlen;
    [cbn in Hlen; lia |].
  cbn [wal_write_to_disk_loop] in H.
  destruct input as [| e0 input0].
  { inversion H; subst. exists [], [], [], [], ds. rewrite !app_nil_r.
    split; [reflexivity |]. split; [reflexivity |]. split; [reflexivity |].
    split; [reflexivity |]. split; [reflexivity |]. split; [reflexivity |].
    split; [exact Hinv |]. split; [reflexivity |]. left; auto. }
  destruct (wal_write_xlog_batch _ _ _ _ _ _) as [[[[[w1 rest] out] d1] rc] |]
    eqn:Eb; [| discriminate].
  pose proof Eb as Es.
  apply (wal_write_xlog_batch_spec _ _ V ds) in Es.
  2: { intros id. unfold vclock_create. rewrite Hinv. lia. }
  destruct Es as (done & outs & vs & ds1 & B1 & B2 & B3 & B4 & B5 & B6 & B7 & B8 & B9).
  cbn [app] in B2. subst out.
  assert (Hdone : done <> []) by (apply B9; discriminate).
  pose proof (spec_assign_batch_le _ _ _ _ _ _ B4) as Hle.
  destruct (rc <? 0) eqn:Hrc.
  - apply wal_write_to_disk_loop_nil in H. destruct H as (-> & -> & ->).
    exists [], (e0 :: input0), [], [], ds. rewrite !app_nil_r.
    split; [reflexivity |]. split; [reflexivity |]. split; [reflexivity |].
    split; [reflexivity |]. split; [reflexivity |]. split; [reflexivity |].
    split; [intros id; rewrite B7; apply Hinv |].
    split; [intros _; exact B7 |].
    right. exists w, done, outs, rest, d1, rc, vs, ds1.
    split; [symmetry; exact B7 |]. split; [exact Eb |].
    split; [apply Z.ltb_lt; exact Hrc |].
    split; [exact B1 |]. split; [exact Hdone |]. split; [exact B3 |].
    split; [exact B4 |]. split; [exact B6 | reflexivity].
  - destruct (vclock_merge (w_vclock w1) d1) as [v d2] eqn:Em.
    unfold vclock_merge in Em. inversion Em; subst v d2. clear Em.
    apply IH with (ds := ds1) in H.
    2: { intros id. cbn. rewrite B7. apply B8. }
    2: { rewrite B1, length_app in Hlen. cbn [length] in Hlen.
         destruct done as [| x done]; [contradiction Hdone; reflexivity |].
         cbn [length] in Hlen. lia. }
    destruct H as (done2 & rest2 & outs2 & vs2 & ds2 & D1 & D2 & D3 & D4 & D5 & D6
                   & D7 & D8 & D9).
    exists (done ++ done2), rest2, (outs ++ outs2), (vs ++ vs2), ds2.
    split; [rewrite B1, D1, app_assoc; reflexivity |].
    split; [rewrite D2, app_assoc; reflexivity |].
    split; [rewrite !map_app, B3, D3; reflexivity |].
    split; [exact (spec_assign_batch_app _ _ _ _ _ _ _ _ _ B4 D4) |].
    split; [rewrite !map_app, B5, D5; reflexivity |].
    assert (Hp1 : 0 <= V iid + ds iid -> 0 <= V iid + ds1 iid)
      by (intros Hp; specialize (Hle iid); lia).
    split.
    { intros Hp. rewrite !map_app, (B6 Hp), (D6 (Hp1 Hp)). reflexivity. }
    split; [exact D7 |].
    split.
    { intros Hc. apply app_eq_nil in Hc. destruct Hc as [Hc _].
      contradiction (Hdone Hc). }
    destruct D9 as [D9 | (wf & fdone & fouts & frest & df & rc2 & fvs & dsf & F)].
    + left. exact D9.
    + right. exists wf, fdone, fouts, frest, df, rc2, fvs, dsf.
      destruct F as (F1 & F2 & F3 & F4 & F5 & F6 & F7 & F8 & F9).
      repeat (split; [eassumption |]).
      split; [intros Hp; exact (F8 (Hp1 Hp)) | exact F9].
Qed.

Lemma wal_writer_begin_rollback_vclock (w : wal_writer) :
  w_vclock (wal_writer_begin_rollback w) = w_vclock w.
Proof. reflexivity. Qed.

(** What [wal_write_to_disk] does with a batch: either it never reaches
    the disk (the writer in rollback, rotation or preallocation failed)
    and the whole batch goes to the rollback list; or the portion loop
    commits a prefix [done] of it, numbered by section 4.3 against the
    prior writer vclock, the writer vclock advancing by the diff of
    [done], and what is left is the failing portion, with its tentative
    numbers, and the entries after it, all rolled back. *)
Lemma wal_write_to_disk_committed iid now (w : wal_writer) m w' m' :
  wal_write_to_disk iid now w m = Some (w', m') ->
  msg_vclock m' = w_vclock w' /\
  ((commit m' = [] /\ rollback m' = rollback m ++ commit m /\
    w_vclock w' = w_vclock w /\ in_rollback w' = true) \/
   exists done rest vs d,
     commit m = done ++ rest /\
     map entry_id (commit m') = map entry_id done /\
     spec_assign_batch iid (w_vclock w) vclock_create done = Some (vs, d) /\
     map res (commit m') = map snd vs /\
     (0 <= w_vclock w iid ->
      map (fun e => map row_view (rows e)) (commit m') = map fst vs) /\
     (forall id, w_vclock w' id = w_vclock w id + d id) /\
     (done = [] -> w_vclock w' = w_vclock w) /\
     ((rest = [] /\
       rollback m' = map (fun e => entry_set_res e (-1)) (rollback m)) \/
      (in_rollback w' = true /\
       exists wf wf' fdone fouts frest df rc fvs dsf,
         w_vclock wf = w_vclock w' /\
         wal_write_xlog_batch iid now wf rest [] vclock_create =
           Some (wf', frest, fouts, df, rc) /\
         rc < 0 /\ rest = fdone ++ frest /\ fdone <> [] /\
         map entry_id fouts = map entry_id fdone /\
         spec_assign_batch iid (w_vclock w) d fdone = Some (fvs, dsf) /\
         (0 <= w_vclock w iid ->
          map (fun e => map row_view (rows e)) fouts = map fst fvs) /\
         rollback m' =
           map (fun e => entry_set_res e (-1)) (rollback m ++ fouts ++ frest)))).
Proof.
  unfold wal_write_to_disk. intros H.
  destruct (in_rollback w) eqn:Hin.
  { inversion H; subst. split; [reflexivity | left; auto]. }
  pose proof (wal_opt_rotate_vclock w) as Hrot.
  destruct (wal_opt_rotate w) as [w1 ok]. cbn [fst] in Hrot.
  destruct (negb ok).
  { inversion H; subst. split; [reflexivity | left; auto]. }
  destruct (wal_fallocate w1 (approx_len m)) as [[w2 frc] |] eqn:Ef;
    [| discriminate].
  apply wal_fallocate_vclock in Ef. rewrite Hrot in Ef.
  destruct (negb (frc =? 0)).
  { inversion H; subst. split; [reflexivity | left; auto]. }
  destruct (wal_write_to_disk_loop _ _ _ _ _ _ _ _) as [[[w3 cl] rl] |] eqn:El;
    [| discriminate].
  apply (wal_write_to_disk_loop_committed _ _ (w_vclock w) _ _ _ _ _ vclock_create)
    in El.
  2: { intros id. rewrite Ef. unfold vclock_create. lia. }
  2: { lia. }
  destruct El as (done & rest & outs & vs & d & L1 & L2 & L3 & L4 & L5 & L6 & L7
                  & L8 & L9).
  cbn [app] in L2. subst cl. rewrite Ef in L8.
  set (w4 := if negb (checkpoint_triggered w3) &&
               (checkpoint_threshold w3 <? checkpoint_wal_size w3)
             then let (ok, w3a) := malloc_call w3 in
                  if ok then set_checkpoint_triggered
                               (push_tx_prio w3a TxNotifyCheckpoint) true
                  else w3a
             else w3) in H.
  assert (Hv4 : w_vclock w4 = w_vclock w3).
  { subst w4. destruct (_ && _); [| reflexivity].
    unfold malloc_call. destruct (alloc w3) as [| [|] rest']; reflexivity. }
  unfold vclock_create in L6.
  assert (Hcom : forall w0, w_vclock w0 = w_vclock w3 ->
    (0 <= w_vclock w iid ->
     map (fun e => map row_view (rows e)) outs = map fst vs) /\
    (forall id, w_vclock w0 id = w_vclock w id + d id) /\
    (done = [] -> w_vclock w0 = w_vclock w)).
  { intros w0 Hw0. rewrite Hw0.
    split; [intros Hp; apply L6; lia |].
    split; [exact L7 | exact L8]. }
  destruct rl as [| e rl].
  - inversion H; subst w' m'. cbn [commit rollback msg_vclock].
    split; [reflexivity |]. right.
    destruct (Hcom w4 Hv4) as (C1 & C2 & C3).
    exists done, rest, vs, d.
    repeat (split; [eassumption |]).
    left. destruct L9 as [[-> Hr] | (wf & fdone & fouts & frest & df & rc & fvs & dsf & F)].
    + split; [reflexivity |]. rewrite <- Hr. reflexivity.
    + exfalso. destruct F as (_ & _ & _ & _ & F5 & F6 & _ & _ & F9).
      destruct fdone as [| x fdone]; [contradiction F5; reflexivity |].
      destruct fouts; [discriminate F6 |].
      destruct (rollback m); discriminate F9.
  - inversion H; subst w' m'. cbn [commit rollback msg_vclock].
    split; [reflexivity |]. right.
    destruct (Hcom (wal_writer_begin_rollback w4) Hv4) as (C1 & C2 & C3).
    exists done, rest, vs, d.
    repeat (split; [eassumption |]).
    destruct L9 as [[-> Hr] | (wf & fdone & fouts & frest & df & rc & fvs & dsf & F)].
    + left. split; [reflexivity |]. rewrite <- Hr. reflexivity.
    + right. split; [reflexivity |].
      destruct F as (F1 & F2 & F3 & F4 & F5 & F6 & F7 & F8 & F9).
      exists wf, w3, fdone, fouts, frest, df, rc, fvs, dsf.
      split; [rewrite F1; exact (eq_sym Hv4) |].
      split; [exact F2 |]. split; [exact F3 |]. split; [exact F4 |].
      split; [exact F5 |]. split; [exact F6 |]. split; [exact F7 |].
      split; [intros Hp; apply F8; unfold vclock_create; lia |].
      rewrite <- F9. reflexivity.
Qed.

(** C1: the LSN assignment of every batch written by the WAL thread is
    the one of section 4.3.  Against the prior writer vclock [V], the
    committed entries, a FIFO prefix of the batch (all of it when nothing
    is rolled back), are numbered with one diff in FIFO order: a local
    row gets [lsn := V[instance_id] + diff.inc(instance_id)], the instance
    id, the lsn of the first local row of its entry as tsn and the commit
    flag on the last row of its entry, a foreign row moves the diff by
    [follow]; each committed entry's result is the signature of [V]
    merged with the diff so far, and the writer vclock ends as [V] merged
    with the diff. *)
Theorem wal_write_to_disk_assigns_lsn (instance_id : nat) (ev_now : Z)
    (w : wal_writer) (m : wal_msg) (w' : wal_writer) (m' : wal_msg) :
  wal_write_to_disk instance_id ev_now w m = Some (w', m') ->
  0 <= w_vclock w instance_id ->
  exists done rest vs d,
    commit m = done ++ rest /\
    spec_assign_batch instance_id (w_vclock w) vclock_create done = Some (vs, d) /\
    map entry_id (commit m') = map entry_id done /\
    map entry_view (commit m') = vs /\
    (forall id, w_vclock w' id = w_vclock w id + d id) /\
    (rollback m' = [] -> done = commit m).
Proof.
  intros H Hpos. apply wal_write_to_disk_committed in H.
  destruct H as [_ [(Hc & Hr & Hv & _) |
                    (done & rest & vs & d & C1 & C2 & C3 & C4 & C5 & C6 & _ & C8)]].
  - exists [], (commit m), [], vclock_create.
    split; [reflexivity |]. split; [reflexivity |].
    rewrite Hc. split; [reflexivity |]. split; [reflexivity |].
    split; [intros id; rewrite Hv; unfold vclock_create; lia |].
    intros H0. rewrite H0 in Hr. symmetry in Hr. apply app_eq_nil in Hr.
    destruct Hr as [_ ->]. reflexivity.
  - exists done, rest, vs, d.
    split; [exact C1 |]. split; [exact C3 |]. split; [exact C2 |].
    split; [exact (map_pair_eq _ _ _ _ (C5 Hpos) C4) |].
    split; [exact C6 |].
    intros H0. destruct C8 as [[-> _] | (_ & F)].
    + rewrite C1, app_nil_r. reflexivity.
    + exfalso.
      destruct F as (wf & wf' & fdone & fouts & frest & df & rc & fvs & dsf & F).
      destruct F as (_ & _ & _ & _ & F5 & F6 & _ & _ & F9).
      destruct fdone as [| x fdone]; [contradiction F5; reflexivity |].
      destruct fouts; [discriminate F6 |].
      rewrite H0 in F9. destruct (rollback m); discriminate F9.
Qed.

Lemma wal_write_to_disk_assigns_lsn_witness :
  wal_write_to_disk 1%nat 7 S2_writer S2_msg = Some (fst S2_out, snd S2_out) /\
  0 <= w_vclock S2_writer 1%nat /\
  exists done rest vs d,
    commit S2_msg = done ++ rest /\
    spec_assign_batch 1%nat (w_vclock S2_writer) vclock_create done = Some (vs, d) /\
    map entry_view (commit (snd S2_out)) = vs.
Proof.
  assert (H1 : wal_write_to_disk 1%nat 7 S2_writer S2_msg =
               Some (fst S2_out, snd S2_out)) by (vm_compute; reflexivity).
  assert (H2 : 0 <= w_vclock S2_writer 1%nat) by (vm_compute; discriminate).
  destruct (wal_write_to_disk_assigns_lsn 1%nat 7 _ _ _ _ H1 H2)
    as (done & rest & vs & d & C1 & C2 & _ & C4 & _).
  split; [exact H1 |]. split; [exact H2 |].
  exists done, rest, vs, d. split; [exact C1 |]. split; [exact C2 | exact C4].
Defined.

(** Scenario S2 in numbers: A's row gets lsn 6; B's rows get 7 and 8,
    both with tsn 7 and the commit flag on the second; the results are
    the signatures 6 and 8 and the writer ends at [{1:8}]; section 4.3
    gives the same. *)
Example S2_lsns :
  map entry_view (commit (snd S2_out)) =
    [([(1%nat, 6, 6, true)], 6); ([(1%nat, 7, 7, false); (1%nat, 8, 7, true)], 8)] /\
  option_map fst
    (spec_assign_batch 1%nat (w_vclock S2_writer) vclock_create (commit S2_msg)) =
    Some (map entry_view (commit (snd S2_out))) /\
  w_vclock (fst S2_out) 1%nat = 8.
Proof. split; [| split]; vm_compute; reflexivity. Qed.







(** Scenario S3 as the code runs it: A, B and C are all rolled back with
    [res = -1], completed in the order C, B, A, and the writer vclock stays
    at [{1:5}]. *)
Example S3_cascading_rollback :
  commit (snd S3_out) = [] /\
  map (fun c => (fst (fst c), snd (fst c)))
    (completions (tx_schedule_rollback (tx_schedule_commit tx0 (snd S3_out)))) =
    [(3%nat, -1); (2%nat, -1); (1%nat, -1)] /\
  w_vclock (fst S3_out) = w_vclock S3_writer /\
  in_rollback (fst S3_out) = true.
Proof. split; [| split; [| split]]; vm_compute; reflexivity. Qed.


Lemma wal_batch_returns_writer_vclock_witness :
  wal_write_to_disk 1%nat 7 S3_writer S3_msg = Some (fst S3_out, snd S3_out) /\
  replicaset_vclock (tx_schedule_commit tx0 (snd S3_out)) = w_vclock (fst S3_out).
Proof.
  assert (H1 : wal_write_to_disk 1%nat 7 S3_writer S3_msg =
               Some (fst S3_out, snd S3_out)) by (vm_compute; reflexivity).
  destruct (wal_batch_returns_writer_vclock 1%nat 7 _ _ _ _ tx0 H1) as (_ & C2 & _).
  exact (conj H1 C2).
Defined.

Lemma cpipe_flush_cb_all (tx : tx_state) :
  wal_pipe_all (cpipe_flush_cb tx) = wal_pipe_all tx /\
  completions (cpipe_flush_cb tx) = completions tx.
Proof.
  unfold cpipe_flush_cb, wal_pipe_all.
  destruct (wal_pipe_n_input tx =? 0); [split; reflexivity |].
  cbn. rewrite app_nil_r. split; reflexivity.
Qed.

Lemma cpipe_flush_input_all (tx : tx_state) :
  wal_pipe_all (cpipe_flush_input tx) = wal_pipe_all tx /\
  completions (cpipe_flush_input tx) = completions tx.
Proof.
  unfold cpipe_flush_input.
  destruct (_ && _); [apply cpipe_flush_cb_all | split; reflexivity].
Qed.

Lemma cpipe_push_all (tx : tx_state) (m : pipe_msg) :
  wal_pipe_all (cpipe_push tx m) = wal_pipe_all tx ++ [m] /\
  completions (cpipe_push tx m) = completions tx.
Proof.
  unfold cpipe_push.
  destruct (IOV_MAX <=? _).
  - destruct (cpipe_flush_cb_all
      (set_wal_pipe tx (wal_pipe_input tx ++ [m]) (wal_pipe_n_input tx + 1)
         (wal_pipe_output tx))) as [E1 E2].
    rewrite E1, E2. unfold wal_pipe_all. cbn. rewrite app_assoc.
    split; reflexivity.
  - unfold wal_pipe_all. cbn. rewrite app_assoc. split; reflexivity.
Qed.

Lemma wal_write_queued_all (tx : tx_state) (e : journal_entry) :
  snd (wal_write_queued tx e) = 0 /\
  wal_pipe_all (fst (wal_write_queued tx e)) = wal_pipe_all tx /\
  completions (fst (wal_write_queued tx e)) = completions tx.
Proof.
  unfold wal_write_queued. cbn [fst snd].
  destruct (cpipe_flush_input_all
    (set_wal_pipe tx (wal_pipe_input tx)
       (wal_pipe_n_input tx + Z.of_nat (length (rows e)) * XROW_IOVMAX)
       (wal_pipe_output tx))) as [E1 E2].
  rewrite E1, E2. split; [reflexivity | split; reflexivity].
Qed.

Lemma pipe_entries_app (l1 l2 : list pipe_msg) :
  pipe_entries (l1 ++ l2) = pipe_entries l1 ++ pipe_entries l2.
Proof. unfold pipe_entries. apply flat_map_app. Qed.

(** C4 (as the code has it): with a WAL, a non-empty TX rollback queue or
    a set rollback route makes [wal_sync] fail with [ER_WAL_IO] and
    [wal_begin_checkpoint] fail with [ER_CHECKPOINT_ROLLBACK], the writer
    left as it was; [wal_write] fails at once (the entry completed with
    [res = -1], nothing queued) when the TX rollback queue is non-empty,
    and otherwise only when it has no batch for the entry (no open batch
    at the head of the pipe input and [mempool_alloc] returns NULL); with
    the queue empty and a batch at hand it returns 0, completes nothing
    and queues the entry in the WAL pipe; a WAL thread in rollback moves
    the whole batch to the rollback list. *)
Theorem wal_rollback_in_progress (w : wal_writer) (tx : tx_state)
    (e : journal_entry) :
  wal_mode w <> WAL_NONE ->
  tx_rollback tx <> [] \/ in_rollback w = true ->
  wal_sync w tx = RcErr ER_WAL_IO /\
  wal_begin_checkpoint w tx = (w, RcErr ER_CHECKPOINT_ROLLBACK) /\
  (tx_rollback tx <> [] ->
   wal_write tx e = (journal_entry_complete tx (entry_set_res e (-1)), -1)) /\
  (tx_rollback tx = [] -> wal_write_has_batch tx = true ->
   snd (wal_write tx e) = 0 /\
   completions (fst (wal_write tx e)) = completions tx /\
   exists l1 l2, pipe_entries (wal_pipe_all tx) = l1 ++ l2 /\
     pipe_entries (wal_pipe_all (fst (wal_write tx e))) = l1 ++ e :: l2) /\
  (tx_rollback tx = [] -> wal_write_has_batch tx = false ->
   snd (wal_write tx e) = -1 /\
   completions (fst (wal_write tx e)) =
     completions tx ++ [(entry_id e, -1, replicaset_vclock tx)] /\
   wal_pipe_input (fst (wal_write tx e)) = wal_pipe_input tx /\
   wal_pipe_output (fst (wal_write tx e)) = wal_pipe_output tx) /\
  (in_rollback w = true -> forall instance_id ev_now m,
   wal_write_to_disk instance_id ev_now w m =
     Some (w, mk_msg [] (rollback m ++ commit m) (approx_len m) (w_vclock w))).
Proof.
  intros Hmode Hrb.
  split; [| split; [| split; [| split; [| split]]]].
  - unfold wal_sync. destruct (wal_mode w); [contradiction | |];
      destruct (tx_rollback tx); try reflexivity;
      (destruct Hrb as [Hrb | Hrb]; [contradiction Hrb; reflexivity |]);
      unfold wal_sync_f; rewrite Hrb; reflexivity.
  - unfold wal_begin_checkpoint. destruct (wal_mode w); [contradiction | |];
      destruct (tx_rollback tx); try reflexivity;
      (destruct Hrb as [Hrb | Hrb]; [contradiction Hrb; reflexivity |]);
      unfold wal_begin_checkpoint_f; rewrite Hrb; reflexivity.
  - intros Hne. unfold wal_write. destruct (tx_rollback tx);
      [contradiction Hne | ]; reflexivity.
  - intros He Hb. unfold wal_write_has_batch in Hb. unfold wal_write. rewrite He.
    destruct (wal_pipe_input tx) as [| [b |] rest] eqn:Ein.
    + unfold mempool_alloc.
      destruct (msg_pool tx) as [| ok pool]; [| cbn in Hb; subst ok].
      * destruct (wal_write_queued_all
          (cpipe_push tx (PipeBatch (batch_add (mk_msg [] [] 0 vclock_create) e))) e)
          as (R & A & C).
        destruct (cpipe_push_all tx
          (PipeBatch (batch_add (mk_msg [] [] 0 vclock_create) e))) as [A2 C2].
        split; [exact R |]. split; [rewrite C; exact C2 |].
        exists (pipe_entries (wal_pipe_all tx)), [].
        rewrite A, A2, pipe_entries_app. split; [rewrite app_nil_r; reflexivity |].
        reflexivity.
      * set (tx1 := mk_tx (tx_rollback tx) (replicaset_vclock tx) (wal_pipe_input tx)
                      (completions tx) (wal_pipe_n_input tx) (wal_pipe_output tx) pool).
        destruct (wal_write_queued_all
          (cpipe_push tx1 (PipeBatch (batch_add (mk_msg [] [] 0 vclock_create) e))) e)
          as (R & A & C).
        destruct (cpipe_push_all tx1
          (PipeBatch (batch_add (mk_msg [] [] 0 vclock_create) e))) as [A2 C2].
        split; [exact R |]. split; [rewrite C; exact C2 |].
        exists (pipe_entries (wal_pipe_all tx)), [].
        rewrite A, A2, pipe_entries_app. split; [rewrite app_nil_r; reflexivity |].
        reflexivity.
    + set (tx1 := set_wal_pipe tx (PipeBatch (batch_add b e) :: rest)
                    (wal_pipe_n_input tx) (wal_pipe_output tx)).
      destruct (wal_write_queued_all tx1 e) as (R & A & C).
      split; [exact R |]. split; [exact C |].
      exists (pipe_entries (wal_pipe_output tx) ++ commit b), (pipe_entries rest).
      rewrite A. unfold wal_pipe_all. rewrite Ein. cbn.
      rewrite !pipe_entries_app. cbn.
      rewrite <- !app_assoc. split; reflexivity.
    + unfold mempool_alloc.
      destruct (msg_pool tx) as [| ok pool]; [| cbn in Hb; subst ok].
      * destruct (wal_write_queued_all
          (cpipe_push tx (PipeBatch (batch_add (mk_msg [] [] 0 vclock_create) e))) e)
          as (R & A & C).
        destruct (cpipe_push_all tx
          (PipeBatch (batch_add (mk_msg [] [] 0 vclock_create) e))) as [A2 C2].
        split; [exact R |]. split; [rewrite C; exact C2 |].
        exists (pipe_entries (wal_pipe_all tx)), [].
        rewrite A, A2, pipe_entries_app. split; [rewrite app_nil_r; reflexivity |].
        reflexivity.
      * set (tx1 := mk_tx (tx_rollback tx) (replicaset_vclock tx) (wal_pipe_input tx)
                      (completions tx) (wal_pipe_n_input tx) (wal_pipe_output tx) pool).
        destruct (wal_write_queued_all
          (cpipe_push tx1 (PipeBatch (batch_add (mk_msg [] [] 0 vclock_create) e))) e)
          as (R & A & C).
        destruct (cpipe_push_all tx1
          (PipeBatch (batch_add (mk_msg [] [] 0 vclock_create) e))) as [A2 C2].
        split; [exact R |]. split; [rewrite C; exact C2 |].
        exists (pipe_entries (wal_pipe_all tx)), [].
        rewrite A, A2, pipe_entries_app. split; [rewrite app_nil_r; reflexivity |].
        reflexivity.
  - intros He Hb. unfold wal_write_has_batch in Hb. unfold wal_write. rewrite He.
    destruct (wal_pipe_input tx) as [| [b |] rest] eqn:Ein;
      [| discriminate Hb |];
      (unfold mempool_alloc;
       destruct (msg_pool tx) as [| ok pool]; [discriminate Hb |];
       cbn in Hb; subst ok; cbn; rewrite Ein;
       split; [reflexivity | split; [reflexivity | split; reflexivity]]).
  - intros Hin instance_id ev_now m. unfold wal_write_to_disk. rewrite Hin.
    reflexivity.
Qed.

(** C9: with [wal_mode = none] a write is finished in TX: the rows get
    their LSNs from [wal_assign_lsn], the diff is merged into the writer
    vclock (the only field of the writer that changes: no disk call is
    made), TX copies that vclock and the entry completes at once with the
    new signature as its result. *)
Theorem wal_write_in_wal_mode_none_sync (instance_id : nat) (ev_now : Z)
    (w : wal_writer) (tx : tx_state) (e : journal_entry)
    (w' : wal_writer) (tx' : tx_state) (rc : Z) :
  wal_write_in_wal_mode_none instance_id ev_now w tx e = Some (w', tx', rc) ->
  rc = 0 /\
  exists rs diff,
    wal_assign_lsn instance_id ev_now vclock_create (w_vclock w) (rows e) =
      Some (rs, diff) /\
    w' = set_vclock w (fst (vclock_merge (w_vclock w) diff)) /\
    replicaset_vclock tx' = w_vclock w' /\
    tx_rollback tx' = tx_rollback tx /\
    wal_pipe_input tx' = wal_pipe_input tx /\
    completions tx' =
      completions tx ++ [(entry_id e, vclock_sum (w_vclock w'), w_vclock w')].
Proof.
  unfold wal_write_in_wal_mode_none.
  destruct (wal_assign_lsn _ _ _ _ _) as [[rs diff] |] eqn:Ea; [| discriminate].
  intros H. inversion H; subst. split; [reflexivity |].
  exists rs, diff. repeat split; reflexivity.
Qed.

Lemma wal_rollback_in_progress_witness :
  wal_mode C4_writer <> WAL_NONE /\ in_rollback C4_writer = true /\
  wal_sync C4_writer tx0 = RcErr ER_WAL_IO /\
  snd (wal_write tx0 S2_A) = 0.
Proof.
  assert (H1 : wal_mode C4_writer <> WAL_NONE) by discriminate.
  assert (H2 : in_rollback C4_writer = true) by reflexivity.
  destruct (wal_rollback_in_progress C4_writer tx0 S2_A H1 (or_intror H2))
    as (C1 & _ & _ & C4 & _).
  exact (conj H1 (conj H2 (conj C1 (proj1 (C4 eq_refl eq_refl))))).
Defined.

(** C4 does not hold as stated: the rollback route is set, yet [wal_write]
    returns 0, completes nothing and queues the entry; and [wal_sync]
    fails with the generic [ER_WAL_IO]. *)
Lemma wal_write_during_rollback_route :
  in_rollback C4_writer = true /\ tx_rollback tx0 = [] /\
  wal_write tx0 S2_A =
    (mk_tx [] vclock_create
       [PipeBatch (mk_msg [S2_A] [] (entry_approx_len S2_A) vclock_create)] []
       4 [] [],
     0) /\
  wal_sync C4_writer tx0 = RcErr ER_WAL_IO.
Proof. split; [| split; [| split]]; reflexivity. Qed.

Lemma wal_write_in_wal_mode_none_sync_witness :
  wal_write_in_wal_mode_none 1%nat 7 S2_writer tx0 S2_B =
    Some (fst (fst C9_out), snd (fst C9_out), snd C9_out) /\
  snd C9_out = 0 /\
  completions (snd (fst C9_out)) =
    [(2%nat, vclock_sum (w_vclock (fst (fst C9_out))), w_vclock (fst (fst C9_out)))].
Proof.
  assert (H1 : wal_write_in_wal_mode_none 1%nat 7 S2_writer tx0 S2_B =
               Some (fst (fst C9_out), snd (fst C9_out), snd C9_out))
    by (vm_compute; reflexivity).
  destruct (wal_write_in_wal_mode_none_sync 1%nat 7 _ _ _ _ _ _ H1)
    as (C1 & rs & diff & _ & _ & _ & _ & _ & C6).
  exact (conj H1 (conj C1 C6)).
Defined.

(** Scenario S1-like in numbers: the two rows of B get lsns 6 and 7 and
    the writer moves to [{1:7}], with no disk call. *)
Example C9_numbers :
  w_vclock (fst (fst C9_out)) 1%nat = 7 /\
  disk (fst (fst C9_out)) = disk S2_writer /\
  map (fun c => snd (fst c)) (completions (snd (fst C9_out))) = [7].
Proof. split; [| split]; vm_compute; reflexivity. Qed.

(** [vclock_compare a b < 0] is "[a <= b] on every component, and not
    [b <= a]". *)
Lemma vclock_compare_lt (a b : vclock) :
  (vclock_compare a b <? 0) = true ->
  forallb (fun id => a id <=? b id) vclock_ids = true /\
  forallb (fun id => b id <=? a id) vclock_ids = false.
Proof.
  unfold vclock_compare.
  destruct (forallb (fun id => a id <=? b id) vclock_ids);
  destruct (forallb (fun id => b id <=? a id) vclock_ids); cbn; try discriminate;
    auto.
Qed.

Lemma vclock_compare_lt_iff (a b : vclock) :
  forallb (fun id => a id <=? b id) vclock_ids = true ->
  forallb (fun id => b id <=? a id) vclock_ids = false ->
  vclock_compare a b = -1.
Proof. unfold vclock_compare. intros -> ->. reflexivity. Qed.

Lemma vclock_compare_lt_trans (a b c : vclock) :
  vclock_compare a b = -1 -> vclock_compare b c = -1 -> vclock_compare a c = -1.
Proof.
  intros H1 H2.
  assert (L1 := vclock_compare_lt a b ltac:(rewrite H1; reflexivity)).
  assert (L2 := vclock_compare_lt b c ltac:(rewrite H2; reflexivity)).
  destruct L1 as [A1 A2], L2 as [B1 B2].
  rewrite forallb_forall in A1, B1.
  apply vclock_compare_lt_iff.
  - apply forallb_forall. intros id Hid.
    specialize (A1 id Hid). specialize (B1 id Hid).
    apply Z.leb_le in A1, B1. apply Z.leb_le. lia.
  - destruct (forallb (fun id => c id <=? a id) vclock_ids) eqn:E; [| reflexivity].
    rewrite forallb_forall in E.
    assert (Hba : forallb (fun id => b id <=? a id) vclock_ids = true).
    { apply forallb_forall. intros id Hid.
      specialize (E id Hid). specialize (B1 id Hid).
      apply Z.leb_le in E, B1. apply Z.leb_le. lia. }
    rewrite Hba in A2. discriminate.
Qed.

Lemma second_vclock_ext (a b : wal_writer) :
  wal_dir a = wal_dir b -> w_vclock a = w_vclock b ->
  second_vclock a = second_vclock b.
Proof. unfold second_vclock. intros -> ->. reflexivity. Qed.




Lemma wal_gc_advance_fields (w : wal_writer) :
  w_vclock (wal_gc_advance w) = w_vclock w /\
  checkpoint_vclock (wal_gc_advance w) = checkpoint_vclock w /\
  current_wal (wal_gc_advance w) = current_wal w /\
  wal_dir (wal_gc_advance w) = wal_dir w /\
  gc_first_vclock (wal_gc_advance w) = gc_first_vclock w /\
  gc_wal_vclock (wal_gc_advance w) = gc_wal_vclock w /\
  disk (wal_gc_advance w) = disk w /\
  alloc (wal_gc_advance w) = tl (alloc w) /\
  tx_prio (wal_gc_advance w) =
    tx_prio w ++ (if hd true (alloc w)
                  then [TxNotifyGc (match xdir_first_vclock (wal_dir w) with
                                    | Some v => v | None => w_vclock w end)]
                  else []).
Proof.
  unfold wal_gc_advance, malloc_call.
  destruct (alloc w) as [| [|] rest] eqn:Ea; cbn; rewrite ?app_nil_r;
    repeat split; exact Ea.
Qed.



(** Scenario S4 in numbers: [V0] is deleted, the retry succeeds and
    allocates [WAL_FALLOCATE_LEN] bytes, [gc_wal_vclock] is [V2],
    [gc_first_vclock] is raised to [V2] and TX is notified with [V1]. *)
Example S4_numbers :
  snd S4_out = 0 /\
  map (fun v => v 1%nat) (wal_dir (fst S4_out)) = [3; 6; 9] /\
  allocated (current_wal (fst S4_out)) = WAL_FALLOCATE_LEN /\
  match gc_wal_vclock (fst S4_out) with GcDir v => v 1%nat = 6 | _ => False end /\
  gc_first_vclock (fst S4_out) 1%nat = 6 /\
  match tx_prio (fst S4_out) with [TxNotifyGc v] => v 1%nat = 3 | _ => False end.
Proof. vm_compute. repeat split. Qed.


Lemma vclockset_match_in (dir : list vclock) (key : vclock) (acc : option vclock)
    (c : vclock) :
  fold_left (fun acc v => if vclock_compare v key <=? 0 then Some v else acc)
    dir acc = Some c ->
  acc = Some c \/ (In c dir /\ vclock_compare c key <= 0).
Proof.
  revert acc. induction dir as [| v rest IH]; intros acc H; [left; exact H |].
  cbn [fold_left] in H. apply IH in H. destruct H as [H | [Hin Hc]].
  - destruct (vclock_compare v key <=? 0) eqn:E.
    + right. inversion H; subst. split; [left; reflexivity | apply Z.leb_le; exact E].
    + left. exact H.
  - right. split; [right; exact Hin | exact Hc].
Qed.

Lemma vclockset_match_none (dir : list vclock) (key : vclock) (acc : option vclock) :
  fold_left (fun acc v => if vclock_compare v key <=? 0 then Some v else acc)
    dir acc = None ->
  acc = None /\ (forall v, In v dir -> 0 < vclock_compare v key).
Proof.
  revert acc. induction dir as [| v rest IH]; intros acc H.
  - split; [exact H | intros v []].
  - cbn [fold_left] in H. apply IH in H. destruct H as [H1 H2].
    destruct (vclock_compare v key <=? 0) eqn:E; [discriminate |].
    split; [exact H1 |].
    intros u [<- | Hin]; [apply Z.leb_gt; exact E | exact (H2 u Hin)].
Qed.

Lemma vclockset_match_last (dir : list vclock) (key : vclock) (acc : option vclock)
    (c : vclock) :
  fold_left (fun acc v => if vclock_compare v key <=? 0 then Some v else acc)
    dir acc = Some c ->
  (acc = Some c /\ forall v, In v dir -> 0 < vclock_compare v key) \/
  (exists pre post, dir = pre ++ c :: post /\ vclock_compare c key <= 0 /\
     forall v, In v post -> 0 < vclock_compare v key).
Proof.
  revert acc. induction dir as [| v rest IH]; intros acc H.
  - left. split; [exact H | intros v []].
  - cbn [fold_left] in H. apply IH in H.
    destruct H as [[H1 H2] | (pre & post & E & Hc & Hp)].
    + destruct (vclock_compare v key <=? 0) eqn:Ev.
      * injection H1 as <-. right. exists [], rest.
        split; [reflexivity |]. split; [apply Z.leb_le; exact Ev | exact H2].
      * left. split; [exact H1 |].
        intros u [<- | Hu]; [apply Z.leb_gt; exact Ev | exact (H2 u Hu)].
    + right. exists (v :: pre), post. rewrite E.
      split; [reflexivity |]. split; [exact Hc | exact Hp].
Qed.

Lemma wal_gc_collect_fields (w : wal_writer) (d : list vclock) :
  let w1 := set_wal_dir w d in
  let w' := wal_gc_advance (set_gc_wal_vclock w1 (second_vclock w1)) in
  wal_dir w' = d /\ gc_wal_vclock w' = second_vclock w' /\
  w_vclock w' = w_vclock w /\ gc_first_vclock w' = gc_first_vclock w /\
  alloc w' = tl (alloc w) /\
  tx_prio w' = tx_prio w ++
    (if hd true (alloc w)
     then [TxNotifyGc (match xdir_first_vclock d with
                       | Some v => v
                       | None => w_vclock w
                       end)]
     else []).
Proof.
  intros w1 w'.
  destruct (wal_gc_advance_fields (set_gc_wal_vclock w1 (second_vclock w1)))
    as (G1 & _ & _ & G4 & G5 & G6 & _ & G8 & G9).
  fold w' in G1, G4, G5, G6, G8, G9.
  rewrite G4. split; [reflexivity |].
  split; [rewrite G6; apply second_vclock_ext; [rewrite G4 | rewrite G1]; reflexivity |].
  split; [exact G1 |]. split; [exact G5 |]. split; [exact G8 | exact G9].
Qed.

(** C6 (as the code has it): the collection point is [gc_first_vclock]
    when it is at most the relays' minimum on every component, and the
    relays' minimum otherwise (when it is smaller, and also when the two
    are incomparable): the smaller of the two, not the larger.  If no
    segment is open and its signature reaches the writer's, the segments
    below that signature are collected.  Otherwise the collection stops
    at the newest segment whose vclock is at most the collection point;
    when there is none it stops at the oldest segment (nothing is
    deleted), and nothing at all happens only for an empty directory.
    After a collection [gc_wal_vclock] is the new second vclock and TX is
    notified with the oldest retained vclock, unless the message cannot
    be allocated. *)
Theorem wal_collect_garbage_min (w : wal_writer) :
  exists collect0,
    (mclock_min w = None -> collect0 = gc_first_vclock w) /\
    (forall r, mclock_min w = Some r ->
       (forallb (fun id => gc_first_vclock w id <=? r id) vclock_ids = true /\
        collect0 = gc_first_vclock w) \/
       (forallb (fun id => gc_first_vclock w id <=? r id) vclock_ids = false /\
        collect0 = r)) /\
    let w' := wal_collect_garbage w in
    let collected c :=
      wal_dir w' = xdir_collect_garbage (wal_dir w) (vclock_sum c) /\
      gc_wal_vclock w' = second_vclock w' /\
      w_vclock w' = w_vclock w /\ gc_first_vclock w' = gc_first_vclock w /\
      alloc w' = tl (alloc w) /\
      tx_prio w' = tx_prio w ++
        (if hd true (alloc w)
         then [TxNotifyGc (match xdir_first_vclock (wal_dir w') with
                           | Some v => v
                           | None => w_vclock w
                           end)]
         else []) in
    (xlog_open (current_wal w) = false ->
     vclock_sum (w_vclock w) <= vclock_sum collect0 -> collected collect0) /\
    ((xlog_open (current_wal w) = true \/
      vclock_sum collect0 < vclock_sum (w_vclock w)) ->
     (exists pre c post, wal_dir w = pre ++ c :: post /\
        vclock_compare c collect0 <= 0 /\
        (forall v, In v post -> 0 < vclock_compare v collect0) /\
        collected c) \/
     ((forall v, In v (wal_dir w) -> 0 < vclock_compare v collect0) /\
      ((wal_dir w = [] /\ w' = w) \/
       (exists c rest, wal_dir w = c :: rest /\ collected c)))).
Proof.
  set (c0 := match mclock_min w with
             | Some relay_min_vclock =>
                 let rc := vclock_compare (gc_first_vclock w) relay_min_vclock in
                 if (0 <? rc) || (rc =? VCLOCK_ORDER_UNDEFINED)
                 then relay_min_vclock else gc_first_vclock w
             | None => gc_first_vclock w
             end).
  exists c0. split; [| split].
  - unfold c0. intros ->. reflexivity.
  - intros r Hr. unfold c0. rewrite Hr. unfold vclock_compare.
    destruct (forallb (fun id => gc_first_vclock w id <=? r id) vclock_ids);
    destruct (forallb (fun id => r id <=? gc_first_vclock w id) vclock_ids);
    cbn; auto.
  - unfold wal_collect_garbage. fold c0. cbv beta zeta.
    split.
    + intros Ho Hs. rewrite Ho. apply Z.leb_le in Hs. rewrite Hs. cbn [negb andb].
      destruct (wal_gc_collect_fields w
        (xdir_collect_garbage (wal_dir w) (vclock_sum c0)))
        as (F1 & F2 & F3 & F4 & F5 & F6).
      split; [exact F1 |]. split; [exact F2 |]. split; [exact F3 |].
      split; [exact F4 |]. split; [exact F5 |]. rewrite F6, F1. reflexivity.
    + intros H.
      replace (negb (xlog_open (current_wal w)) &&
               (vclock_sum (w_vclock w) <=? vclock_sum c0)) with false
        by (destruct H as [H | H]; [rewrite H; reflexivity |
            apply Z.leb_gt in H; rewrite H; symmetry; apply andb_false_r]).
      unfold vclockset_match.
      destruct (fold_left _ (wal_dir w) None) as [c |] eqn:E.
      * destruct (vclockset_match_last _ _ _ _ E)
          as [[Hn _] | (pre & post & Ed & Hc & Hp)]; [discriminate |].
        left. exists pre, c, post.
        split; [exact Ed |]. split; [exact Hc |]. split; [exact Hp |].
        destruct (wal_gc_collect_fields w
          (xdir_collect_garbage (wal_dir w) (vclock_sum c)))
          as (F1 & F2 & F3 & F4 & F5 & F6).
        split; [exact F1 |]. split; [exact F2 |]. split; [exact F3 |].
        split; [exact F4 |]. split; [exact F5 |]. rewrite F6, F1. reflexivity.
      * right. split; [exact (proj2 (vclockset_match_none _ _ _ E)) |].
        destruct (wal_dir w) as [| c rest] eqn:Ed.
        -- left. split; reflexivity.
        -- right. exists c, rest. split; [reflexivity |].
           cbn [xdir_first_vclock].
           destruct (wal_gc_collect_fields w
             (xdir_collect_garbage (c :: rest) (vclock_sum c)))
             as (F1 & F2 & F3 & F4 & F5 & F6).
           split; [exact F1 |]. split; [exact F2 |]. split; [exact F3 |].
           split; [exact F4 |]. split; [exact F5 |]. rewrite F6, F1. reflexivity.
Qed.

(** C6 does not hold as stated: with [gc_first_vclock = {1:5}] above the
    relay at [{1:3}], the larger of the two is [{1:5}] and the newest
    segment at most [{1:5}] starts at [{1:5}], yet the segment at [{1:3}]
    is kept: the collection point is the smaller one. *)
Lemma wal_collect_garbage_takes_min :
  vclock_compare (gc_first_vclock C6_writer) (vc1 3) = 1 /\
  mclock_min C6_writer = Some (vc1 3) /\
  map (fun v => v 1%nat) (wal_dir (wal_collect_garbage C6_writer)) = [3; 5] /\
  map (fun v => v 1%nat) (xdir_collect_garbage (wal_dir C6_writer) 5) = [5].
Proof. split; [| split; [| split]]; vm_compute; reflexivity. Qed.

Lemma lor_all_app (l : list Z) (x : Z) :
  lor_all (l ++ [x]) = Z.lor (lor_all l) x.
Proof. unfold lor_all. rewrite fold_left_app. reflexivity. Qed.

Lemma wal_watcher_notify_complete_detached (w : wal_watcher) :
  attached w = false ->
  pushed (wal_watcher_notify_complete w) = pushed w /\
  msg_stage (wal_watcher_notify_complete w) = Idle.
Proof.
  intros Ha. unfold wal_watcher_notify_complete.
  cbn [attached negb]. rewrite Ha. split; reflexivity.
Qed.


Lemma watcher_run_inv (w : wal_watcher) (r : Z) (c : nat) :
  watcher_run w r c ->
  length (pushed w) =
    (c + match msg_stage w with Idle => 0 | _ => 1 end)%nat /\
  Z.lor (lor_all (pushed w)) (pending_events w) = r /\
  (msg_stage w = ToWatcher -> pushed w = delivered w ++ [msg_events w]) /\
  (msg_stage w <> ToWatcher -> pushed w = delivered w) /\
  (attached w = true -> msg_stage w = Idle -> pending_events w = 0).
Proof.
  intros H. induction H as [| w r c ev H IH Ha | w r c H IH Hs
                            | w r c H IH Hs | w r c H IH Ha].
  - split; [reflexivity |]. split; [reflexivity |].
    split; [intros _; reflexivity |]. split; [intros Hs; exfalso; apply Hs; reflexivity |].
    intros _ Hs; discriminate Hs.
  - destruct IH as (I1 & I2 & I3 & I4 & I5).
    unfold wal_watcher_notify.
    destruct (msg_stage w) eqn:Es; cbn [msg_stage pushed pending_events
                                        delivered msg_events attached].
    + specialize (I5 Ha eq_refl). rewrite I5 in I2 |- *.
      rewrite I4 by discriminate. rewrite length_app, lor_all_app.
      rewrite I4 in I1 by discriminate. rewrite I1.
      rewrite I4 in I2 by discriminate. rewrite Z.lor_0_r in I2 |- *.
      rewrite I2.
      split; [cbn; lia |]. split; [reflexivity |].
      split; [intros _; reflexivity |]. split; [intros Hs; exfalso; apply Hs; reflexivity |].
      intros _ Hs; discriminate Hs.
    + split; [exact I1 |]. split; [rewrite Z.lor_assoc, I2; reflexivity |].
      split; [exact I3 |]. split; [exact I4 |].
      intros _ Hs; discriminate Hs.
    + split; [exact I1 |]. split; [rewrite Z.lor_assoc, I2; reflexivity |].
      split; [exact I3 |]. split; [exact I4 |].
      intros _ Hs; discriminate Hs.
  - destruct IH as (I1 & I2 & I3 & I4 & I5).
    unfold wal_watcher_notify_perform.
    cbn [msg_stage pushed pending_events delivered msg_events attached].
    rewrite Hs in I1. specialize (I3 Hs).
    split; [exact I1 |]. split; [exact I2 |].
    split; [intros Hf; discriminate Hf |]. split; [intros _; exact I3 |].
    intros _ Hf; discriminate Hf.
  - destruct IH as (I1 & I2 & I3 & I4 & I5).
    rewrite Hs in I1. assert (I4' := I4 ltac:(rewrite Hs; discriminate)).
    unfold wal_watcher_notify_complete.
    cbn [msg_stage pushed pending_events delivered msg_events attached negb].
    destruct (attached w) eqn:Ea; cbn [negb].
    + destruct (pending_events w =? 0) eqn:Ep; cbn [negb].
      * apply Z.eqb_eq in Ep.
        cbn [msg_stage pushed pending_events delivered msg_events attached].
        split; [lia |]. split; [exact I2 |].
        split; [intros Hf; discriminate Hf |]. split; [intros _; exact I4' |].
        intros _ _; exact Ep.
      * unfold wal_watcher_notify.
        cbn [msg_stage pushed pending_events delivered msg_events attached].
        rewrite length_app, lor_all_app, Z.lor_0_r, <- I2.
        split; [cbn; lia |]. split; [reflexivity |].
        split; [intros _; rewrite I4'; reflexivity |].
        split; [intros Hf; exfalso; apply Hf; reflexivity |].
        intros _ Hf; discriminate Hf.
    + cbn [msg_stage pushed pending_events delivered msg_events attached].
      split; [lia |]. split; [exact I2 |].
      split; [intros Hf; discriminate Hf |]. split; [intros _; exact I4' |].
      intros Hf; discriminate Hf.
  - destruct IH as (I1 & I2 & I3 & I4 & I5).
    unfold wal_watcher_detach.
    cbn [msg_stage pushed pending_events delivered msg_events attached].
    split; [exact I1 |]. split; [exact I2 |].
    split; [exact I3 |]. split; [exact I4 |].
    intros Hf; discriminate Hf.
Qed.

(** C8: along every run of a watcher, the messages pushed to the watcher
    are the completed ones plus at most one en route; the OR of the pushed
    events and the pending ones is the OR of all events raised; the
    callback receives the pushed events in push order (all of them, or
    all but the one still on its first hop); an attached watcher with no
    message en route has no pending event; and a completion for a
    detached watcher pushes nothing. *)
Theorem watcher_run_single_in_flight (w : wal_watcher) (r : Z) (c : nat) :
  watcher_run w r c ->
  length (pushed w) =
    (c + match msg_stage w with Idle => 0 | _ => 1 end)%nat /\
  Z.lor (lor_all (pushed w)) (pending_events w) = r /\
  (msg_stage w = ToWatcher -> pushed w = delivered w ++ [msg_events w]) /\
  (msg_stage w <> ToWatcher -> pushed w = delivered w) /\
  (attached w = true -> msg_stage w = Idle -> pending_events w = 0) /\
  (attached w = false ->
   pushed (wal_watcher_notify_complete w) = pushed w /\
   msg_stage (wal_watcher_notify_complete w) = Idle).
Proof.
  intros H.
  destruct (watcher_run_inv w r c H) as (I1 & I2 & I3 & I4 & I5).
  split; [exact I1 |]. split; [exact I2 |]. split; [exact I3 |].
  split; [exact I4 |]. split; [exact I5 |].
  exact (wal_watcher_notify_complete_detached w).
Qed.

Lemma watcher_run_single_in_flight_witness :
  watcher_run W8_watcher (Z.lor WAL_EVENT_ROTATE WAL_EVENT_WRITE) 1 /\
  length (pushed W8_watcher) = 2%nat.
Proof.
  assert (H : watcher_run W8_watcher (Z.lor WAL_EVENT_ROTATE WAL_EVENT_WRITE) 1).
  { apply run_complete; [| reflexivity].
    apply run_perform; [| reflexivity].
    apply run_notify; [apply run_attach | reflexivity]. }
  split; [exact H |].
  exact (proj1 (watcher_run_single_in_flight _ _ _ H)).
Defined.

(** The WRITE raised while the ROTATE message was en route is sent when
    it returns; once detached, a returning message sends nothing. *)
Example W8_numbers :
  pushed W8_watcher = [WAL_EVENT_ROTATE; WAL_EVENT_WRITE] /\
  delivered W8_watcher = [WAL_EVENT_ROTATE] /\
  pending_events W8_watcher = 0 /\
  pushed W8_detached = [WAL_EVENT_ROTATE] /\
  msg_stage W8_detached = Idle.
Proof. vm_compute. repeat split. Qed.

(* ------------------------------------------------------------------ *)
(** ** Checkpoint bookkeeping along a batch *)

Lemma count_checkpoint_notify_app (l1 l2 : list tx_msg) :
  count_checkpoint_notify (l1 ++ l2) =
  (count_checkpoint_notify l1 + count_checkpoint_notify l2)%nat.
Proof. unfold count_checkpoint_notify. rewrite filter_app, length_app. reflexivity. Qed.

Lemma ckpt_frame_same (w w' : wal_writer) :
  checkpoint_wal_size w' = checkpoint_wal_size w ->
  checkpoint_threshold w' = checkpoint_threshold w ->
  checkpoint_triggered w' = checkpoint_triggered w ->
  checkpoint_vclock w' = checkpoint_vclock w ->
  alloc w' = alloc w ->
  tx_prio w' = tx_prio w -> ckpt_frame w w'.
Proof.
  intros H1 H2 H3 H4 H5 H6. repeat (split; [assumption |]).
  split; [unfold alloc_ok; rewrite H5; auto |].
  exists []. rewrite app_nil_r. split; [exact H6 | reflexivity].
Qed.

Lemma ckpt_frame_refl (w : wal_writer) : ckpt_frame w w.
Proof. apply ckpt_frame_same; reflexivity. Qed.

Lemma ckpt_frame_trans (w1 w2 w3 : wal_writer) :
  ckpt_frame w1 w2 -> ckpt_frame w2 w3 -> ckpt_frame w1 w3.
Proof.
  intros (A1 & A2 & A3 & A4 & A5 & l1 & L1 & C1)
         (B1 & B2 & B3 & B4 & B5 & l2 & L2 & C2).
  split; [congruence |]. split; [congruence |]. split; [congruence |].
  split; [congruence |]. split; [auto |].
  exists (l1 ++ l2). split.
  - rewrite L2, L1, app_assoc. reflexivity.
  - rewrite count_checkpoint_notify_app, C1, C2. reflexivity.
Qed.

Lemma ckpt_frame_grow (w w' : wal_writer) : ckpt_frame w w' -> ckpt_grow w w'.
Proof.
  intros (A1 & A2 & A3 & A4 & L). split; [lia |]. auto.
Qed.

Lemma ckpt_grow_trans (w1 w2 w3 : wal_writer) :
  ckpt_grow w1 w2 -> ckpt_grow w2 w3 -> ckpt_grow w1 w3.
Proof.
  intros (A1 & A2 & A3 & A4 & A5 & l1 & L1 & C1)
         (B1 & B2 & B3 & B4 & B5 & l2 & L2 & C2).
  split; [lia |]. split; [congruence |]. split; [congruence |].
  split; [congruence |]. split; [auto |].
  exists (l1 ++ l2). split.
  - rewrite L2, L1, app_assoc. reflexivity.
  - rewrite count_checkpoint_notify_app, C1, C2. reflexivity.
Qed.

Lemma ckpt_frame_push (w : wal_writer) (m : tx_msg) :
  m <> TxNotifyCheckpoint -> ckpt_frame w (push_tx_prio w m).
Proof.
  intros Hm. repeat (split; [reflexivity |]).
  split; [intros H; exact H |].
  exists [m]. split; [reflexivity |].
  unfold count_checkpoint_notify. destruct m; [reflexivity | congruence | reflexivity].
Qed.

Ltac frame_same := apply ckpt_frame_same; reflexivity.

Lemma disk_call_frame (w w1 : wal_writer) (rc : Z) :
  disk_call w = (rc, w1) -> ckpt_frame w w1.
Proof.
  unfold disk_call. destruct (disk w); intros H; inversion H; subst; frame_same.
Qed.

Lemma xlog_account_frame (w : wal_writer) (rc : Z) :
  ckpt_frame w (xlog_account w rc).
Proof. unfold xlog_account. destruct (0 <? rc); frame_same. Qed.

Lemma malloc_call_frame (w w1 : wal_writer) (ok : bool) :
  malloc_call w = (ok, w1) -> ckpt_frame w w1.
Proof.
  unfold malloc_call. destruct (alloc w) as [| b rest] eqn:Ea;
    intros H; injection H as <- <-; [frame_same |].
  repeat (split; [reflexivity |]).
  split; [unfold alloc_ok; rewrite Ea; cbn; apply andb_prop |].
  exists []. rewrite app_nil_r. split; reflexivity.
Qed.

Lemma wal_gc_advance_frame (w : wal_writer) : ckpt_frame w (wal_gc_advance w).
Proof.
  unfold wal_gc_advance.
  destruct (malloc_call w) as [ok w1] eqn:Em. apply malloc_call_frame in Em.
  destruct ok; [| exact Em].
  apply (ckpt_frame_trans _ _ _ Em), ckpt_frame_push. discriminate.
Qed.

Lemma wal_writer_begin_rollback_frame (w : wal_writer) :
  ckpt_frame w (wal_writer_begin_rollback w).
Proof.
  unfold wal_writer_begin_rollback.
  apply (ckpt_frame_trans _ (set_in_rollback w true)); [frame_same |].
  apply ckpt_frame_push. discriminate.
Qed.

Lemma wal_opt_rotate_frame (w w' : wal_writer) (ok : bool) :
  wal_opt_rotate w = (w', ok) -> ckpt_frame w w'.
Proof.
  unfold wal_opt_rotate.
  set (w1 := if xlog_open (current_wal w) && (wal_max_size w <=? offset (current_wal w))
             then _ else w).
  assert (F1 : ckpt_frame w w1) by (unfold w1; destruct (_ && _); frame_same).
  clearbody w1.
  destruct (xlog_open (current_wal w1)).
  - intros H. inversion H; subst. exact F1.
  - destruct (disk_call w1) as [rc w2] eqn:Ed.
    apply disk_call_frame in Ed.
    destruct (negb (rc =? 0)); intros H; inversion H; subst.
    + exact (ckpt_frame_trans _ _ _ F1 Ed).
    + apply (ckpt_frame_trans _ _ _ F1), (ckpt_frame_trans _ _ _ Ed).
      destruct (gc_wal_vclock _); frame_same.
Qed.

Lemma wal_fallocate_retry_frame (fuel : nat) (w : wal_writer) (len gc_lsn : Z)
    (nt : bool) (w' : wal_writer) (rc : Z) (nt' : bool) :
  wal_fallocate_retry fuel w len gc_lsn nt = Some (w', rc, nt') ->
  ckpt_frame w w'.
Proof.
  revert w nt. induction fuel as [| fuel IH]; intros w nt H; cbn [wal_fallocate_retry] in H.
  - inversion H; subst. apply ckpt_frame_refl.
  - destruct (len <=? allocated (current_wal w)).
    { inversion H; subst. apply ckpt_frame_refl. }
    destruct (disk_call w) as [err w1] eqn:Ed. apply disk_call_frame in Ed.
    destruct (err =? 0).
    { inversion H; subst. apply (ckpt_frame_trans _ _ _ Ed). frame_same. }
    destruct (negb (err =? ENOSPC)).
    { inversion H; subst. exact Ed. }
    destruct (negb (xdir_has_garbage (wal_dir w1) gc_lsn)).
    { inversion H; subst. exact Ed. }
    destruct (gc_ptr_get _ _) as [g |]; [| discriminate].
    apply IH in H. apply (ckpt_frame_trans _ _ _ Ed).
    refine (ckpt_frame_trans _ _ _ _ H).
    destruct (_ <? 0); frame_same.
Qed.

Lemma wal_fallocate_frame (w w' : wal_writer) (len rc : Z) :
  wal_fallocate w len = Some (w', rc) -> ckpt_frame w w'.
Proof.
  unfold wal_fallocate.
  destruct (wal_fallocate_retry _ _ _ _ _) as [[[w1 rc1] nt] |] eqn:E; [| discriminate].
  apply wal_fallocate_retry_frame in E.
  intros H; inversion H; subst. destruct nt; [| exact E].
  exact (ckpt_frame_trans _ _ _ E (wal_gc_advance_frame _)).
Qed.

Lemma wal_encode_write_entry_frame (w w1 : wal_writer) (e : journal_entry) (rc : Z) :
  wal_encode_write_entry w e = (w1, rc) -> ckpt_frame w w1.
Proof.
  unfold wal_encode_write_entry. destruct (disk_call w) as [r w0] eqn:Ed.
  intros H; inversion H; subst.
  exact (ckpt_frame_trans _ _ _ (disk_call_frame _ _ _ Ed) (xlog_account_frame _ _)).
Qed.

Lemma xlog_flush_frame (w w1 : wal_writer) (rc : Z) :
  xlog_flush w = (w1, rc) -> ckpt_frame w w1.
Proof.
  unfold xlog_flush. destruct (disk_call w) as [r w0] eqn:Ed.
  intros H; inversion H; subst.
  exact (ckpt_frame_trans _ _ _ (disk_call_frame _ _ _ Ed) (xlog_account_frame _ _)).
Qed.

Lemma wal_write_xlog_batch_loop_frame (iid : nat) (now : Z) (w : wal_writer)
    (input output : list journal_entry) (d : vclock) w1 rest out1 d1 rc :
  wal_write_xlog_batch_loop iid now w input output d = Some (w1, rest, out1, d1, rc) ->
  ckpt_frame w w1.
Proof.
  revert w output d. induction input as [| e es IH]; intros w output d H;
    cbn [wal_write_xlog_batch_loop] in H.
  - injection H as <- _ _ _ _. apply ckpt_frame_refl.
  - unfold wal_assign_lsn in H.
    destruct (wal_assign_lsn_rows _ _ _ _ _ (rows e)) as [[rs diff1] |];
      [| discriminate].
    set (entry1 := mk_entry (entry_id e) rs
                     (vclock_sum diff1 + vclock_sum (w_vclock w))
                     (entry_approx_len e)) in H.
    clearbody entry1.
    destruct (wal_encode_write_entry w entry1) as [w0 rc0] eqn:Ee.
    apply wal_encode_write_entry_frame in Ee.
    destruct es as [| e2 es2].
    + injection H as <- _ _ _ _. exact Ee.
    + destruct (rc0 =? 0).
      * exact (ckpt_frame_trans _ _ _ Ee (IH _ _ _ H)).
      * injection H as <- _ _ _ _. exact Ee.
Qed.

Lemma wal_write_xlog_batch_frame (iid : nat) (now : Z) (w : wal_writer)
    (input output : list journal_entry) (d : vclock) w1 rest out1 d1 rc :
  wal_write_xlog_batch iid now w input output d = Some (w1, rest, out1, d1, rc) ->
  ckpt_frame w w1.
Proof.
  unfold wal_write_xlog_batch.
  destruct (wal_write_xlog_batch_loop _ _ _ _ _ _) as [[[[[w0 r0] o0] d0] rc0] |] eqn:E;
    [| discriminate].
  apply wal_write_xlog_batch_loop_frame in E.
  destruct (rc0 =? 0).
  - destruct (xlog_flush w0) as [w2 rc2] eqn:Ef. apply xlog_flush_frame in Ef.
    intros H; inversion H; subst. exact (ckpt_frame_trans _ _ _ E Ef).
  - intros H; inversion H; subst. exact E.
Qed.

Lemma wal_write_to_disk_loop_grow (iid : nat) (now : Z) (fuel : nat)
    (w : wal_writer) (input cl rl : list journal_entry) (d : vclock) w' cl' rl' :
  wal_write_to_disk_loop iid now fuel w input cl rl d = Some (w', cl', rl') ->
  ckpt_grow w w'.
Proof.
  revert w input cl rl d. induction fuel as [| fuel IH]; intros w input cl rl d H;
    cbn [wal_write_to_disk_loop] in H.
  - inversion H; subst. apply ckpt_frame_grow, ckpt_frame_refl.
  - destruct input as [| e es].
    { inversion H; subst. apply ckpt_frame_grow, ckpt_frame_refl. }
    destruct (wal_write_xlog_batch _ _ _ _ _ _) as [[[[[w1 rest] out] d1] rc] |] eqn:E;
      [| discriminate].
    apply wal_write_xlog_batch_frame, ckpt_frame_grow in E.
    destruct (rc <? 0) eqn:Erc.
    + exact (ckpt_grow_trans _ _ _ E (IH _ _ _ _ _ H)).
    + destruct (vclock_merge (w_vclock w1) d1) as [v diff2].
      apply IH in H. refine (ckpt_grow_trans _ _ _ E (ckpt_grow_trans _ _ _ _ H)).
      apply Z.ltb_ge in Erc.
      split; [unfold set_vclock, set_checkpoint_wal_size; cbn [checkpoint_wal_size]; lia |].
      repeat (split; [reflexivity |]).
      split; [intros Ha; exact Ha |].
      exists []. rewrite app_nil_r. split; reflexivity.
Qed.

Lemma ckpt_step_frame (w : wal_writer) : forall w1 w2,
  ckpt_step w w1 -> ckpt_frame w1 w2 -> ckpt_step w w2.
Proof.
  intros w1 w2 (A1 & A2 & A3 & A4 & A5 & A6 & l1 & L1 & C1)
         (B1 & B2 & B3 & B4 & B5 & l2 & L2 & C2).
  split; [lia |]. split; [congruence |]. split; [congruence |].
  split; [rewrite B3; exact A4 |].
  split; [auto |].
  split; [rewrite B1, B2, B3; exact A6 |].
  exists (l1 ++ l2). split; [rewrite L2, L1, app_assoc; reflexivity |].
  rewrite count_checkpoint_notify_app, C1, C2, B3. lia.
Qed.

Lemma ckpt_step_of_frame (w w1 : wal_writer) : ckpt_frame w w1 -> ckpt_step w w1.
Proof.
  intros F. apply (ckpt_step_frame w w); [| exact F].
  split; [lia |]. split; [reflexivity |]. split; [reflexivity |].
  split; [auto |]. split; [auto |]. split; [auto |].
  exists []. rewrite app_nil_r. split; [reflexivity |].
  destruct (checkpoint_triggered w); reflexivity.
Qed.

Lemma ckpt_step_trans (w1 w2 w3 : wal_writer) :
  ckpt_step w1 w2 -> ckpt_step w2 w3 -> ckpt_step w1 w3.
Proof.
  intros (A1 & A2 & A3 & A4 & A5 & A6 & l1 & L1 & C1)
         (B1 & B2 & B3 & B4 & B5 & B6 & l2 & L2 & C2).
  split; [lia |]. split; [congruence |]. split; [congruence |].
  split; [auto |]. split; [auto |].
  split; [intros Ha H0 H1; apply (B6 (A5 Ha)); [intros H2; exact (A6 Ha H0 H2) | exact H1] |].
  exists (l1 ++ l2). split; [rewrite L2, L1, app_assoc; reflexivity |].
  rewrite count_checkpoint_notify_app, C1, C2.
  destruct (checkpoint_triggered w1) eqn:T1.
  - rewrite (A4 eq_refl). reflexivity.
  - destruct (checkpoint_triggered w2) eqn:T2.
    + rewrite (B4 eq_refl). reflexivity.
    + destruct (checkpoint_triggered w3); reflexivity.
Qed.

Lemma wal_write_to_disk_ckpt (iid : nat) (now : Z) (w : wal_writer) (m : wal_msg)
    (w' : wal_writer) (m' : wal_msg) :
  wal_write_to_disk iid now w m = Some (w', m') -> ckpt_step w w'.
Proof.
  unfold wal_write_to_disk. intros H.
  destruct (in_rollback w).
  { injection H as <- _. apply ckpt_step_of_frame, ckpt_frame_refl. }
  destruct (wal_opt_rotate w) as [w1 ok] eqn:Er.
  apply wal_opt_rotate_frame in Er.
  destruct (negb ok).
  { injection H as <- _. apply ckpt_step_of_frame.
    exact (ckpt_frame_trans _ _ _ Er (wal_writer_begin_rollback_frame _)). }
  destruct (wal_fallocate w1 (approx_len m)) as [[w2 frc] |] eqn:Ef;
    [| discriminate].
  apply wal_fallocate_frame in Ef.
  pose proof (ckpt_frame_trans _ _ _ Er Ef) as F2. clear Er Ef.
  destruct (negb (frc =? 0)).
  { injection H as <- _. apply ckpt_step_of_frame.
    exact (ckpt_frame_trans _ _ _ F2 (wal_writer_begin_rollback_frame _)). }
  destruct (wal_write_to_disk_loop _ _ _ _ _ _ _ _) as [[[w3 cl] rl] |] eqn:El;
    [| discriminate].
  apply wal_write_to_disk_loop_grow in El.
  assert (G3 : ckpt_grow w w3).
  { exact (ckpt_grow_trans _ _ _ (ckpt_frame_grow _ _ F2) El). }
  clear F2 El.
  set (w4 := if negb (checkpoint_triggered w3) &&
               (checkpoint_threshold w3 <? checkpoint_wal_size w3)
             then
               let (ok, w3a) := malloc_call w3 in
               if ok then set_checkpoint_triggered
                            (push_tx_prio w3a TxNotifyCheckpoint) true
               else w3a
             else w3) in H.
  assert (S4 : ckpt_step w w4).
  { destruct G3 as (A1 & A2 & A3 & A4 & A5 & l & L & C).
    subst w4. destruct (checkpoint_triggered w3) eqn:T3; cbn [negb andb].
    - split; [lia |]. split; [exact A2 |]. split; [exact A4 |].
      split; [intros _; exact T3 |]. split; [exact A5 |].
      split; [intros _ _ _; exact T3 |].
      exists l. split; [exact L |]. rewrite C, <- A3. reflexivity.
    - destruct (checkpoint_threshold w3 <? checkpoint_wal_size w3) eqn:Et.
      + unfold malloc_call.
        destruct (alloc w3) as [| [|] rest] eqn:Ea3; cbn.
        * split; [cbn; lia |]. split; [exact A2 |]. split; [exact A4 |].
          split; [intros _; reflexivity |].
          split; [intros Ha; apply A5 in Ha; exact Ha |].
          split; [intros _ _ _; reflexivity |].
          exists (l ++ [TxNotifyCheckpoint]).
          split; [cbn; rewrite L, app_assoc; reflexivity |].
          rewrite count_checkpoint_notify_app, C, <- A3. reflexivity.
        * split; [cbn; lia |]. split; [exact A2 |]. split; [exact A4 |].
          split; [intros _; reflexivity |].
          split; [intros Ha; apply A5 in Ha; unfold alloc_ok in Ha |- *;
                  rewrite Ea3 in Ha; exact Ha |].
          split; [intros _ _ _; reflexivity |].
          exists (l ++ [TxNotifyCheckpoint]).
          split; [cbn; rewrite L, app_assoc; reflexivity |].
          rewrite count_checkpoint_notify_app, C, <- A3. reflexivity.
        * assert (Hno : ~ alloc_ok w).
          { intros Ha. apply A5 in Ha. unfold alloc_ok in Ha.
            rewrite Ea3 in Ha. discriminate. }
          split; [cbn; lia |]. split; [exact A2 |]. split; [exact A4 |].
          change (checkpoint_triggered (set_alloc w3 rest)) with
            (checkpoint_triggered w3).
          split; [rewrite <- A3; discriminate |].
          split; [intros Ha; contradiction |].
          split; [intros Ha; contradiction |].
          exists l. split; [exact L |]. rewrite C, <- A3, T3. reflexivity.
      + apply Z.ltb_ge in Et.
        split; [lia |]. split; [exact A2 |]. split; [exact A4 |].
        split; [rewrite <- A3; discriminate |].
        split; [exact A5 |].
        split; [intros _ _ Hlt; lia |].
        exists l. split; [exact L |]. rewrite C, <- A3, T3. reflexivity. }
  clearbody w4.
  destruct rl as [| e rl]; injection H as <- _; [exact S4 |].
  exact (ckpt_step_frame _ _ _ S4 (wal_writer_begin_rollback_frame _)).
Qed.

Lemma wal_writes_ckpt (iid : nat) (w w' : wal_writer) :
  wal_writes iid w w' -> ckpt_step w w'.
Proof.
  intros H. induction H as [w | now w m w1 m1 w2 H1 H2 IH].
  - apply ckpt_step_of_frame, ckpt_frame_refl.
  - exact (ckpt_step_trans _ _ _ (wal_write_to_disk_ckpt _ _ _ _ _ _ H1) IH).
Qed.

(** X1: over any run of batches, [checkpoint_wal_size] only grows and
    the checkpoint threshold and vclock stay; once set,
    [checkpoint_triggered] stays set; when every [malloc] of the WAL thread
    succeeds, they all still do at the end, and if an exceeded threshold
    was triggered before, it is after; and TX receives exactly one
    [tx_notify_checkpoint] if the trigger went from unset to set, and none
    otherwise. *)
Theorem wal_writes_checkpoint_notify (instance_id : nat) (w w' : wal_writer) :
  wal_writes instance_id w w' ->
  checkpoint_wal_size w <= checkpoint_wal_size w' /\
  checkpoint_threshold w' = checkpoint_threshold w /\
  checkpoint_vclock w' = checkpoint_vclock w /\
  (checkpoint_triggered w = true -> checkpoint_triggered w' = true) /\
  (alloc_ok w -> alloc_ok w') /\
  (alloc_ok w ->
   (checkpoint_threshold w < checkpoint_wal_size w ->
    checkpoint_triggered w = true) ->
   checkpoint_threshold w' < checkpoint_wal_size w' ->
   checkpoint_triggered w' = true) /\
  exists l, tx_prio w' = tx_prio w ++ l /\
    count_checkpoint_notify l =
      (if checkpoint_triggered w then 0
       else if checkpoint_triggered w' then 1 else 0)%nat.
Proof. intros H. exact (wal_writes_ckpt _ _ _ H). Qed.

Lemma wal_writes_checkpoint_notify_witness :
  wal_writes 1%nat X1_writer (fst X1_out2) /\
  checkpoint_wal_size X1_writer <= checkpoint_wal_size (fst X1_out2).
Proof.
  assert (H : wal_writes 1%nat X1_writer (fst X1_out2)).
  { apply (wal_writes_step 1%nat 7 X1_writer S2_msg (fst X1_out) (snd X1_out));
      [vm_compute; reflexivity |].
    apply (wal_writes_step 1%nat 8 (fst X1_out) S3_msg (fst X1_out2) (snd X1_out2)).
    - vm_compute; reflexivity.
    - apply wal_writes_refl. }
  split; [exact H |].
  exact (proj1 (wal_writes_checkpoint_notify _ _ _ H)).
Defined.

(** The X1 run in numbers: the first batch writes 2000 bytes, exceeds the
    threshold and notifies TX; the second one, 500 bytes more, does not
    notify again. *)
Example X1_numbers :
  checkpoint_wal_size (fst X1_out) = 2000 /\
  checkpoint_triggered (fst X1_out) = true /\
  tx_prio (fst X1_out) = [TxNotifyCheckpoint] /\
  checkpoint_wal_size (fst X1_out2) = 2500 /\
  tx_prio (fst X1_out2) = [TxNotifyCheckpoint].
Proof. vm_compute. repeat split. Qed.

Lemma wal_begin_checkpoint_f_frame (w w1 : wal_writer) (r : result (vclock * Z)) :
  wal_begin_checkpoint_f w = (w1, r) ->
  ckpt_frame w w1 /\ w_vclock w1 = w_vclock w /\
  forall v s, r = RcOk (v, s) -> v = w_vclock w /\ s = checkpoint_wal_size w.
Proof.
  unfold wal_begin_checkpoint_f.
  destruct (in_rollback w).
  { intros H; inversion H; subst.
    split; [apply ckpt_frame_refl |]. split; [reflexivity | intros v s Hr; discriminate Hr]. }
  set (w2 := if xlog_open (current_wal w) && _ then _ else w).
  assert (F : ckpt_frame w w2 /\ w_vclock w2 = w_vclock w).
  { unfold w2. destruct (_ && _); [| split; [apply ckpt_frame_refl | reflexivity]].
    destruct (gc_wal_vclock _); (split; [frame_same | reflexivity]). }
  clearbody w2. destruct F as [F V].
  intros H; inversion H; subst. split; [exact F |]. split; [exact V |].
  intros v s Hr. inversion Hr; subst. destruct F as (F1 & _).
  split; [exact V | exact F1].
Qed.

(** A checkpoint cycle: when [wal_begin_checkpoint_f] returns the vclock
    and WAL size to checkpoint at, and any batches are then written,
    [wal_commit_checkpoint_f] with those values never fails its
    assertion; it records the writer vclock of the checkpoint's begin,
    keeps as [checkpoint_wal_size] exactly the bytes written since the
    begin, and clears [checkpoint_triggered]. *)
Theorem wal_checkpoint_cycle (instance_id : nat) (w w1 w2 : wal_writer)
    (v : vclock) (s : Z) :
  wal_begin_checkpoint_f w = (w1, RcOk (v, s)) ->
  wal_writes instance_id w1 w2 ->
  exists w3,
    wal_commit_checkpoint_f w2 v s = Some w3 /\
    checkpoint_vclock w3 = w_vclock w /\
    checkpoint_wal_size w3 = checkpoint_wal_size w2 - checkpoint_wal_size w /\
    0 <= checkpoint_wal_size w3 /\
    checkpoint_triggered w3 = false /\
    w_vclock w3 = w_vclock w2.
Proof.
  intros Hb Hw.
  destruct (wal_begin_checkpoint_f_frame _ _ _ Hb) as (F & _ & R).
  destruct (R v s eq_refl) as [-> ->]. clear R.
  destruct (wal_writes_ckpt _ _ _ Hw) as (G & _).
  destruct F as (F1 & _).
  unfold wal_commit_checkpoint_f.
  replace (checkpoint_wal_size w <=? checkpoint_wal_size w2) with true
    by (symmetry; apply Z.leb_le; lia).
  eexists. split; [reflexivity |].
  cbn [checkpoint_vclock checkpoint_wal_size checkpoint_triggered w_vclock
       set_checkpoint_triggered set_checkpoint_wal_size set_checkpoint_vclock].
  split; [reflexivity |]. split; [reflexivity |]. split; [lia |].
  split; reflexivity.
Qed.

Lemma wal_checkpoint_cycle_witness :
  exists w3, wal_commit_checkpoint_f (fst X2_out) (vc1 5) 0 = Some w3 /\
    checkpoint_wal_size w3 = checkpoint_wal_size (fst X2_out) - 0.
Proof.
  assert (Hb : wal_begin_checkpoint_f X2_writer = (fst X2_begin, RcOk (vc1 5, 0)))
    by (vm_compute; reflexivity).
  assert (Hw : wal_writes 1%nat (fst X2_begin) (fst X2_out)).
  { apply (wal_writes_step 1%nat 7 (fst X2_begin) S2_msg (fst X2_out) (snd X2_out));
      [vm_compute; reflexivity | apply wal_writes_refl]. }
  destruct (wal_checkpoint_cycle _ _ _ _ _ _ Hb Hw) as (w3 & H1 & _ & H2 & _).
  exists w3. split; [exact H1 | exact H2].
Defined.

(** The X2 cycle in numbers: the checkpoint is at [{1:5}], the batch
    then writes 2000 bytes, and after the commit 2000 bytes are counted
    since the checkpoint. *)
Example X2_numbers :
  match X2_begin with (_, RcOk (v, s)) => v 1%nat = 5 /\ s = 0 | _ => False end /\
  checkpoint_wal_size (fst X2_out) = 2000 /\
  match wal_commit_checkpoint_f (fst X2_out) (vc1 5) 0 with
  | Some w3 => checkpoint_wal_size w3 = 2000 /\ checkpoint_vclock w3 1%nat = 5
  | None => False
  end.
Proof. vm_compute. repeat split. Qed.

Lemma wal_opt_rotate_cases (w w' : wal_writer) (ok : bool) :
  wal_opt_rotate w = (w', ok) ->
  w_vclock w' = w_vclock w /\
  tx_prio w' = tx_prio w /\
  (ok = true ->
   xlog_open (current_wal w') = true /\
   ((xlog_open (current_wal w) = true /\
     offset (current_wal w) < wal_max_size w /\
     current_wal w' = current_wal w /\ wal_dir w' = wal_dir w) \/
    (current_wal w' = mk_xlog true (w_vclock w) 0 0 /\
     wal_dir w' = wal_dir w ++ [w_vclock w]))) /\
  (ok = false ->
   xlog_open (current_wal w') = false /\ wal_dir w' = wal_dir w) /\
  (gc_wal_vclock w <> GcNull -> gc_wal_vclock w' = gc_wal_vclock w).
Proof.
  unfold wal_opt_rotate.
  set (w1 := if xlog_open (current_wal w) && _ then _ else w).
  assert (E1 : w_vclock w1 = w_vclock w /\ tx_prio w1 = tx_prio w /\
               wal_dir w1 = wal_dir w /\ gc_wal_vclock w1 = gc_wal_vclock w /\
               (xlog_open (current_wal w1) = true ->
                xlog_open (current_wal w) = true /\
                offset (current_wal w) < wal_max_size w /\
                current_wal w1 = current_wal w)).
  { unfold w1. destruct (xlog_open (current_wal w)) eqn:Eo; cbn [andb].
    - destruct (wal_max_size w <=? offset (current_wal w)) eqn:Em.
      + cbn [w_vclock tx_prio wal_dir gc_wal_vclock current_wal set_current_wal xlog_open].
        split; [reflexivity |]. split; [reflexivity |]. split; [reflexivity |].
        split; [reflexivity | intros Hc; discriminate Hc].
      + split; [reflexivity |]. split; [reflexivity |]. split; [reflexivity |].
        split; [reflexivity |]. intros _. split; [reflexivity |].
        split; [apply Z.leb_gt in Em; exact Em | reflexivity].
    - split; [reflexivity |]. split; [reflexivity |]. split; [reflexivity |].
      split; [reflexivity | intros Hc; rewrite Eo in Hc; discriminate Hc]. }
  clearbody w1. destruct E1 as (V1 & P1 & D1 & G1 & O1).
  destruct (xlog_open (current_wal w1)) eqn:Eo1.
  { intros H; injection H as <- <-.
    split; [exact V1 |]. split; [exact P1 |].
    split; [| split; [intros Hc; discriminate Hc | intros _; exact G1]].
    intros _. split; [exact Eo1 |]. left.
    destruct (O1 eq_refl) as (A & B & C). split; [exact A |]. split; [exact B |].
    split; [exact C | exact D1]. }
  unfold disk_call.
  destruct (disk w1) as [| rc rest].
  2: destruct (negb (rc =? 0)) eqn:Erc.
  2: { intros H; injection H as <- <-.
       cbn [w_vclock tx_prio wal_dir gc_wal_vclock current_wal set_disk].
       split; [exact V1 |]. split; [exact P1 |].
       split; [intros Hc; discriminate Hc |].
       split; [intros _; split; [exact Eo1 | exact D1] | intros _; exact G1]. }
  all: set (w2 := set_wal_dir _ _).
  all: assert (E2 : w_vclock w2 = w_vclock w /\ tx_prio w2 = tx_prio w /\
                    current_wal w2 = mk_xlog true (w_vclock w) 0 0 /\
                    wal_dir w2 = wal_dir w ++ [w_vclock w] /\
                    gc_wal_vclock w2 = gc_wal_vclock w)
         by (unfold w2; cbn [w_vclock tx_prio current_wal wal_dir gc_wal_vclock
                             set_wal_dir set_current_wal set_disk xdir_add_vclock];
             rewrite V1, P1, D1, G1; repeat split).
  all: clearbody w2; destruct E2 as (V2 & P2 & C2 & D2 & G2).
  all: intros H; destruct (gc_wal_vclock w2) eqn:Eg; injection H as <- <-;
    cbn [w_vclock tx_prio wal_dir gc_wal_vclock current_wal set_gc_wal_vclock];
    (split; [exact V2 |]); (split; [exact P2 |]);
    (split; [intros _; split; [rewrite C2; reflexivity | right; split; assumption] |]);
    (split; [intros Hc; discriminate Hc |]);
    intros Hn; congruence.
Qed.

(** [wal_opt_rotate] keeps the writer vclock.  On success the current
    segment is open: either it is the open segment it was, below
    [wal_max_size], with the directory unchanged, or it is a new empty
    segment starting at the writer vclock, registered as the newest of
    the directory.  On failure no segment is open and the directory is
    unchanged.  A [gc_wal_vclock] that is set stays as it was. *)
Theorem wal_opt_rotate_effect (w w' : wal_writer) (ok : bool) :
  wal_opt_rotate w = (w', ok) ->
  w_vclock w' = w_vclock w /\
  tx_prio w' = tx_prio w /\
  (ok = true ->
   xlog_open (current_wal w') = true /\
   ((xlog_open (current_wal w) = true /\
     offset (current_wal w) < wal_max_size w /\
     current_wal w' = current_wal w /\ wal_dir w' = wal_dir w) \/
    (current_wal w' = mk_xlog true (w_vclock w) 0 0 /\
     wal_dir w' = wal_dir w ++ [w_vclock w]))) /\
  (ok = false ->
   xlog_open (current_wal w') = false /\ wal_dir w' = wal_dir w) /\
  (gc_wal_vclock w <> GcNull -> gc_wal_vclock w' = gc_wal_vclock w).
Proof. exact (wal_opt_rotate_cases w w' ok). Qed.

Lemma wal_opt_rotate_effect_witness :
  current_wal (fst (wal_opt_rotate (fst X2_begin))) = mk_xlog true (vc1 5) 0 0.
Proof.
  assert (H : wal_opt_rotate (fst X2_begin) =
              (fst (wal_opt_rotate (fst X2_begin)), true))
    by (vm_compute; reflexivity).
  destruct (wal_opt_rotate_effect _ _ _ H) as (_ & _ & T & _).
  destruct (T eq_refl) as (_ & [(Ho & _) | (Hc & _)]).
  - exfalso; vm_compute in Ho; discriminate Ho.
  - rewrite Hc. vm_compute. reflexivity.
Defined.

Lemma wal_begin_checkpoint_f_cases (w w1 : wal_writer) (v : vclock) (s : Z) :
  wal_begin_checkpoint_f w = (w1, RcOk (v, s)) ->
  v = w_vclock w /\ s = checkpoint_wal_size w /\
  w_vclock w1 = w_vclock w /\ wal_dir w1 = wal_dir w /\
  tx_prio w1 = tx_prio w /\
  (xlog_open (current_wal w1) = true ->
   current_wal w1 = current_wal w /\
   vclock_sum (meta_vclock (current_wal w1)) = vclock_sum (w_vclock w)) /\
  (xlog_open (current_wal w) = false -> current_wal w1 = current_wal w).
Proof.
  unfold wal_begin_checkpoint_f.
  destruct (in_rollback w); [intros H; discriminate H |].
  destruct (xlog_open (current_wal w)) eqn:Eo; cbn [andb negb].
  - destruct (vclock_sum (meta_vclock (current_wal w)) =?
              vclock_sum (w_vclock w)) eqn:Es; cbn [negb].
    + intros H; injection H as <- <- <-.
      split; [reflexivity |]. split; [reflexivity |].
      split; [reflexivity |]. split; [reflexivity |]. split; [reflexivity |].
      split; [intros _; split; [reflexivity | apply Z.eqb_eq; exact Es] |].
      intros Hc; discriminate Hc.
    + set (w0 := set_current_wal w _).
      assert (E0 : w_vclock w0 = w_vclock w /\ wal_dir w0 = wal_dir w /\
                   tx_prio w0 = tx_prio w /\ checkpoint_wal_size w0 = checkpoint_wal_size w /\
                   xlog_open (current_wal w0) = false) by (repeat split).
      clearbody w0. destruct E0 as (V0 & D0 & P0 & S0 & O0).
      destruct (gc_wal_vclock w0); intros H; injection H as <- <- <-;
        cbn [w_vclock wal_dir tx_prio checkpoint_wal_size current_wal set_gc_wal_vclock];
        rewrite ?O0;
        (split; [exact V0 |]); (split; [exact S0 |]);
        (split; [exact V0 |]); (split; [exact D0 |]); (split; [exact P0 |]);
        (split; [intros Hc; discriminate Hc | intros Hc; discriminate Hc]).
  - intros H; injection H as <- <- <-.
    split; [reflexivity |]. split; [reflexivity |].
    split; [reflexivity |]. split; [reflexivity |]. split; [reflexivity |].
    split; [intros Hc; rewrite Eo in Hc; discriminate Hc | intros _; reflexivity].
Qed.

Lemma wal_begin_checkpoint_f_open_iff (w w1 : wal_writer) (v : vclock) (s : Z) :
  wal_begin_checkpoint_f w = (w1, RcOk (v, s)) ->
  xlog_open (current_wal w) = true ->
  (xlog_open (current_wal w1) = true <->
   vclock_sum (meta_vclock (current_wal w)) = vclock_sum (w_vclock w)).
Proof.
  unfold wal_begin_checkpoint_f.
  destruct (in_rollback w); [intros H; discriminate H |].
  destruct (xlog_open (current_wal w)) eqn:Eo; cbn [andb negb];
    [| intros _ Hc; discriminate Hc].
  destruct (vclock_sum (meta_vclock (current_wal w)) =?
            vclock_sum (w_vclock w)) eqn:Es; cbn [negb].
  - intros H _; injection H as <- <- <-. apply Z.eqb_eq in Es.
    split; intros _; [exact Es | exact Eo].
  - set (w0 := set_current_wal w _).
    assert (O0 : xlog_open (current_wal w0) = false) by reflexivity.
    clearbody w0. intros H _.
    assert (O1 : xlog_open (current_wal w1) = false).
    { destruct (gc_wal_vclock w0); injection H as <- <- <-;
        cbn [current_wal set_gc_wal_vclock]; exact O0. }
    rewrite O1. apply Z.eqb_neq in Es.
    split; intros Hc; [discriminate Hc | contradiction].
Qed.

(** [wal_begin_checkpoint_f] closes an open segment that has rows (its
    starting signature differs from the writer's) and keeps an empty one
    open: an open segment stays open exactly when its starting signature
    is the writer's. After a successful begin, the directory and the writer vclock are
    unchanged, the returned vclock is the writer's, and an open segment,
    if any, is the one that was open and starts at the checkpoint's
    signature. *)
Theorem wal_begin_checkpoint_f_closes_written_segment (w w1 : wal_writer)
    (v : vclock) (s : Z) :
  wal_begin_checkpoint_f w = (w1, RcOk (v, s)) ->
  v = w_vclock w /\
  w_vclock w1 = w_vclock w /\ wal_dir w1 = wal_dir w /\
  (xlog_open (current_wal w1) = true ->
   current_wal w1 = current_wal w /\
   vclock_sum (meta_vclock (current_wal w1)) = vclock_sum v) /\
  (xlog_open (current_wal w) = true ->
   (xlog_open (current_wal w1) = true <->
    vclock_sum (meta_vclock (current_wal w)) = vclock_sum (w_vclock w))).
Proof.
  intros H.
  pose proof (wal_begin_checkpoint_f_open_iff _ _ _ _ H) as I.
  destruct (wal_begin_checkpoint_f_cases _ _ _ _ H) as (-> & _ & V & D & _ & O & _).
  split; [reflexivity |]. split; [exact V |]. split; [exact D |].
  split; [exact O | exact I].
Qed.

Lemma wal_begin_checkpoint_f_closes_written_segment_witness :
  xlog_open (current_wal (fst X2_begin)) = false /\
  w_vclock (fst X2_begin) = w_vclock X2_writer.
Proof.
  assert (H : wal_begin_checkpoint_f X2_writer = (fst X2_begin, RcOk (vc1 5, 0)))
    by (vm_compute; reflexivity).
  destruct (wal_begin_checkpoint_f_closes_written_segment _ _ _ _ H) as (_ & V & _ & _ & _).
  split; [vm_compute; reflexivity | exact V].
Defined.

(** A checkpoint begun with [wal_begin_checkpoint_f] and followed by a
    successful [wal_opt_rotate] (the start of the next write): the segment
    the write goes to starts at the checkpoint's signature, and the
    directory has grown by at most that one segment. *)
Theorem wal_checkpoint_then_rotate (w w1 w2 : wal_writer) (v : vclock) (s : Z) :
  wal_begin_checkpoint_f w = (w1, RcOk (v, s)) ->
  wal_opt_rotate w1 = (w2, true) ->
  xlog_open (current_wal w2) = true /\
  vclock_sum (meta_vclock (current_wal w2)) = vclock_sum v /\
  (wal_dir w2 = wal_dir w \/ wal_dir w2 = wal_dir w ++ [v]).
Proof.
  intros Hb Hr.
  destruct (wal_begin_checkpoint_f_cases _ _ _ _ Hb) as (-> & _ & V & D & _ & O & _).
  destruct (wal_opt_rotate_cases _ _ _ Hr) as (_ & _ & T & _).
  destruct (T eq_refl) as (Ho & [(Ho1 & _ & C & D2) | (C & D2)]).
  - destruct (O Ho1) as (_ & Hs).
    split; [exact Ho |]. split; [rewrite C; exact Hs |]. left; rewrite D2; exact D.
  - split; [exact Ho |]. rewrite C, D2, D, V. cbn [meta_vclock].
    split; [reflexivity | right; reflexivity].
Qed.

Lemma wal_checkpoint_then_rotate_witness :
  vclock_sum (meta_vclock (current_wal (fst (wal_opt_rotate (fst X2_begin))))) = 5.
Proof.
  assert (Hb : wal_begin_checkpoint_f X2_writer = (fst X2_begin, RcOk (vc1 5, 0)))
    by (vm_compute; reflexivity).
  assert (Hr : wal_opt_rotate (fst X2_begin) =
               (fst (wal_opt_rotate (fst X2_begin)), true))
    by (vm_compute; reflexivity).
  destruct (wal_checkpoint_then_rotate _ _ _ _ _ Hb Hr) as (_ & Hs & _).
  rewrite Hs. vm_compute. reflexivity.
Defined.

Lemma vclock_order_changed_leb (old target new : vclock) :
  vclock_order_changed old target new =
  negb (vclock_leb target old && negb (vclock_leb old target)) &&
  vclock_leb target new.
Proof.
  unfold vclock_order_changed, vclock_compare, vclock_leb.
  destruct (forallb (fun id => old id <=? target id) vclock_ids);
  destruct (forallb (fun id => target id <=? old id) vclock_ids);
  destruct (forallb (fun id => new id <=? target id) vclock_ids);
  destruct (forallb (fun id => target id <=? new id) vclock_ids);
  reflexivity.
Qed.

(** [wal_set_gc_first_vclock_f] changes nothing but [gc_first_vclock],
    which becomes the given vclock, and signals [wal_gc_cond] exactly when
    [gc_wal_vclock] is set, the new vclock is at or above it on every
    component, and the old [gc_first_vclock] was not strictly above it. *)
Theorem wal_set_gc_first_vclock_f_signal (w : wal_writer) (v : vclock) :
  fst (wal_set_gc_first_vclock_f w v) = set_gc_first_vclock w v /\
  (snd (wal_set_gc_first_vclock_f w v) = true <->
   exists g, gc_ptr_get w (gc_wal_vclock w) = Some g /\
     vclock_leb g v = true /\
     ~ (vclock_leb g (gc_first_vclock w) = true /\
        vclock_leb (gc_first_vclock w) g = false)).
Proof.
  unfold wal_set_gc_first_vclock_f. cbn [fst snd].
  split; [reflexivity |].
  destruct (gc_ptr_get w (gc_wal_vclock w)) as [g |].
  - rewrite vclock_order_changed_leb. split.
    + intros H. apply andb_true_iff in H as [H1 H2].
      exists g. split; [reflexivity |]. split; [exact H2 |].
      intros [A B]. rewrite A, B in H1. discriminate H1.
    + intros (g' & Hg & H2 & H3). injection Hg as <-.
      rewrite H2, andb_true_r.
      destruct (vclock_leb g (gc_first_vclock w)) eqn:A; [| reflexivity].
      destruct (vclock_leb (gc_first_vclock w) g) eqn:B; [reflexivity |].
      exfalso. apply H3. split; reflexivity.
  - split; [intros H; discriminate H |].
    intros (g & Hg & _). discriminate Hg.
Qed.

Lemma approx_sum_shift (es : list journal_entry) (x : Z) :
  fold_left (fun a e => a + entry_approx_len e) es x =
  x + fold_left (fun a e => a + entry_approx_len e) es 0.
Proof.
  revert x. induction es as [| e es IH]; intros x; cbn [fold_left].
  - lia.
  - rewrite (IH (x + entry_approx_len e)), (IH (0 + entry_approx_len e)). lia.
Qed.

Lemma iov_sum_shift (es : list journal_entry) (x : Z) :
  fold_left (fun a e => a + entry_iov e) es x =
  x + fold_left (fun a e => a + entry_iov e) es 0.
Proof.
  revert x. induction es as [| e es IH]; intros x; cbn [fold_left].
  - lia.
  - rewrite (IH (x + entry_iov e)), (IH (0 + entry_iov e)). lia.
Qed.

Lemma entry_iov_nonneg (e : journal_entry) : 0 <= entry_iov e.
Proof. unfold entry_iov, XROW_IOVMAX. lia. Qed.

Lemma iov_sum_nonneg (es : list journal_entry) :
  0 <= fold_left (fun a e => a + entry_iov e) es 0.
Proof.
  induction es as [| e es IH]; cbn [fold_left]; [lia |].
  rewrite iov_sum_shift. pose proof (entry_iov_nonneg e). lia.
Qed.

Lemma mempool_alloc_ok (tx : tx_state) :
  hd true (msg_pool tx) = true ->
  mempool_alloc tx =
    (true, mk_tx (tx_rollback tx) (replicaset_vclock tx) (wal_pipe_input tx)
             (completions tx) (wal_pipe_n_input tx) (wal_pipe_output tx)
             (tl (msg_pool tx))).
Proof.
  unfold mempool_alloc.
  destruct tx as [q rv inp cs n out [| ok pool]]; cbn; intros H;
    [reflexivity | subst; reflexivity].
Qed.

Lemma cpipe_push_no_flush (tx : tx_state) (m : pipe_msg) :
  wal_pipe_n_input tx + 1 < IOV_MAX ->
  cpipe_push tx m =
    set_wal_pipe tx (wal_pipe_input tx ++ [m]) (wal_pipe_n_input tx + 1)
      (wal_pipe_output tx).
Proof.
  intros H. unfold cpipe_push. cbn [wal_pipe_n_input set_wal_pipe].
  replace (IOV_MAX <=? wal_pipe_n_input tx + 1) with false
    by (symmetry; apply Z.leb_gt; exact H).
  reflexivity.
Qed.

Lemma wal_write_queued_no_flush (tx : tx_state) (e : journal_entry) :
  wal_pipe_n_input tx + entry_iov e < IOV_MAX ->
  wal_write_queued tx e =
    (set_wal_pipe tx (wal_pipe_input tx) (wal_pipe_n_input tx + entry_iov e)
       (wal_pipe_output tx), 0).
Proof.
  intros H. unfold wal_write_queued, cpipe_flush_input.
  cbn [wal_pipe_n_input set_wal_pipe].
  replace (IOV_MAX <=? wal_pipe_n_input tx + Z.of_nat (length (rows e)) * XROW_IOVMAX)
    with false by (symmetry; apply Z.leb_gt; exact H).
  rewrite andb_false_r. reflexivity.
Qed.

Lemma skipn_tl {A} (k : nat) (l : list A) : skipn k (tl l) = skipn (S k) l.
Proof. destruct l; cbn; [apply skipn_nil | reflexivity]. Qed.

Lemma wal_write_seq_head_batch (tx : tx_state) (es : list journal_entry)
    (b : wal_msg) (rest : list pipe_msg) :
  tx_rollback tx = [] ->
  wal_pipe_input tx = PipeBatch b :: rest ->
  wal_pipe_n_input tx + fold_left (fun a e => a + entry_iov e) es 0 < IOV_MAX ->
  wal_write_seq tx es =
  (mk_tx [] (replicaset_vclock tx)
     (PipeBatch (mk_msg (commit b ++ es) (rollback b)
                   (approx_len b + fold_left (fun a e => a + entry_approx_len e) es 0)
                   (msg_vclock b)) :: rest)
     (completions tx)
     (wal_pipe_n_input tx + fold_left (fun a e => a + entry_iov e) es 0)
     (wal_pipe_output tx) (msg_pool tx),
   repeat 0 (length es)).
Proof.
  revert tx b. induction es as [| e es IH]; intros tx b Hr Hi Hn.
  - destruct tx as [q rv inp cs n out pool]; cbn in Hr, Hi |- *. subst.
    rewrite app_nil_r, !Z.add_0_r. destruct b; reflexivity.
  - cbn [fold_left] in Hn |- *.
    rewrite (iov_sum_shift es (0 + entry_iov e)) in Hn |- *.
    rewrite (approx_sum_shift es (0 + entry_approx_len e)).
    pose proof (iov_sum_nonneg es) as Hes.
    cbn [wal_write_seq]. unfold wal_write. rewrite Hr, Hi.
    rewrite wal_write_queued_no_flush by (cbn [wal_pipe_n_input set_wal_pipe]; lia).
    cbv beta iota zeta.
    rewrite (IH _ (batch_add b e)); [| cbn [tx_rollback set_wal_pipe]; exact Hr | reflexivity |
      cbn [wal_pipe_n_input set_wal_pipe]; lia].
    cbn [tx_rollback replicaset_vclock completions wal_pipe_n_input wal_pipe_output
         msg_pool set_wal_pipe length repeat].
    unfold batch_add. cbn [commit rollback approx_len msg_vclock].
    rewrite <- app_assoc. cbn [app]. rewrite !Z.add_0_l, !Z.add_assoc. reflexivity.
Qed.

(** X7: [wal_write] outside a cascading rollback, with nothing pending in
    the WAL pipe input, a successful [mempool_alloc] for the first write,
    and [n_input] staying below [IOV_MAX] (so that no flush hands the
    batch over in between): successive writes all return [0] and go into
    one batch, pushed by the first write, whose commit list is the entries
    in the order written and whose [approx_len] is the sum of theirs;
    [n_input] counts the push and [XROW_IOVMAX] per row; nothing is
    completed and nothing is handed over. *)
Theorem wal_write_seq_one_batch (tx : tx_state) (es : list journal_entry) :
  tx_rollback tx = [] ->
  wal_pipe_input tx = [] ->
  es <> [] ->
  hd true (msg_pool tx) = true ->
  wal_pipe_n_input tx + 1 + fold_left (fun a e => a + entry_iov e) es 0 < IOV_MAX ->
  wal_write_seq tx es =
  (mk_tx [] (replicaset_vclock tx)
     [PipeBatch (mk_msg es [] (fold_left (fun a e => a + entry_approx_len e) es 0)
                   vclock_create)]
     (completions tx)
     (wal_pipe_n_input tx + 1 + fold_left (fun a e => a + entry_iov e) es 0)
     (wal_pipe_output tx) (tl (msg_pool tx)),
   repeat 0 (length es)).
Proof.
  intros Hr Hi Hne Hp Hn. destruct es as [| e es]; [contradiction Hne; reflexivity |].
  cbn [fold_left] in Hn |- *.
  rewrite (iov_sum_shift es (0 + entry_iov e)) in Hn |- *.
  rewrite (approx_sum_shift es (0 + entry_approx_len e)).
  pose proof (iov_sum_nonneg es) as Hes. pose proof (entry_iov_nonneg e) as Hie.
  cbn [wal_write_seq]. unfold wal_write. rewrite Hr, Hi.
  rewrite (mempool_alloc_ok tx Hp). cbv beta iota zeta.
  rewrite cpipe_push_no_flush by (cbn [wal_pipe_n_input]; lia).
  rewrite wal_write_queued_no_flush by (cbn [wal_pipe_n_input set_wal_pipe]; lia).
  cbv beta iota zeta.
  rewrite (wal_write_seq_head_batch _ es (batch_add (mk_msg [] [] 0 vclock_create) e) []);
    [| cbn [tx_rollback set_wal_pipe]; exact Hr
     | cbn [wal_pipe_input set_wal_pipe]; rewrite Hi; reflexivity |
     cbn [wal_pipe_n_input set_wal_pipe]; lia].
  cbn [tx_rollback replicaset_vclock completions wal_pipe_n_input wal_pipe_output
       msg_pool set_wal_pipe length repeat].
  unfold batch_add. cbn [commit rollback approx_len msg_vclock app].
  rewrite !Z.add_0_l, !Z.add_assoc. reflexivity.
Qed.

(** The two entries of S2, written from an idle TX. *)
Lemma wal_write_seq_one_batch_witness :
  snd (wal_write_seq tx0 [S2_A; S2_B]) = [0; 0].
Proof.
  rewrite (wal_write_seq_one_batch tx0 [S2_A; S2_B]);
    [reflexivity | vm_compute; reflexivity | vm_compute; reflexivity | discriminate
    | reflexivity | vm_compute; reflexivity].
Defined.

(** X8: when the first message of the WAL pipe input is not a batch (a
    [cbus_call] request is queued first), [wal_write] does not look
    further: as long as every [mempool_alloc] succeeds and [n_input] stays
    below [IOV_MAX] (no flush empties the input), every write pushes a
    batch of its own, after whatever is queued, and returns [0]. *)
Theorem wal_write_seq_behind_other (tx : tx_state) (es : list journal_entry)
    (rest : list pipe_msg) :
  tx_rollback tx = [] ->
  wal_pipe_input tx = PipeOther :: rest ->
  forallb (fun ok : bool => ok) (firstn (length es) (msg_pool tx)) = true ->
  wal_pipe_n_input tx + Z.of_nat (length es) +
    fold_left (fun a e => a + entry_iov e) es 0 < IOV_MAX ->
  wal_write_seq tx es =
  (mk_tx [] (replicaset_vclock tx)
     (PipeOther :: rest ++
      map (fun e => PipeBatch (mk_msg [e] [] (entry_approx_len e) vclock_create)) es)
     (completions tx)
     (wal_pipe_n_input tx + Z.of_nat (length es) +
        fold_left (fun a e => a + entry_iov e) es 0)
     (wal_pipe_output tx) (skipn (length es) (msg_pool tx)),
   repeat 0 (length es)).
Proof.
  revert tx rest. induction es as [| e es IH]; intros tx rest Hr Hi Hp Hn.
  - destruct tx as [q rv inp cs n out pool]; cbn in Hr, Hi |- *. subst.
    rewrite app_nil_r, !Z.add_0_r. reflexivity.
  - cbn [fold_left length] in Hn, Hp |- *.
    rewrite (iov_sum_shift es (0 + entry_iov e)) in Hn |- *.
    pose proof (iov_sum_nonneg es) as Hes. pose proof (entry_iov_nonneg e) as Hie.
    assert (Hp1 : hd true (msg_pool tx) = true /\
                  forallb (fun ok : bool => ok) (firstn (length es) (tl (msg_pool tx))) = true).
    { destruct (msg_pool tx) as [| ok pool]; cbn in Hp |- *.
      - rewrite firstn_nil. split; reflexivity.
      - apply andb_prop in Hp. exact Hp. }
    destruct Hp1 as [Hp1 Hp2].
    cbn [wal_write_seq]. unfold wal_write. rewrite Hr, Hi.
    rewrite (mempool_alloc_ok tx Hp1). cbv beta iota zeta.
    rewrite cpipe_push_no_flush by (cbn [wal_pipe_n_input]; lia).
    rewrite wal_write_queued_no_flush by (cbn [wal_pipe_n_input set_wal_pipe]; lia).
    cbv beta iota zeta.
    rewrite (IH _ (rest ++ [PipeBatch (batch_add (mk_msg [] [] 0 vclock_create) e)]));
      [| cbn [tx_rollback set_wal_pipe]; exact Hr
       | cbn [wal_pipe_input set_wal_pipe]; rewrite Hi; reflexivity
       | exact Hp2 | cbn [wal_pipe_n_input set_wal_pipe]; lia].
    cbn [tx_rollback replicaset_vclock completions wal_pipe_n_input wal_pipe_output
         msg_pool set_wal_pipe length repeat map].
    rewrite skipn_tl, <- app_assoc. cbn [app].
    unfold batch_add. cbn [commit rollback approx_len msg_vclock app].
    rewrite Z.add_0_l.
    replace (wal_pipe_n_input tx + 1 + entry_iov e + Z.of_nat (length es) +
             fold_left (fun a e => a + entry_iov e) es 0)
      with (wal_pipe_n_input tx + Z.of_nat (S (length es)) +
            (0 + entry_iov e + fold_left (fun a e => a + entry_iov e) es 0))
      by lia.
    reflexivity.
Qed.

Lemma wal_write_seq_behind_other_witness :
  snd (wal_write_seq (mk_tx [] vclock_create [PipeOther] [] 0 [] []) [S2_A; S2_B]) =
    [0; 0].
Proof.
  rewrite (wal_write_seq_behind_other (mk_tx [] vclock_create [PipeOther] [] 0 [] [])
             [S2_A; S2_B] []); [reflexivity | reflexivity | reflexivity |
                                reflexivity | vm_compute; reflexivity].
Defined.

Lemma wal_write_accepted (tx : tx_state) (e : journal_entry) :
  tx_rollback tx = [] -> wal_write_has_batch tx = true -> snd (wal_write tx e) = 0.
Proof.
  unfold wal_write_has_batch, wal_write. intros -> Hb.
  destruct (wal_pipe_input tx) as [| [b |] rest];
    [| exact (proj1 (wal_write_queued_all _ _)) |];
    unfold mempool_alloc; destruct (msg_pool tx) as [| ok rest'];
    try (rewrite Hb; exact (proj1 (wal_write_queued_all _ _)));
    exact (proj1 (wal_write_queued_all _ _)).
Qed.

Lemma tx_schedule_commit_effect (tx : tx_state) (m : wal_msg) :
  tx_schedule_commit tx m =
  mk_tx (tx_rollback tx ++ rollback m) (msg_vclock m) (wal_pipe_input tx)
    (completions tx ++
     map (fun e => (entry_id e, res e, msg_vclock m)) (commit m))
    (wal_pipe_n_input tx) (wal_pipe_output tx) (msg_pool tx).
Proof.
  unfold tx_schedule_commit. rewrite tx_schedule_queue_effect.
  cbn [tx_rollback replicaset_vclock wal_pipe_input completions
       wal_pipe_n_input wal_pipe_output msg_pool].
  destruct (rollback m); [rewrite app_nil_r |]; reflexivity.
Qed.

Lemma last_cons_default {A} (x : A) (l : list A) (d d' : A) :
  last (x :: l) d = last (x :: l) d'.
Proof.
  revert x. induction l as [| y l IH]; intros x; [reflexivity |].
  change (last (y :: l) d = last (y :: l) d'). apply IH.
Qed.

Lemma tx_schedule_commits_effect (tx : tx_state) (ms : list wal_msg) :
  fold_left tx_schedule_commit ms tx =
  mk_tx (tx_rollback tx ++ flat_map rollback ms)
    (last (map msg_vclock ms) (replicaset_vclock tx)) (wal_pipe_input tx)
    (completions tx ++
     flat_map (fun m => map (fun e => (entry_id e, res e, msg_vclock m)) (commit m)) ms)
    (wal_pipe_n_input tx) (wal_pipe_output tx) (msg_pool tx).
Proof.
  revert tx. induction ms as [| m ms IH]; intros tx; cbn [fold_left flat_map map].
  - rewrite !app_nil_r. destruct tx; reflexivity.
  - rewrite IH, tx_schedule_commit_effect.
    cbn [tx_rollback replicaset_vclock wal_pipe_input completions
         wal_pipe_n_input wal_pipe_output msg_pool].
    rewrite <- !app_assoc. f_equal.
    destruct ms as [| m' ms]; [reflexivity |].
    cbn [map]. change (last (msg_vclock m' :: map msg_vclock ms) (msg_vclock m) =
                       last (msg_vclock m' :: map msg_vclock ms) (replicaset_vclock tx)).
    apply last_cons_default.
Qed.

(** Batches coming back to TX through [tx_schedule_commit], then
    [tx_schedule_rollback]: the committed entries of the batches complete
    in batch order and, within a batch, in commit order, each observing
    its batch's vclock; then every entry put on the rollback queue, by
    these batches or before, completes in the reverse of the order it was
    queued, observing the vclock of the last batch; the queue is empty
    afterwards, so the next [wal_write] returns 0 whenever it has a batch
    for its entry (an open one or a successful [mempool_alloc]). *)
Theorem tx_commits_then_rollback (tx : tx_state) (ms : list wal_msg)
    (e : journal_entry) :
  let tx1 := tx_schedule_rollback (fold_left tx_schedule_commit ms tx) in
  let v := last (map msg_vclock ms) (replicaset_vclock tx) in
  tx_rollback tx1 = [] /\
  replicaset_vclock tx1 = v /\
  wal_pipe_input tx1 = wal_pipe_input tx /\
  completions tx1 =
    completions tx ++
    flat_map (fun m => map (fun e => (entry_id e, res e, msg_vclock m)) (commit m)) ms ++
    map (fun e => (entry_id e, res e, v)) (rev (tx_rollback tx ++ flat_map rollback ms)) /\
  (wal_write_has_batch tx1 = true -> snd (wal_write tx1 e) = 0).
Proof.
  cbn zeta. unfold tx_schedule_rollback.
  rewrite tx_schedule_commits_effect, tx_schedule_queue_effect.
  cbn [tx_rollback replicaset_vclock wal_pipe_input completions].
  split; [reflexivity |]. split; [reflexivity |]. split; [reflexivity |].
  split; [rewrite <- app_assoc; reflexivity |].
  apply wal_write_accepted. reflexivity.
Qed.

(** Two S3 batches: the first commits S2's A and rolls back S2's B, the
    second rolls back S3's C. *)
Example X9_numbers :
  let ms := [mk_msg [S2_A] [S2_B] 0 (vc1 6); mk_msg [] [S3_C] 0 (vc1 6)] in
  map (fun c => let '(id, r, _) := c in (id, r))
    (completions (tx_schedule_rollback (fold_left tx_schedule_commit ms tx0))) =
  [(entry_id S2_A, res S2_A); (entry_id S3_C, res S3_C);
   (entry_id S2_B, res S2_B)].
Proof. vm_compute. reflexivity. Qed.

Lemma relay_join_stream_trace (r : relay) (rows : list xrow_header)
    (r' : relay) (rc : Z) :
  relay_stream relay_send_initial_join_row r rows = (r', rc) ->
  relay_replica r' = relay_replica r /\
  local_vclock_at_subscribe r' = local_vclock_at_subscribe r /\
  relay_sync r' = relay_sync r /\
  exists n,
    relay_out r' =
      relay_out r ++
      map (fun p => mk_row (replica_id p) (lsn p) (tsn p) (is_commit p) (tm p)
                      (group_id p) (type p) (bodycnt p) (relay_sync r))
        (firstn n (filter (fun p => negb (Nat.eqb (group_id p) GROUP_LOCAL)) rows)) /\
    (forall i, (i < n)%nat -> 0 <= nth i (relay_io r) 0) /\
    ((n = length (filter (fun p => negb (Nat.eqb (group_id p) GROUP_LOCAL)) rows) /\
      rc = 0 /\ relay_io r' = skipn n (relay_io r)) \/
     ((n < length (filter (fun p => negb (Nat.eqb (group_id p) GROUP_LOCAL)) rows))%nat /\
      nth n (relay_io r) 0 < 0 /\ rc = -1 /\ relay_io r' = skipn (S n) (relay_io r))).
Proof.
  revert r r' rc. induction rows as [| p rows IH]; intros r r' rc H;
    cbn [relay_stream] in H.
  - injection H as <- <-.
    split; [reflexivity |]. split; [reflexivity |]. split; [reflexivity |].
    exists O. cbn [firstn map filter length]. rewrite app_nil_r.
    split; [reflexivity |]. split; [intros i Hi; lia |].
    left. split; [reflexivity |]. split; reflexivity.
  - unfold relay_send_initial_join_row in H. cbn [filter].
    destruct (negb (Nat.eqb (group_id p) GROUP_LOCAL)) eqn:Eg.
    2: { cbv beta iota zeta in H. change (0 =? 0) with true in H. cbv iota in H.
         exact (IH _ _ _ H). }
    unfold relay_send in H.
    destruct (relay_io r) as [| c rest] eqn:Eio.
    + cbv beta iota zeta in H. change (0 <? 0) with false in H. cbv iota in H.
      change (0 =? 0) with true in H. cbv iota in H.
      apply IH in H.
      cbn [relay_replica local_vclock_at_subscribe relay_sync relay_out relay_io] in H.
      destruct H as (H1 & H2 & H3 & n & H4 & _ & H6).
      split; [exact H1 |]. split; [exact H2 |]. split; [exact H3 |].
      exists (S n). cbn [firstn map length].
      split; [rewrite H4, <- app_assoc; reflexivity |].
      split; [intros [| i] _; cbn [nth]; lia |].
      destruct H6 as [(-> & -> & H7) | (_ & H7 & _)].
      * left. split; [reflexivity |]. split; [reflexivity |].
        rewrite H7, skipn_nil. reflexivity.
      * exfalso. destruct n; cbn [nth] in H7; lia.
    + cbv beta iota zeta in H. destruct (c <? 0) eqn:Ec.
      * change (-1 =? 0) with false in H. cbv iota in H. injection H as <- <-.
        cbn [relay_replica local_vclock_at_subscribe relay_sync relay_out relay_io].
        split; [reflexivity |]. split; [reflexivity |]. split; [reflexivity |].
        exists O. cbn [firstn map length]. rewrite app_nil_r.
        split; [reflexivity |]. split; [intros i Hi; lia |].
        right. apply Z.ltb_lt in Ec. cbn [nth skipn].
        split; [lia |]. split; [exact Ec |]. split; reflexivity.
      * change (0 =? 0) with true in H. cbv iota in H.
        apply Z.ltb_ge in Ec. apply IH in H.
        cbn [relay_replica local_vclock_at_subscribe relay_sync relay_out relay_io] in H.
        destruct H as (H1 & H2 & H3 & n & H4 & H5 & H6).
        split; [exact H1 |]. split; [exact H2 |]. split; [exact H3 |].
        exists (S n). cbn [firstn map length].
        split; [rewrite H4, <- app_assoc; reflexivity |].
        split; [intros [| i] Hi; cbn [nth]; [exact Ec | apply H5; lia] |].
        destruct H6 as [(-> & -> & H7) | (H7 & H8 & -> & H9)].
        -- left. split; [reflexivity |]. split; [reflexivity |]. exact H7.
        -- right. split; [lia |]. split; [exact H8 |]. split; [reflexivity | exact H9].
Qed.

(** [relay_send_initial_join_row] fed a stream of rows (the initial join
    reads a snapshot through it): the rows of [GROUP_LOCAL] are skipped;
    the other rows are written to the replica in stream order, unchanged
    except that their [sync] is the relay's, until a [coio_write_xrow]
    fails. For some [n], the first [n] rows not of [GROUP_LOCAL] are
    written and the first [n] writes succeed; either every such row is
    written and the stream returns 0, or the write of row [n] fails, is
    not written, and the stream stops there with -1. The relay keeps its
    bound replica, vclock and sync. *)
Theorem relay_initial_join_stream (r : relay) (rows : list xrow_header) :
  let kept := filter (fun p => negb (Nat.eqb (group_id p) GROUP_LOCAL)) rows in
  let r' := fst (relay_stream relay_send_initial_join_row r rows) in
  let rc := snd (relay_stream relay_send_initial_join_row r rows) in
  relay_replica r' = relay_replica r /\
  local_vclock_at_subscribe r' = local_vclock_at_subscribe r /\
  relay_sync r' = relay_sync r /\
  exists n,
    relay_out r' =
      relay_out r ++
      map (fun p => mk_row (replica_id p) (lsn p) (tsn p) (is_commit p) (tm p)
                      (group_id p) (type p) (bodycnt p) (relay_sync r))
        (firstn n kept) /\
    (forall i, (i < n)%nat -> 0 <= nth i (relay_io r) 0) /\
    ((n = length kept /\ rc = 0 /\ relay_io r' = skipn n (relay_io r)) \/
     ((n < length kept)%nat /\ nth n (relay_io r) 0 < 0 /\ rc = -1 /\
      relay_io r' = skipn (S n) (relay_io r))).
Proof.
  cbv zeta.
  destruct (relay_stream relay_send_initial_join_row r rows) as [r' rc] eqn:E.
  exact (relay_join_stream_trace r rows r' rc E).
Qed.

Lemma relay_send_row_step (r : relay) (p : xrow_header) :
  relay_replica (fst (relay_send_row r p)) = relay_replica r /\
  local_vclock_at_subscribe (fst (relay_send_row r p)) = local_vclock_at_subscribe r /\
  relay_sync (fst (relay_send_row r p)) = relay_sync r /\
  exists sent, relay_out (fst (relay_send_row r p)) = relay_out r ++ sent /\
    (length sent <= 1)%nat /\ relay_sent_ok r sent.
Proof.
  unfold relay_send_row.
  set (p1 := if Nat.eqb (group_id p) GROUP_LOCAL then _ else _).
  assert (G : forall q, p1 = Some q -> group_id q <> GROUP_LOCAL).
  { unfold p1. intros q Hq.
    destruct (Nat.eqb_spec (group_id p) GROUP_LOCAL) as [Hl | Hl].
    - destruct (Nat.eqb (replica_id p) REPLICA_ID_NIL); [discriminate Hq |].
      injection Hq as <-. cbn [group_id]. discriminate.
    - injection Hq as <-. exact Hl. }
  clearbody p1.
  destruct p1 as [q |].
  2: { split; [reflexivity |]. split; [reflexivity |]. split; [reflexivity |].
       exists []. rewrite app_nil_r. split; [reflexivity |].
       split; [cbn; lia | constructor]. }
  specialize (G q eq_refl).
  set (own := match relay_replica r with Some id => _ | None => false end).
  destruct (negb own || (lsn q <=? vclock_get (local_vclock_at_subscribe r) (replica_id q)))
    eqn:Ek.
  - unfold relay_send.
    destruct (match relay_io r with [] => (0, []) | c :: rest => (c, rest) end)
      as [c rest].
    destruct (c <? 0); cbn [fst relay_replica local_vclock_at_subscribe relay_sync relay_out].
    { split; [reflexivity |]. split; [reflexivity |]. split; [reflexivity |].
      exists []. rewrite app_nil_r. split; [reflexivity |].
      split; [cbn; lia | constructor]. }
    split; [reflexivity |]. split; [reflexivity |]. split; [reflexivity |].
    eexists. split; [reflexivity |]. split; [cbn; lia |].
    constructor; [| constructor].
    cbn [group_id sync lsn replica_id]. split; [exact G |]. split; [reflexivity |].
    intros id Hid Hq. subst id. unfold own in Ek. rewrite Hid, Nat.eqb_refl in Ek.
    cbn [negb orb] in Ek. apply Z.leb_le in Ek. exact Ek.
  - split; [reflexivity |]. split; [reflexivity |]. split; [reflexivity |].
    exists []. rewrite app_nil_r. split; [reflexivity |].
    split; [cbn; lia | constructor].
Qed.

(** [relay_send_row] fed a stream of WAL rows: what it writes is appended
    to what was written before, at most one row per row read; no written
    row is of [GROUP_LOCAL], each carries the relay's [sync], and on a
    subscribe session bound to replica [id] no written row of replica
    [id] has an lsn above [local_vclock_at_subscribe[id]]. *)
Theorem relay_row_stream (r : relay) (rows : list xrow_header) :
  exists sent,
    relay_out (fst (relay_stream relay_send_row r rows)) = relay_out r ++ sent /\
    (length sent <= length rows)%nat /\
    Forall (fun p =>
      group_id p <> GROUP_LOCAL /\ sync p = relay_sync r /\
      forall id, relay_replica r = Some id -> replica_id p = id ->
        lsn p <= vclock_get (local_vclock_at_subscribe r) id) sent.
Proof.
  revert r. induction rows as [| p rows IH]; intros r; cbn [relay_stream length].
  - exists []. rewrite app_nil_r. split; [reflexivity |].
    split; [cbn [length]; lia | constructor].
  - destruct (relay_send_row_step r p) as (R & L & Y & s1 & O1 & N1 & F1).
    destruct (relay_send_row r p) as [r1 rc].
    cbn [fst] in R, L, Y, O1.
    destruct (rc =? 0).
    + destruct (IH r1) as (s2 & O2 & N2 & F2).
      rewrite R, L, Y in F2.
      exists (s1 ++ s2). rewrite O2, O1, app_assoc. split; [reflexivity |].
      split; [rewrite length_app; lia |].
      apply Forall_app. split; [exact F1 | exact F2].
    + exists s1. cbn [fst]. split; [exact O1 |].
      split; [lia | exact F1].
Qed.

Lemma sums_change_snoc (prev : vclock) (l : list vclock) (v : vclock) :
  sums_change prev l -> vclock_sum (last l prev) <> vclock_sum v ->
  sums_change prev (l ++ [v]).
Proof.
  revert prev. induction l as [| x l IH]; intros prev H Hv; cbn [app sums_change].
  - split; [exact Hv | exact I].
  - destruct H as [H1 H2]. split; [exact H1 |]. apply IH; [exact H2 |].
    destruct l as [| y l]; [exact Hv |].
    change (vclock_sum (last (y :: l) prev) <> vclock_sum v) in Hv.
    rewrite (last_cons_default y l x prev). exact Hv.
Qed.

Lemma last_cons_cons {A} (x y : A) (l : list A) (d : A) :
  last (x :: y :: l) d = last (y :: l) d.
Proof. reflexivity. Qed.

Lemma last_snoc {A} (l : list A) (x d : A) : last (l ++ [x]) d = x.
Proof.
  induction l as [| y l IH]; [reflexivity |].
  destruct l as [| z l]; [reflexivity |].
  cbn [app] in IH |- *. rewrite last_cons_cons. exact IH.
Qed.

Section Status.
Variables (anon : bool) (id : nat) (v0 tv0 : vclock).

Lemma status_inv_event (s : relay_status) (ev : status_event) :
  status_inv anon id v0 tv0 s ->
  exists s', relay_status_event anon id s ev = Some s' /\ status_inv anon id v0 tv0 s'.
Proof.
  destruct s as [rt sv tq rq ps tv wrs].
  unfold status_inv, status_delivered.
  cbn [msg_route status_vclock tx_pipe_queued relay_pipe_queued tx_pushes
       tx_vclock wal_relay_status].
  intros (Q & W & C & L & T).
  destruct ev as [old r recv | |]; cbn [relay_status_event].
  - set (send := if old then r else recv). clearbody send.
    unfold relay_status_loop_tail.
    cbn [msg_route status_vclock tx_pipe_queued relay_pipe_queued tx_pushes
         tx_vclock wal_relay_status].
    destruct rt.
    + destruct (vclock_sum sv =? vclock_sum send) eqn:Es.
      { eexists; split; [reflexivity |].
        cbn [msg_route status_vclock tx_pipe_queued relay_pipe_queued tx_pushes
             tx_vclock wal_relay_status].
        split; [exact Q |]. split; [exact W |]. split; [exact C |].
        split; [exact L | exact T]. }
      eexists; split; [reflexivity |].
      cbn [msg_route status_vclock tx_pipe_queued relay_pipe_queued tx_pushes
           tx_vclock wal_relay_status].
      destruct Q as [-> ->]. rewrite removelast_last.
      split; [split; [reflexivity | split; reflexivity] |].
      split; [exact W |].
      split; [apply sums_change_snoc; [exact C | rewrite <- L; apply Z.eqb_neq; exact Es] |].
      split; [symmetry; apply last_snoc | exact T].
    + eexists; split; [reflexivity |].
      cbn [msg_route status_vclock tx_pipe_queued relay_pipe_queued tx_pushes
           tx_vclock wal_relay_status].
      split; [exact Q |]. split; [exact W |]. split; [exact C |].
      split; [exact L | exact T].
    + eexists; split; [reflexivity |].
      cbn [msg_route status_vclock tx_pipe_queued relay_pipe_queued tx_pushes
           tx_vclock wal_relay_status].
      split; [exact Q |]. split; [exact W |]. split; [exact C |].
      split; [exact L | exact T].
  - destruct tq as [| n].
    { eexists; split; [reflexivity |].
      unfold status_inv, status_delivered.
      cbn [msg_route status_vclock tx_pipe_queued relay_pipe_queued tx_pushes
           tx_vclock wal_relay_status].
      split; [exact Q |]. split; [exact W |]. split; [exact C |].
      split; [exact L | exact T]. }
    destruct rt; [destruct Q as [Q _]; discriminate Q | | destruct Q as [Q _]; discriminate Q].
    destruct Q as (Q1 & Q2 & Q3). injection Q1 as ->.
    remember (removelast ps) as d eqn:Ed. subst ps.
    unfold status_msg_deliver, tx_status_update.
    cbn [msg_route status_vclock tx_pipe_queued relay_pipe_queued tx_pushes
         tx_vclock wal_relay_status].
    eexists; split; [reflexivity |].
    unfold status_inv, status_delivered.
    cbn [msg_route status_vclock tx_pipe_queued relay_pipe_queued tx_pushes
         tx_vclock wal_relay_status].
    split; [split; [reflexivity | rewrite Q2; reflexivity] |].
    split; [rewrite W; destruct anon; [reflexivity | rewrite map_app; reflexivity] |].
    split; [exact C |]. split; [exact L |].
    rewrite last_snoc. reflexivity.
  - destruct rq as [| n].
    { eexists; split; [reflexivity |].
      unfold status_inv, status_delivered.
      cbn [msg_route status_vclock tx_pipe_queued relay_pipe_queued tx_pushes
           tx_vclock wal_relay_status].
      split; [exact Q |]. split; [exact W |]. split; [exact C |].
      split; [exact L | exact T]. }
    destruct rt; [destruct Q as [_ Q]; discriminate Q | destruct Q as (_ & Q & _); discriminate Q |].
    destruct Q as (Q1 & Q2). injection Q2 as ->.
    unfold status_msg_deliver, relay_status_update.
    cbn [msg_route status_vclock tx_pipe_queued relay_pipe_queued tx_pushes
         tx_vclock wal_relay_status].
    eexists; split; [reflexivity |].
    unfold status_inv, status_delivered.
    cbn [msg_route status_vclock tx_pipe_queued relay_pipe_queued tx_pushes
         tx_vclock wal_relay_status].
    split; [split; [exact Q1 | reflexivity] |].
    split; [exact W |]. split; [exact C |]. split; [exact L | exact T].
Qed.

Lemma status_inv_run (s : relay_status) (evs : list status_event) :
  status_inv anon id v0 tv0 s ->
  exists s', relay_status_run anon id s evs = Some s' /\ status_inv anon id v0 tv0 s'.
Proof.
  revert s. induction evs as [| ev evs IH]; intros s H; cbn [relay_status_run].
  - exists s. split; [reflexivity | exact H].
  - destruct (status_inv_event s ev H) as (s1 & -> & H1). exact (IH s1 H1).
Qed.

End Status.

(** The status message between a relay and TX, over any interleaving of
    relay loop passes and of TX and relay message processing, from the
    state of a new relay: every delivery finds a handler; at most one
    status message is queued, and none while its route is NULL; the
    relay never pushes a vclock with the same signature as the one
    before; TX reports to the WAL ([wal_relay_status_update], not for an
    anonymous replica) exactly the pushed vclocks it has processed, in
    push order, each once; and [relay->tx.vclock] is the last of them. *)
Theorem relay_status_single_in_flight (anon : bool) (id : nat)
    (s0 : relay_status) (evs : list status_event) :
  msg_route s0 = RouteNull -> tx_pipe_queued s0 = 0%nat ->
  relay_pipe_queued s0 = 0%nat -> tx_pushes s0 = [] -> wal_relay_status s0 = [] ->
  exists s,
    relay_status_run anon id s0 evs = Some s /\
    (tx_pipe_queued s + relay_pipe_queued s <= 1)%nat /\
    (msg_route s = RouteNull -> (tx_pipe_queued s + relay_pipe_queued s = 0)%nat) /\
    sums_change (status_vclock s0) (tx_pushes s) /\
    wal_relay_status s =
      (if anon then [] else map (fun v => (id, v)) (status_delivered s)) /\
    tx_vclock s = last (status_delivered s) (tx_vclock s0).
Proof.
  intros R Q1 Q2 P W.
  assert (I0 : status_inv anon id (status_vclock s0) (tx_vclock s0) s0).
  { unfold status_inv, status_delivered. rewrite R, Q1, Q2, P, W.
    split; [split; reflexivity |]. split; [destruct anon; reflexivity |].
    split; [exact I |]. split; reflexivity. }
  destruct (status_inv_run _ _ _ _ s0 evs I0) as (s & Hr & Q & Wl & C & _ & T).
  exists s. split; [exact Hr |].
  split; [destruct (msg_route s);
          [destruct Q as [A B] | destruct Q as (A & B & _) | destruct Q as [A B]]; lia |].
  split; [intros E; rewrite E in Q; destruct Q as [A B]; lia |].
  split; [exact C |]. split; [exact Wl | exact T].
Qed.

Lemma relay_status_single_in_flight_witness :
  exists s, relay_status_run false 2 RS_status RS_events = Some s /\
    (tx_pipe_queued s + relay_pipe_queued s <= 1)%nat.
Proof.
  destruct (relay_status_single_in_flight false 2 RS_status RS_events
              eq_refl eq_refl eq_refl eq_refl eq_refl) as (s & H & Q & _).
  exists s. split; [exact H | exact Q].
Defined.

(** The events of [RS_events]: {1:3} is pushed, {1:4} waits while it
    is in flight, TX records {1:3}, {1:5} waits for the ack, the ack
    comes, {1:5} is pushed, {1:6} waits again. *)
Example RS_numbers :
  match relay_status_run false 2 RS_status RS_events with
  | Some s =>
      map (fun v => v 1%nat) (tx_pushes s) = [3; 5] /\
      map (fun p => (fst p, snd p 1%nat)) (wal_relay_status s) = [(2%nat, 3)] /\
      msg_route s = RouteTxStatusUpdate
  | None => False
  end.
Proof. vm_compute. repeat split. Qed.
